(** * Resume feedback: normalisation, provider fallback and persistence

    A shallow embedding of the feedback layer of the resume analyser:
    the two resume viewers' [normalizeFeedback], the store's
    [toAIResponseFromJSON], [ollamaFeedback] and [feedback], and the upload
    route's [pickUploaded], [extractFeedbackText] and [handleAnalyze].

    JavaScript values are finite trees: no functions, no cycles.  Numbers
    are integers ([Z]); strings are byte strings; objects are association
    lists in insertion order with unique keys (the engines' rule that lists
    integer-like keys first is not modelled).  The host's [JSON.stringify]
    and [JSON.parse] are modelled by an executable printer and a
    recursive-descent parser on that fragment.  Asynchronous calls run to
    completion in program order; the collaborators (file store, key-value
    store, hosted chat, local model, rasteriser) answer from a [World]. *)

From Stdlib Require Import ZArith Ascii String List Lia Bool.
From Stdlib Require Import Decimal DecimalString DecimalFacts DecimalPos DecimalN DecimalZ.
From stdpp Require Import base option list strings gmap.

Import ListNotations.
Local Open Scope Z_scope.

(** ** JavaScript values *)

Module JS.

Unset Elimination Schemes.
Inductive value : Type :=
| VUndefined
| VNull
| VBool (b : bool)
| VNum (n : Z)
| VStr (s : string)
| VArr (elems : list value)
| VObj (props : list (string * value)).
Set Elimination Schemes.

(** The result of the [typeof] operator on the modelled values. *)
Inductive jstype := TUndefined | TObject | TBoolean | TNumber | TString.

Definition typeof (v : value) : jstype :=
  match v with
  | VUndefined => TUndefined
  | VNull => TObject
  | VBool _ => TBoolean
  | VNum _ => TNumber
  | VStr _ => TString
  | VArr _ => TObject
  | VObj _ => TObject
  end.

Definition is_object_type (v : value) : bool :=
  match typeof v with TObject => true | _ => false end.

Definition is_string_type (v : value) : bool :=
  match v with VStr _ => true | _ => false end.

Definition isArray (v : value) : bool :=
  match v with VArr _ => true | _ => false end.

Definition str_nonempty (s : string) : bool :=
  match s with EmptyString => false | String _ _ => true end.

(** ToBoolean: what [if (v)], [!v], [&&] and [||] test. *)
Definition truthy (v : value) : bool :=
  match v with
  | VUndefined | VNull => false
  | VBool b => b
  | VNum n => negb (n =? 0)
  | VStr s => str_nonempty s
  | VArr _ | VObj _ => true
  end.

(** [v == null], also the test of [??] and [?.]. *)
Definition nullish (v : value) : bool :=
  match v with VUndefined | VNull => true | _ => false end.

(** [a ?? b] *)
Definition coalesce (a b : value) : value := if nullish a then b else a.

(** [a || b] *)
Definition or_else (a b : value) : value := if truthy a then a else b.

(** Own-property lookup in an association list. *)
Fixpoint assoc (k : string) (props : list (string * value)) : option value :=
  match props with
  | [] => None
  | (k', v) :: rest => if String.eqb k k' then Some v else assoc k rest
  end.

Definition has_key (k : string) (v : value) : bool :=
  match v with
  | VObj props => match assoc k props with Some _ => true | None => false end
  | _ => false
  end.

(** [v?.k] for a named (non-index) key [k]: a missing property, and any
    named property of a primitive or of an array, reads as [undefined]. *)
Definition get (k : string) (v : value) : value :=
  match v with
  | VObj props => match assoc k props with Some x => x | None => VUndefined end
  | _ => VUndefined
  end.

(** [v?.[i]] for an array index. *)
Definition get_index (i : nat) (v : value) : value :=
  match v with
  | VArr l => nth i l VUndefined
  | _ => VUndefined
  end.

(** Assignment [o.k = x] on a property list: an existing key keeps its
    place, a new key goes last. *)
Fixpoint assoc_set (k : string) (x : value) (props : list (string * value))
  : list (string * value) :=
  match props with
  | [] => [(k, x)]
  | (k', v) :: rest =>
      if String.eqb k k' then (k', x) :: rest else (k', v) :: assoc_set k x rest
  end.

Definition set (k : string) (x : value) (o : value) : value :=
  match o with
  | VObj props => VObj (assoc_set k x props)
  | _ => o
  end.

(** Decimal text of an integer, as [String(n)] and [JSON.stringify(n)]
    print it. *)
Definition num_to_string (n : Z) : string :=
  NilZero.string_of_int (Z.to_int n).

Definition nat_to_string (n : nat) : string := num_to_string (Z.of_nat n).

Fixpoint join (sep : string) (l : list string) : string :=
  match l with
  | [] => EmptyString
  | [x] => x
  | x :: rest => x +:+ sep +:+ join sep rest
  end.

(** [String(v)], also what a template literal does to [v]. *)
Fixpoint toString (v : value) : string :=
  match v with
  | VUndefined => "undefined"
  | VNull => "null"
  | VBool true => "true"
  | VBool false => "false"
  | VNum n => num_to_string n
  | VStr s => s
  | VArr l =>
      join "," (List.map (fun x => if nullish x then EmptyString else toString x) l)
  | VObj _ => "[object Object]"
  end.

(** Own enumerable properties copied by an object spread [{...v}]. *)
Fixpoint index_from {A} (i : nat) (l : list A) : list (string * A) :=
  match l with
  | [] => []
  | x :: rest => (nat_to_string i, x) :: index_from (S i) rest
  end.

Fixpoint chars_of (s : string) : list value :=
  match s with
  | EmptyString => []
  | String c rest => VStr (String c EmptyString) :: chars_of rest
  end.

Definition spread_props (v : value) : list (string * value) :=
  match v with
  | VObj props => props
  | VArr l => index_from 0 l
  | VStr s => index_from 0 (chars_of s)
  | _ => []
  end.

Definition spread_into (props : list (string * value)) (v : value)
  : list (string * value) :=
  fold_left (fun acc kv => assoc_set (fst kv) (snd kv) acc) (spread_props v) props.

(** [s.trim()] on the ASCII white space and line terminators. *)
Definition is_trim_space (c : ascii) : bool :=
  let n := nat_of_ascii c in
  ((9 <=? n)%nat && (n <=? 13)%nat) || (n =? 32)%nat.

Fixpoint trim_start (s : string) : string :=
  match s with
  | EmptyString => EmptyString
  | String c rest => if is_trim_space c then trim_start rest else s
  end.

Fixpoint trim_end (s : string) : string :=
  match s with
  | EmptyString => EmptyString
  | String c rest =>
      match trim_end rest with
      | EmptyString => if is_trim_space c then EmptyString else String c EmptyString
      | r => String c r
      end
  end.

Definition trim (s : string) : string := trim_end (trim_start s).

(** [s.slice(0, n)] *)
Definition slice0 (n : nat) (s : string) : string := String.substring 0 n s.


(** No two properties of one name. *)
Fixpoint keys_unique (props : list (string * value)) : bool :=
  match props with
  | [] => true
  | (k, _) :: rest =>
      match assoc k rest with Some _ => false | None => keys_unique rest end
  end.

(** Values that JSON text can denote: free of [undefined], and no object
    with two properties of one name. *)
Fixpoint json_clean (v : value) : bool :=
  match v with
  | VUndefined => false
  | VArr l => forallb json_clean l
  | VObj props =>
      keys_unique props && forallb (fun kv => json_clean (snd kv)) props
  | _ => true
  end.

End JS.
Export JS.

(** ** The host's JSON codec *)

Module JSON.

Definition dquote : ascii := ascii_of_nat 34.
Definition backslash : ascii := ascii_of_nat 92.
Definition dq : string := String dquote EmptyString.

Definition hex_char (n : nat) : ascii :=
  if (n <? 10)%nat then ascii_of_nat (48 + n) else ascii_of_nat (87 + n).

(** QuoteJSONString, one byte at a time. *)
Definition escape_char (c : ascii) : string :=
  let n := nat_of_ascii c in
  if Ascii.eqb c dquote then String backslash dq
  else if Ascii.eqb c backslash then String backslash (String backslash EmptyString)
  else if (n =? 8)%nat then String backslash "b"
  else if (n =? 9)%nat then String backslash "t"
  else if (n =? 10)%nat then String backslash "n"
  else if (n =? 12)%nat then String backslash "f"
  else if (n =? 13)%nat then String backslash "r"
  else if (n <? 32)%nat then
    String backslash
      (String "u" (String "0" (String "0"
         (String (hex_char (n / 16)) (String (hex_char (n mod 16)) EmptyString)))))
  else String c EmptyString.

Fixpoint escape (s : string) : string :=
  match s with
  | EmptyString => EmptyString
  | String c rest => escape_char c +:+ escape rest
  end.

Definition quote (s : string) : string := dq +:+ escape s +:+ dq.

(** SerializeJSONProperty: [None] stands for the [undefined] result. *)
Fixpoint serialize (v : value) : option string :=
  match v with
  | VUndefined => None
  | VNull => Some "null"
  | VBool true => Some "true"
  | VBool false => Some "false"
  | VNum n => Some (num_to_string n)
  | VStr s => Some (quote s)
  | VArr l =>
      Some ("[" +:+
            join "," (List.map (fun x => match serialize x with
                                         | Some t => t
                                         | None => "null"
                                         end) l)
            +:+ "]")
  | VObj props =>
      Some ("{" +:+
            join ","
              ((fix members (ps : list (string * value)) : list string :=
                  match ps with
                  | [] => []
                  | (k, x) :: rest =>
                      match serialize x with
                      | Some t => (quote k +:+ ":" +:+ t) :: members rest
                      | None => members rest
                      end
                  end) props)
            +:+ "}")
  end.

(** [JSON.stringify(v)] with no replacer and no indentation. *)
Definition stringify (v : value) : option string := serialize v.

(** [JSON.stringify(v)] where the source uses the result as a string. *)
Definition stringify_str (v : value) : value :=
  match stringify v with Some s => VStr s | None => VUndefined end.

(** *** Parsing *)

Definition is_ws (c : ascii) : bool :=
  let n := nat_of_ascii c in
  (n =? 32)%nat || (n =? 9)%nat || (n =? 10)%nat || (n =? 13)%nat.

Fixpoint skip_ws (s : string) : string :=
  match s with
  | EmptyString => EmptyString
  | String c rest => if is_ws c then skip_ws rest else s
  end.

Definition hex_val (c : ascii) : option nat :=
  let n := nat_of_ascii c in
  if ((48 <=? n) && (n <=? 57))%nat then Some (n - 48)%nat
  else if ((97 <=? n) && (n <=? 102))%nat then Some (n - 87)%nat
  else if ((65 <=? n) && (n <=? 70))%nat then Some (n - 55)%nat
  else None.

(** A UTF-16 code unit given by a [\uXXXX] escape, stored as UTF-8 bytes. *)
Definition utf8_of_code (n : nat) : string :=
  if (n <? 128)%nat then String (ascii_of_nat n) EmptyString
  else if (n <? 2048)%nat then
    String (ascii_of_nat (192 + n / 64))
      (String (ascii_of_nat (128 + n mod 64)) EmptyString)
  else
    String (ascii_of_nat (224 + n / 4096))
      (String (ascii_of_nat (128 + (n / 64) mod 64))
         (String (ascii_of_nat (128 + n mod 64)) EmptyString)).

Definition unescape (e : ascii) : option ascii :=
  if Ascii.eqb e dquote then Some dquote
  else if Ascii.eqb e backslash then Some backslash
  else if Ascii.eqb e "/" then Some "/"%char
  else if Ascii.eqb e "b" then Some (ascii_of_nat 8)
  else if Ascii.eqb e "f" then Some (ascii_of_nat 12)
  else if Ascii.eqb e "n" then Some (ascii_of_nat 10)
  else if Ascii.eqb e "r" then Some (ascii_of_nat 13)
  else if Ascii.eqb e "t" then Some (ascii_of_nat 9)
  else None.

(** The characters of a string literal after its opening quote, up to and
    including the closing quote. *)
Fixpoint parse_chars (s : string) : option (string * string) :=
  match s with
  | EmptyString => None
  | String c rest =>
      if Ascii.eqb c dquote then Some (EmptyString, rest)
      else if Ascii.eqb c backslash then
        match rest with
        | EmptyString => None
        | String e rest1 =>
            if Ascii.eqb e "u" then
              match rest1 with
              | String h1 (String h2 (String h3 (String h4 rest2))) =>
                  match hex_val h1, hex_val h2, hex_val h3, hex_val h4 with
                  | Some a, Some b, Some c', Some d =>
                      match parse_chars rest2 with
                      | Some (str, r) =>
                          Some (utf8_of_code (((a * 16 + b) * 16 + c') * 16 + d)
                                  +:+ str, r)
                      | None => None
                      end
                  | _, _, _, _ => None
                  end
              | _ => None
              end
            else
              match unescape e with
              | Some x =>
                  match parse_chars rest1 with
                  | Some (str, r) => Some (String x str, r)
                  | None => None
                  end
              | None => None
              end
        end
      else if (nat_of_ascii c <? 32)%nat then None
      else
        match parse_chars rest with
        | Some (str, r) => Some (String c str, r)
        | None => None
        end
  end.

Definition digit_of_char (c : ascii) : option (uint -> uint) :=
  let n := nat_of_ascii c in
  if (n =? 48)%nat then Some D0 else if (n =? 49)%nat then Some D1
  else if (n =? 50)%nat then Some D2 else if (n =? 51)%nat then Some D3
  else if (n =? 52)%nat then Some D4 else if (n =? 53)%nat then Some D5
  else if (n =? 54)%nat then Some D6 else if (n =? 55)%nat then Some D7
  else if (n =? 56)%nat then Some D8 else if (n =? 57)%nat then Some D9
  else None.

Fixpoint read_uint (s : string) : uint * string :=
  match s with
  | EmptyString => (Nil, s)
  | String c rest =>
      match digit_of_char c with
      | Some d => let '(u, r) := read_uint rest in (d u, r)
      | None => (Nil, s)
      end
  end.

(** The JSON grammar wants at least one digit and no leading zero. *)
Definition int_literal_ok (u : uint) : bool :=
  match u with
  | Nil => false
  | D0 Nil => true
  | D0 _ => false
  | _ => true
  end.

(** Fraction and exponent parts denote non-integers in general; they are
    outside the integer model of numbers and are refused. *)
Definition starts_fraction (s : string) : bool :=
  match s with
  | String c _ => Ascii.eqb c "." || Ascii.eqb c "e" || Ascii.eqb c "E"
  | EmptyString => false
  end.

Definition parse_number (s : string) : option (value * string) :=
  match s with
  | String c rest =>
      if Ascii.eqb c "-" then
        let '(u, r) := read_uint rest in
        if int_literal_ok u && negb (starts_fraction r)
        then Some (VNum (Z.of_int (Neg u)), r) else None
      else
        let '(u, r) := read_uint s in
        if int_literal_ok u && negb (starts_fraction r)
        then Some (VNum (Z.of_int (Pos u)), r) else None
  | EmptyString => None
  end.

Fixpoint strip_prefix (word s : string) : option string :=
  match word with
  | EmptyString => Some s
  | String a w =>
      match s with
      | String b r => if Ascii.eqb a b then strip_prefix w r else None
      | EmptyString => None
      end
  end.

Definition expect (word : string) (s : string) (v : value) : option (value * string) :=
  match strip_prefix word s with
  | Some r => Some (v, r)
  | None => None
  end.

(** Members are entered in source order: a repeated key keeps its first
    place and its last value. *)
Definition object_of (members : list (string * value)) : value :=
  VObj (fold_left (fun acc kv => assoc_set (fst kv) (snd kv) acc) members []).

Fixpoint parse_value (fuel : nat) (s : string) : option (value * string) :=
  match fuel with
  | O => None
  | S fuel' =>
      match skip_ws s with
      | EmptyString => None
      | String c rest =>
          if Ascii.eqb c "{" then
            match skip_ws rest with
            | EmptyString => None
            | String c1 rest1 =>
                if Ascii.eqb c1 "}" then Some (VObj [], rest1)
                else
                  match parse_members fuel' rest with
                  | Some (ms, r) => Some (object_of ms, r)
                  | None => None
                  end
            end
          else if Ascii.eqb c "[" then
            match skip_ws rest with
            | EmptyString => None
            | String c1 rest1 =>
                if Ascii.eqb c1 "]" then Some (VArr [], rest1)
                else
                  match parse_elements fuel' rest with
                  | Some (vs, r) => Some (VArr vs, r)
                  | None => None
                  end
            end
          else if Ascii.eqb c dquote then
            match parse_chars rest with
            | Some (str, r) => Some (VStr str, r)
            | None => None
            end
          else if Ascii.eqb c "t" then expect "rue" rest (VBool true)
          else if Ascii.eqb c "f" then expect "alse" rest (VBool false)
          else if Ascii.eqb c "n" then expect "ull" rest VNull
          else parse_number (String c rest)
      end
  end
with parse_elements (fuel : nat) (s : string) : option (list value * string) :=
  match fuel with
  | O => None
  | S fuel' =>
      match parse_value fuel' s with
      | None => None
      | Some (v, r) =>
          match skip_ws r with
          | EmptyString => None
          | String c rest =>
              if Ascii.eqb c "," then
                match parse_elements fuel' rest with
                | Some (vs, r') => Some (v :: vs, r')
                | None => None
                end
              else if Ascii.eqb c "]" then Some ([v], rest)
              else None
          end
      end
  end
with parse_members (fuel : nat) (s : string)
     : option (list (string * value) * string) :=
  match fuel with
  | O => None
  | S fuel' =>
      match skip_ws s with
      | EmptyString => None
      | String c rest =>
          if Ascii.eqb c dquote then
            match parse_chars rest with
            | None => None
            | Some (k, r1) =>
                match skip_ws r1 with
                | EmptyString => None
                | String c1 r2 =>
                    if Ascii.eqb c1 ":" then
                      match parse_value fuel' r2 with
                      | None => None
                      | Some (v, r3) =>
                          match skip_ws r3 with
                          | EmptyString => None
                          | String c3 r4 =>
                              if Ascii.eqb c3 "," then
                                match parse_members fuel' r4 with
                                | Some (ms, r') => Some ((k, v) :: ms, r')
                                | None => None
                                end
                              else if Ascii.eqb c3 "}" then Some ([(k, v)], r4)
                              else None
                          end
                      end
                    else None
                end
            end
          else None
      end
  end.

(** [JSON.parse(s)]: [None] stands for the SyntaxError it throws. *)
Definition parse (s : string) : option value :=
  match parse_value (S (String.length s)) s with
  | Some (v, r) =>
      match skip_ws r with
      | EmptyString => Some v
      | String _ _ => None
      end
  | None => None
  end.

End JSON.


(** ** The shared record type (types/resume) *)

Module Types.

Record ResumeData : Type := {
  id : string;
  resumePath : string;
  imagePath : string;
  companyName : string;
  jobTitle : string;
  jobDescription : string;
  feedback : value
}.

(** [feedback: Feedback | string], as a value read back from the store:
    an object or a string that JSON text can denote. *)
Definition valid_feedback (v : value) : bool :=
  match v with
  | VStr _ => true
  | VObj _ => json_clean v
  | _ => false
  end.

Definition valid_record (r : ResumeData) : bool := valid_feedback (feedback r).

End Types.

(** ** The two viewers' normalisers (the resume routes) *)

(** Both viewers settle the object to work on and reconcile the snake_case
    keys on it in the same way.  The source assigns into [maybe] in place and
    returns it; the embedding returns the updated object. *)
Module Normalizer.

(** [input?.feedback && typeof input.feedback === "object" ? input.feedback : input] *)
Definition effective (input : value) : value :=
  if truthy (get "feedback" input) && is_object_type (get "feedback" input)
  then get "feedback" input
  else input.

(** [if (!maybe.toneAndStyle && maybe.tone_and_style) maybe.toneAndStyle = maybe.tone_and_style] *)
Definition fix_tone (maybe : value) : value :=
  if negb (truthy (get "toneAndStyle" maybe)) && truthy (get "tone_and_style" maybe)
  then set "toneAndStyle" (get "tone_and_style" maybe) maybe
  else maybe.

(** [if (maybe.overallScore == null && maybe.overall_score != null) maybe.overallScore = maybe.overall_score] *)
Definition fix_score (maybe : value) : value :=
  if nullish (get "overallScore" maybe) && negb (nullish (get "overall_score" maybe))
  then set "overallScore" (get "overall_score" maybe) maybe
  else maybe.

Definition reconcile (input : value) : value :=
  fix_score (fix_tone (effective input)).

(** A bound on the nesting of string literals inside a string: each
    successful parse of a string to a string loses its two quotes. *)
Definition fuel_of (input : value) : nat :=
  match input with
  | VStr s => String.length s
  | _ => O
  end.

End Normalizer.

(** The first viewer: unparseable text is kept for display. *)
Module ViewerA.
Import Normalizer.

(** [normalizeFeedback] with fuel for the call on the parsed value; [None]
    only when the fuel runs out.  The [catch] around the parse is the [None]
    branch of [JSON.parse]. *)
Fixpoint normalizeFeedback_fuel (fuel : nat) (input : value) : option value :=
  if negb (truthy input) then Some (VStr EmptyString)
  else if is_object_type input then Some (reconcile input)
  else
    match input with
    | VStr s =>
        match JSON.parse s with
        | Some parsed =>
            match fuel with
            | O => None
            | S fuel' => normalizeFeedback_fuel fuel' parsed
            end
        | None => Some input
        end
    | _ =>
        match JSON.parse (toString input) with
        | Some parsed => Some parsed
        | None => Some (VStr (toString input))
        end
    end.

Definition normalizeFeedback (input : value) : option value :=
  normalizeFeedback_fuel (fuel_of input) input.

End ViewerA.

(** The second viewer: anything that is not an object ends as [null]. *)
Module ViewerB.
Import Normalizer.

(** As in the first viewer, with fuel for the call on the parsed value. *)
Fixpoint normalizeFeedback_fuel (fuel : nat) (input : value) : option value :=
  if negb (truthy input) then Some VNull
  else
    match input with
    | VStr s =>
        match JSON.parse s with
        | Some parsed =>
            match fuel with
            | O => None
            | S fuel' => normalizeFeedback_fuel fuel' parsed
            end
        | None => Some VNull
        end
    | _ =>
        if negb (is_object_type input) then Some VNull
        else Some (reconcile input)
    end.

Definition normalizeFeedback (input : value) : option value :=
  normalizeFeedback_fuel (fuel_of input) input.

End ViewerB.

(** ** Effects: collaborators, state and exceptions *)

Module Effects.

(** What can be thrown: by [fetch], by the [throw] of [ollamaFeedback], by
    [res.json()], by a property read on [null] or [undefined], and by a
    collaborator. *)
Inductive exn : Type :=
| NetworkError
| OllamaRequestFailed (status : Z) (txt : string)
| SyntaxError
| TypeError
| ExternalError (msg : string).

Inductive outcome (A : Type) : Type :=
| Ok (a : A)
| Throw (e : exn).
Arguments Ok {A} a.
Arguments Throw {A} e.

(** [v.k] and [v[i]] with no [?.]: reading a property of [null] or
    [undefined] throws. *)
Definition member (k : string) (v : value) : outcome value :=
  if nullish v then Throw TypeError else Ok (get k v).

Definition element (i : nat) (v : value) : outcome value :=
  if nullish v then Throw TypeError else Ok (get_index i v).

Definition and_then {A B} (o : outcome A) (k : A -> outcome B) : outcome B :=
  match o with
  | Ok a => k a
  | Throw e => Throw e
  end.

(** What [fetch] gives back: a rejection, or a response whose body may or may
    not be readable. *)
Inductive fetch_result : Type :=
| FetchRejected
| Response (ok : bool) (status : Z) (body : option string).

(** A blob of the file store; [None] when [blob.text()] rejects. *)
Record blob : Type := Blob { blob_text : option string }.

(** The calls that leave the process, in the order they are made. *)
Inductive event : Type :=
| EvUpload
| EvConvert
| EvKvSet (key : string) (val : value)
| EvChat (path : value) (message : string)
| EvRead (path : value)
| EvFetch (prompt : string)
| EvNavigate (to : string).

(** The collaborators' answers, fixed for one run. *)
Record World : Type := {
  puter : bool;
  fs_upload : nat -> outcome value;
  fs_read : outcome (option blob);
  convertPdfToImage : outcome value;
  generateUUID : string;
  prepareInstructions : string -> string -> string;
  ai_chat : outcome value;
  fetch : nat -> fetch_result;
  randomUUID : nat -> string
}.

(** The key-value store, the route's React state, the store's error, the
    trace of calls, and how many uploads, requests and random ids were
    used. *)
Record State : Type := {
  kv : gmap string value;
  statusText : value;
  isProcessing : bool;
  storeError : option string;
  trace : list event;
  uploads : nat;
  fetches : nat;
  uuids : nat
}.

(** A computation that may throw and keeps the state it reached. *)
Definition M (A : Type) : Type := State -> outcome A * State.

Definition ret {A} (a : A) : M A := fun s => (Ok a, s).

Definition throw {A} (e : exn) : M A := fun s => (Throw e, s).

Definition bind {A B} (m : M A) (k : A -> M B) : M B :=
  fun s => match m s with
           | (Ok a, s') => k a s'
           | (Throw e, s') => (Throw e, s')
           end.

Definition try_catch {A} (m : M A) (handler : exn -> M A) : M A :=
  fun s => match m s with
           | (Ok a, s') => (Ok a, s')
           | (Throw e, s') => handler e s'
           end.

Definition finally {A} (m : M A) (cleanup : State -> State) : M A :=
  fun s => let '(r, s') := m s in (r, cleanup s').

Definition lift {A} (o : outcome A) : M A := fun s => (o, s).

Definition modify (f : State -> State) : M unit := fun s => (Ok tt, f s).

(** State updates, one field at a time. *)

Definition with_event (e : event) (s : State) : State :=
  {| kv := kv s; statusText := statusText s; isProcessing := isProcessing s;
     storeError := storeError s; trace := trace s ++ [e];
     uploads := uploads s; fetches := fetches s; uuids := uuids s |}.

Definition with_status (v : value) (s : State) : State :=
  {| kv := kv s; statusText := v; isProcessing := isProcessing s;
     storeError := storeError s; trace := trace s;
     uploads := uploads s; fetches := fetches s; uuids := uuids s |}.

Definition with_processing (b : bool) (s : State) : State :=
  {| kv := kv s; statusText := statusText s; isProcessing := b;
     storeError := storeError s; trace := trace s;
     uploads := uploads s; fetches := fetches s; uuids := uuids s |}.

Definition with_error (msg : string) (s : State) : State :=
  {| kv := kv s; statusText := statusText s; isProcessing := isProcessing s;
     storeError := Some msg; trace := trace s;
     uploads := uploads s; fetches := fetches s; uuids := uuids s |}.

Definition with_kv (key : string) (val : value) (s : State) : State :=
  {| kv := <[key := val]> (kv s); statusText := statusText s;
     isProcessing := isProcessing s; storeError := storeError s;
     trace := trace s; uploads := uploads s; fetches := fetches s;
     uuids := uuids s |}.

Definition bump_uploads (s : State) : State :=
  {| kv := kv s; statusText := statusText s; isProcessing := isProcessing s;
     storeError := storeError s; trace := trace s;
     uploads := S (uploads s); fetches := fetches s; uuids := uuids s |}.

Definition bump_fetches (s : State) : State :=
  {| kv := kv s; statusText := statusText s; isProcessing := isProcessing s;
     storeError := storeError s; trace := trace s;
     uploads := uploads s; fetches := S (fetches s); uuids := uuids s |}.

Definition bump_uuids (s : State) : State :=
  {| kv := kv s; statusText := statusText s; isProcessing := isProcessing s;
     storeError := storeError s; trace := trace s;
     uploads := uploads s; fetches := fetches s; uuids := S (uuids s) |}.

Definition log (e : event) : M unit := modify (with_event e).

Definition setStatusText (v : value) : M unit := modify (with_status v).

Definition setIsProcessing (b : bool) : M unit := modify (with_processing b).

(** The store's [setError]; the reset of the session it also does is not
    part of the model. *)
Definition setError (msg : string) : M unit := modify (with_error msg).

Definition kv_insert (key : string) (val : value) : M unit := modify (with_kv key val).

(** A counter read and advanced in one step. *)
Definition next_upload : M nat := fun s => (Ok (uploads s), bump_uploads s).

Definition next_fetch : M nat := fun s => (Ok (fetches s), bump_fetches s).

Definition next_uuid : M nat := fun s => (Ok (uuids s), bump_uuids s).

Definition initial (store : gmap string value) : State :=
  {| kv := store; statusText := VStr EmptyString; isProcessing := false;
     storeError := None; trace := []; uploads := O; fetches := O; uuids := O |}.

End Effects.
Export Effects.

Notation "x <-- m ;; k" := (bind m (fun x => k))
  (at level 62, m at next level, right associativity).
Notation "m ;;; k" := (bind m (fun _ => k))
  (at level 62, right associativity).

Definition nl : string := String (ascii_of_nat 10) EmptyString.

(** ** The store: provider fallback *)

Module PuterStore.
Import JSON.

Definition OLLAMA_URL : string := "http://localhost:11434/api/generate".
Definition OLLAMA_MODEL : string := "llama3.2:3b".

Definition blobToTextSafe (b : blob) : string :=
  match blob_text b with
  | Some t => t
  | None => EmptyString
  end.

(** The record built by [toAIResponseFromJSON] once its [id] is drawn. *)
Definition aiResponse (id : string) (parsed : value) : value :=
  VObj (spread_into
    [ ("id", VStr id);
      ("overallScore",
        coalesce (get "overallScore" parsed)
          (coalesce (get "overall_score" parsed) (VNum 70)));
      ("content",
        coalesce (get "content" parsed)
          (VObj [ ("score", coalesce (get "contentScore" parsed) (VNum 70));
                  ("tips", coalesce (get "contentTips" parsed) (VArr [])) ]));
      ("skills",
        coalesce (get "skills" parsed)
          (VObj [ ("score", VNum 70);
                  ("tips", coalesce (get "skillsTips" parsed) (VArr []));
                  ("missing", coalesce (get "skillsMissing" parsed) (VArr [])) ]));
      ("structure",
        coalesce (get "structure" parsed)
          (VObj [ ("score", VNum 70);
                  ("tips", coalesce (get "structureTips" parsed) (VArr [])) ]));
      ("toneAndStyle",
        coalesce (get "toneAndStyle" parsed)
          (coalesce (get "tone_and_style" parsed)
             (VObj [ ("score", VNum 70);
                     ("tips", coalesce (get "toneTips" parsed) (VArr [])) ])));
      ("tips", coalesce (get "tips" parsed) (VArr [])) ]
    (coalesce parsed (VObj []))).

Definition toAIResponseFromJSON (w : World) (parsed : value) : M value :=
  n <-- next_uuid ;;
  ret (aiResponse (randomUUID w n) parsed).

Definition tip (type text : string) : value :=
  VObj [ ("type", VStr type); ("tip", VStr text) ].

Definition block (score : Z) (type text : string) : value :=
  VObj [ ("score", VNum score); ("tips", VArr [tip type text]) ].

(** The object handed to [toAIResponseFromJSON] when the model's answer is
    not JSON. *)
Definition nonJsonFallback : value :=
  VObj [ ("overallScore", VNum 65);
         ("tips", VArr [ tip "improve"
            "AI returned non-JSON output. Try a different model or simplify the input." ]);
         ("content", block 65 "improve"
            "Add more role-specific keywords and measurable achievements.");
         ("skills", block 60 "improve"
            "List key tools/skills explicitly to improve ATS matching.");
         ("structure", block 70 "good"
            "Structure looks mostly clear; ensure consistent headings and spacing.");
         ("toneAndStyle", block 65 "improve"
            "Use stronger action verbs and quantify results.") ].

Definition tipSchema : string :=
  "Array<{ " +:+ dq +:+ "type" +:+ dq +:+ ": " +:+ dq +:+ "good" +:+ dq +:+ "|"
  +:+ dq +:+ "improve" +:+ dq +:+ ", " +:+ dq +:+ "tip" +:+ dq +:+ ": string, "
  +:+ dq +:+ "explanation" +:+ dq +:+ "?: string }>".

Definition blockSchema (name : string) : string :=
  "  " +:+ dq +:+ name +:+ dq +:+ ": { " +:+ dq +:+ "score" +:+ dq +:+ ": number, "
  +:+ dq +:+ "tips" +:+ dq +:+ ": " +:+ tipSchema +:+ " }," +:+ nl.

Definition strictPrompt (prompt : string) : string :=
  trim
    (nl +:+ "You are an ATS resume analyzer." +:+ nl +:+ nl
     +:+ "Return ONLY valid JSON. No markdown. No explanations outside JSON." +:+ nl +:+ nl
     +:+ "Required JSON schema:" +:+ nl
     +:+ "{" +:+ nl
     +:+ "  " +:+ dq +:+ "overallScore" +:+ dq +:+ ": number," +:+ nl
     +:+ blockSchema "content" +:+ blockSchema "skills"
     +:+ blockSchema "structure" +:+ blockSchema "toneAndStyle"
     +:+ "  " +:+ dq +:+ "tips" +:+ dq +:+ ": " +:+ tipSchema +:+ nl
     +:+ "}" +:+ nl +:+ nl
     +:+ "Analyze based on the following input:" +:+ nl
     +:+ prompt +:+ nl).

(** One request to the local model; [EvFetch] records the prompt of its
    body.  A [response] that is not a string has no [trim], which throws
    inside the [try] and lands in the same [catch] as a parse error. *)
Definition ollamaFeedback (w : World) (prompt : string) : M value :=
  log (EvFetch (strictPrompt prompt)) ;;;
  n <-- next_fetch ;;
  match fetch w n with
  | FetchRejected => throw NetworkError
  | Response ok status body =>
      if negb ok then
        throw (OllamaRequestFailed status
                 (match body with Some txt => txt | None => EmptyString end))
      else
        match body with
        | None => throw SyntaxError
        | Some text =>
            match JSON.parse text with
            | None => throw SyntaxError
            | Some data =>
                match coalesce (get "response" data) (VStr EmptyString) with
                | VStr raw =>
                    match JSON.parse (trim raw) with
                    | Some parsed => toAIResponseFromJSON w parsed
                    | None => toAIResponseFromJSON w nonJsonFallback
                    end
                | _ => toAIResponseFromJSON w nonJsonFallback
                end
            end
        end
  end.

(** The store's [readFile], [upload] and [setKV] answer [undefined] when the
    hosted client is missing. *)
Definition readFile (w : World) (path : value) : M (option blob) :=
  if negb (puter w) then
    setError "Puter.js not available" ;;; ret None
  else
    log (EvRead path) ;;; lift (fs_read w).

Definition combined (message : string) (path : value) (fileText : string) : string :=
  message +:+ nl +:+ nl +:+ "(Resume file path: " +:+ toString path +:+ ")" +:+ nl
  +:+ "(Resume raw text if extractable: " +:+ slice0 (Z.to_nat 6000) fileText +:+ ")".

(** The secondary branch of [feedback]: Ollama with the file's text when it
    can be read, and a second request with the bare message when anything in
    the first attempt throws. *)
Definition ollamaBranch (w : World) (path : value) (message : string) : M value :=
  try_catch
    (b <-- readFile w path ;;
     let fileText := match b with
                     | Some bl => blobToTextSafe bl
                     | None => EmptyString
                     end in
     ollamaFeedback w (combined message path fileText))
    (fun _ => ollamaFeedback w message).

(** The hosted chat first; the local model when the client is missing or
    the chat throws. *)
Definition feedback (w : World) (path : value) (message : string) : M value :=
  if negb (puter w) then ollamaBranch w path message
  else
    try_catch
      (log (EvChat path message) ;;; lift (ai_chat w))
      (fun _ => ollamaBranch w path message).

(** [kv.set]: the key-value store is taken to keep what it is given. *)
Definition setKV (w : World) (key : string) (val : value) : M value :=
  if negb (puter w) then
    setError "Puter.js not available" ;;; ret VUndefined
  else
    log (EvKvSet key val) ;;; kv_insert key val ;;; ret (VBool true).

Definition upload (w : World) : M value :=
  if negb (puter w) then
    setError "Puter.js not available" ;;; ret VUndefined
  else
    log EvUpload ;;; n <-- next_upload ;; lift (fs_upload w n).

End PuterStore.

(** ** The upload route *)

Module Upload.
Import JSON PuterStore.

Record Params : Type := {
  companyName : string;
  jobTitle : string;
  jobDescription : string;
  file : value
}.

Definition pickUploaded (uploaded : value) : value :=
  if isArray uploaded then get_index 0 uploaded
  else if truthy (get "file" uploaded) then get "file" uploaded
  else uploaded.

(** [prepareInstructions] is called with the title and the description,
    as an object or as two arguments. *)
Definition buildInstructions (w : World) (jobTitle jobDescription : string) : string :=
  prepareInstructions w jobTitle jobDescription.

(** The accesses written without [?.] are kept strict: [msg.content] and
    [msg.content[0].text] in the two [return]s. *)
Definition extractFeedbackText (feedback : value) : outcome value :=
  if negb (truthy feedback) then Ok (VStr EmptyString)
  else if is_string_type feedback then Ok feedback
  else
    let msg := get "message" feedback in
    if is_string_type (get "content" msg) then member "content" msg
    else if isArray (get "content" msg)
            && is_string_type (get "text" (get_index 0 (get "content" msg)))
    then and_then (member "content" msg)
           (fun content => and_then (element 0 content) (member "text"))
    else if is_object_type feedback then Ok (stringify_str feedback)
    else Ok (VStr EmptyString).

Definition combinedMessage (w : World) (p : Params) : string :=
  trim
    (nl +:+ "Job Title: " +:+ jobTitle p +:+ nl
     +:+ "Company: " +:+ companyName p +:+ nl +:+ nl
     +:+ "Job Description:" +:+ nl
     +:+ jobDescription p +:+ nl +:+ nl
     +:+ "Instructions:" +:+ nl
     +:+ buildInstructions w (jobTitle p) (jobDescription p) +:+ nl +:+ nl
     +:+ "Return ONLY valid JSON as instructed." +:+ nl).

Definition resumeKey (uuid : string) : string := "resume:" +:+ uuid.

(** The record saved before the analysis starts. *)
Definition placeholder (w : World) (p : Params) (pdfPath imgPath : value) : value :=
  VObj [ ("id", VStr (generateUUID w));
         ("resumePath", pdfPath);
         ("imagePath", imgPath);
         ("companyName", VStr (companyName p));
         ("jobTitle", VStr (jobTitle p));
         ("jobDescription", VStr (jobDescription p));
         ("feedback", VStr EmptyString) ].

(** Step 5 of [handleAnalyze], from the status line before the call of
    [ai.feedback] on; [data] is the record built in step 4. *)
Definition analyze (w : World) (p : Params) (uploadedPdf data : value) : M unit :=
  setStatusText (VStr "Analyzing...") ;;;
  fb <-- PuterStore.feedback w (get "path" uploadedPdf) (combinedMessage w p) ;;
  if negb (truthy fb) then
    setStatusText (VStr "Error: Failed to get feedback from AI.")
  else
    feedbackText <-- lift (extractFeedbackText fb) ;;
    if negb (truthy feedbackText) then
      setStatusText (VStr "Error: AI returned empty feedback.")
    else
      let finish (data' : value) : M unit :=
        setKV w (resumeKey (generateUUID w)) (stringify_str data') ;;;
        setStatusText (VStr "Analysis complete. Redirecting...") ;;;
        log (EvNavigate ("/resume/" +:+ generateUUID w)) in
      match JSON.parse (toString feedbackText) with
      | Some parsed => finish (set "feedback" parsed data)
      | None =>
          if is_object_type fb then finish (set "feedback" fb data)
          else setStatusText (VStr "Error: AI response was not valid JSON.")
      end.

(** An early [return] is the end of its branch; [catch] and [finally] wrap
    the whole body. *)
Definition handleAnalyze (w : World) (p : Params) : M unit :=
  finally
    (try_catch
       (setIsProcessing true ;;;
        setStatusText (VStr "Uploading the PDF...") ;;;
        uploadedPdfRaw <-- upload w ;;
        let uploadedPdf := pickUploaded uploadedPdfRaw in
        if negb (truthy (get "path" uploadedPdf)) then
          setStatusText (VStr "Error: Failed to upload PDF.")
        else
          setStatusText (VStr "Converting to image...") ;;;
          log EvConvert ;;;
          imageResult <-- lift (convertPdfToImage w) ;;
          let imageFile := coalesce (get "file" imageResult) VNull in
          if negb (truthy imageFile) then
            setStatusText
              (or_else (get "error" imageResult)
                 (VStr "Error: Failed to convert PDF to image."))
          else
            setStatusText (VStr "Uploading the image...") ;;;
            uploadedImgRaw <-- upload w ;;
            let uploadedImg := pickUploaded uploadedImgRaw in
            if negb (truthy (get "path" uploadedImg)) then
              setStatusText (VStr "Error: Failed to upload image.")
            else
              setStatusText (VStr "Preparing data...") ;;;
              let data := placeholder w p (get "path" uploadedPdf) (get "path" uploadedImg) in
              setKV w (resumeKey (generateUUID w)) (stringify_str data) ;;;
              analyze w p uploadedPdf data)
       (fun _ => setStatusText (VStr "Error: Something went wrong during analysis.")))
    (with_processing false).

End Upload.

(** * Vocabulary of the statements *)

(** ** Induction over values *)

Section ValueInd.
Variable P : value -> Prop.
Hypothesis Hundef : P VUndefined.
Hypothesis Hnull : P VNull.
Hypothesis Hbool : forall b, P (VBool b).
Hypothesis Hnum : forall n, P (VNum n).
Hypothesis Hstr : forall s, P (VStr s).
Hypothesis Harr : forall l, Forall P l -> P (VArr l).
Hypothesis Hobj : forall props, Forall (fun kv => P (snd kv)) props -> P (VObj props).

Fixpoint value_ind (v : value) : P v :=
  match v with
  | VUndefined => Hundef
  | VNull => Hnull
  | VBool b => Hbool b
  | VNum n => Hnum n
  | VStr s => Hstr s
  | VArr l =>
      Harr l ((fix go (l : list value) : Forall P l :=
                 match l with
                 | [] => @List.Forall_nil _ P
                 | x :: rest => @List.Forall_cons _ P x rest (value_ind x) (go rest)
                 end) l)
  | VObj props =>
      Hobj props
        ((fix go (ps : list (string * value)) : Forall (fun kv => P (snd kv)) ps :=
            match ps with
            | [] => @List.Forall_nil _ _
            | kv :: rest => @List.Forall_cons _ (fun kv => P (snd kv)) kv rest (value_ind (snd kv)) (go rest)
            end) props)
  end.
End ValueInd.

(** ** Text of a value *)

Module JSONText.
Import JSON.

(** The text of a value; [undefined] prints as [null] inside an array. *)
Definition text (v : value) : string :=
  match serialize v with
  | Some t => t
  | None => "null"
  end.

Fixpoint member_texts (ps : list (string * value)) : list string :=
  match ps with
  | [] => []
  | (k, x) :: rest =>
      match serialize x with
      | Some t => (quote k +:+ ":" +:+ t) :: member_texts rest
      | None => member_texts rest
      end
  end.

(** What may follow a value inside well-formed JSON text. *)
Definition is_delim (s : string) : bool :=
  match s with
  | EmptyString => true
  | String c _ => Ascii.eqb c "," || Ascii.eqb c "]" || Ascii.eqb c "}"
  end.

Definition number_start (c : ascii) : bool :=
  Ascii.eqb c "-" ||
  match digit_of_char c with Some _ => true | None => false end.

Definition value_start (s : string) : bool :=
  match s with
  | EmptyString => false
  | String c _ => negb (is_ws c) && negb (Ascii.eqb c "]")
  end.

(** Fuel that is enough to parse the text of a value. *)
Fixpoint need (v : value) : nat :=
  match v with
  | VArr l => S (list_sum (List.map (fun x => S (need x)) l))
  | VObj props => S (list_sum (List.map (fun kv => S (need (snd kv))) props))
  | _ => 1
  end.

Definition roundtrips (v : value) : Prop :=
  json_clean v = true ->
  forall fuel rest, (need v <= fuel)%nat -> is_delim rest = true ->
    parse_value fuel (text v +:+ rest) = Some (v, rest).

Definition member_text (kv : string * value) : string :=
  quote (fst kv) +:+ ":" +:+ text (snd kv).

End JSONText.

(** ** Runs, events and shapes *)

Module Runs.
Import JSON PuterStore Upload.

(** The outcome and final state of a run satisfy [post]. *)
Definition wp {A} (m : M A) (post : outcome A -> State -> Prop) (s : State) : Prop :=
  post (fst (m s)) (snd (m s)).

(** A run that only logs events accepted by [allowed] and leaves the
    key-value store alone. *)
Definition quiet {A} (allowed : event -> bool) (m : M A) : Prop :=
  forall s, exists evs,
    trace (snd (m s)) = trace s ++ evs
    /\ forallb allowed evs = true
    /\ kv (snd (m s)) = kv s.

(** Events of the analysis stage: the hosted chat, the file read and the
    request to the local model. *)
Definition is_ai_event (e : event) : bool :=
  match e with
  | EvChat _ _ | EvRead _ | EvFetch _ => true
  | _ => false
  end.

(** Events of the upload stage. *)
Definition is_setup_event (e : event) : bool :=
  match e with
  | EvUpload | EvConvert => true
  | _ => false
  end.

Definition is_kv_event (e : event) : bool :=
  match e with
  | EvKvSet _ _ => true
  | _ => false
  end.

Definition overwrite (acc : list (string * value)) (kv : string * value)
  : list (string * value) := assoc_set (fst kv) (snd kv) acc.


(** The record returned when the model's answer is not JSON. *)
Definition safeDefault (id : string) : value :=
  VObj [ ("id", VStr id);
         ("overallScore", VNum 65);
         ("content", block 65 "improve"
            "Add more role-specific keywords and measurable achievements.");
         ("skills", block 60 "improve"
            "List key tools/skills explicitly to improve ATS matching.");
         ("structure", block 70 "good"
            "Structure looks mostly clear; ensure consistent headings and spacing.");
         ("toneAndStyle", block 65 "improve"
            "Use stronger action verbs and quantify results.");
         ("tips", VArr [ tip "improve"
            "AI returned non-JSON output. Try a different model or simplify the input." ]) ].

(** The decoded body of a 2xx reply; [None] for a rejected request, a
    non-2xx status or a body that is not JSON. *)
Definition reply_data (fr : fetch_result) : option value :=
  match fr with
  | Response true _ (Some text) => JSON.parse text
  | _ => None
  end.

(** What [ollamaFeedback] hands to [toAIResponseFromJSON] for a decoded
    body. *)
Definition reply_payload (data : value) : value :=
  match coalesce (get "response" data) (VStr EmptyString) with
  | VStr raw =>
      match JSON.parse (trim raw) with
      | Some parsed => parsed
      | None => nonJsonFallback
      end
  | _ => nonJsonFallback
  end.

Definition key_of (w : World) : string := resumeKey (generateUUID w).

Definition saved (w : World) (data : value) : event :=
  EvKvSet (key_of w) (stringify_str data).

Definition redirect (w : World) : event :=
  EvNavigate ("/resume/" +:+ generateUUID w).

(** What the analysis stage adds to the trace and the store, from the state
    it starts in. *)
Inductive analysis_shape (w : World) (data : value)
    (t0 : list event) (k0 : gmap string value)
  : list event -> gmap string value -> Prop :=
| AnalysisFailed ai :
    forallb is_ai_event ai = true ->
    analysis_shape w data t0 k0 (t0 ++ ai) k0
| AnalysisSaved ai fb :
    forallb is_ai_event ai = true ->
    analysis_shape w data t0 k0
      (t0 ++ ai ++ [saved w (set "feedback" fb data); redirect w])
      (<[key_of w := stringify_str (set "feedback" fb data)]> k0).

(** What one run of [handleAnalyze] adds to the trace and the store. *)
Inductive flow_shape (w : World) (p : Params)
    (t0 : list event) (k0 : gmap string value)
  : list event -> gmap string value -> Prop :=
| FlowStopped pre :
    forallb is_setup_event pre = true ->
    flow_shape w p t0 k0 (t0 ++ pre) k0
| FlowPlaceholder pre pdf img ai :
    forallb is_setup_event pre = true ->
    truthy pdf = true -> truthy img = true ->
    forallb is_ai_event ai = true ->
    flow_shape w p t0 k0
      (t0 ++ pre ++ saved w (placeholder w p pdf img) :: ai)
      (<[key_of w := stringify_str (placeholder w p pdf img)]> k0)
| FlowFinal pre pdf img ai fb :
    forallb is_setup_event pre = true ->
    truthy pdf = true -> truthy img = true ->
    forallb is_ai_event ai = true ->
    flow_shape w p t0 k0
      (t0 ++ pre ++ saved w (placeholder w p pdf img) :: ai
          ++ [saved w (set "feedback" fb (placeholder w p pdf img)); redirect w])
      (<[key_of w := stringify_str (set "feedback" fb (placeholder w p pdf img))]>
         (<[key_of w := stringify_str (placeholder w p pdf img)]> k0)).

(** The upload stage went through: both uploads gave a path and the
    conversion gave a file. *)
Definition uploaded (w : World) (st : State) (pdf img : value) : Prop :=
  puter w = true
  /\ (exists raw, fs_upload w (uploads st) = Ok raw
                  /\ get "path" (pickUploaded raw) = pdf)
  /\ truthy pdf = true
  /\ (exists image, convertPdfToImage w = Ok image
                    /\ truthy (coalesce (get "file" image) VNull) = true)
  /\ (exists raw, fs_upload w (S (uploads st)) = Ok raw
                  /\ get "path" (pickUploaded raw) = img)
  /\ truthy img = true.

End Runs.

(** ** Scenarios *)

Module Scenarios.
Import JSON PuterStore Upload Runs.



Definition recordFields : list string :=
  ["id"; "resumePath"; "imagePath"; "companyName"; "jobTitle"; "jobDescription"].

Definition doublyNested : value :=
  VObj [("feedback", VObj [("feedback", VObj [("overallScore", VNum 82)])])].

Definition singlyNested : value :=
  VObj [("feedback", VObj [("overall_score", VNum 82);
                           ("tone_and_style", VObj [("score", VNum 70)])])].

Definition wrappedWithVariant : value :=
  VObj [("tone_and_style", VObj [("score", VNum 70)]);
        ("feedback", VObj [("overallScore", VNum 82)])].

Definition snakeCased : value :=
  VObj [("overallScore", VNum 82); ("overall_score", VNum 10);
        ("tone_and_style", VObj [("score", VNum 70)])].

Definition storedRecord : Types.ResumeData :=
  Types.Build_ResumeData "u1" "/r.pdf" "/r.png" "ACME" "Dev" "Code"
    (VObj [("overall_score", VNum 82);
           ("content", VObj [("score", VNum 80); ("tips", VArr [])])]).


Definition body_of (response : string) : option string :=
  JSON.stringify (VObj [("response", VStr response)]).

Definition localOnly (response : string) : World :=
  {| puter := false;
     fs_upload := fun _ => Throw (ExternalError "no client");
     fs_read := Throw (ExternalError "no client");
     convertPdfToImage := Throw (ExternalError "no client");
     generateUUID := "u1";
     prepareInstructions := fun _ _ => "instructions";
     ai_chat := Throw (ExternalError "no client");
     fetch := fun _ => Response true 200 (body_of response);
     randomUUID := fun _ => "r1" |}.


Definition scoreOnlyText : string := "{" +:+ dq +:+ "overallScore" +:+ dq +:+ ":77}".


Definition submission : Params :=
  {| Upload.companyName := "ACME"; Upload.jobTitle := "Dev";
     Upload.jobDescription := "Code"; file := VObj [("name", VStr "r.pdf")] |}.

(** The hosted chat answers with a message whose content is [text]. *)
Definition hostedReply (text : string) : World :=
  {| puter := true;
     fs_upload := fun n => Ok (VObj [("path", VStr (if Nat.eqb n 0 then "/r.pdf" else "/r.png"))]);
     fs_read := Ok (Some (Blob (Some "resume text")));
     convertPdfToImage := Ok (VObj [("file", VObj [("name", VStr "r.png")])]);
     generateUUID := "u1";
     prepareInstructions := fun _ _ => "instructions";
     ai_chat := Ok (VObj [("message", VObj [("content", VStr text)])]);
     fetch := fun _ => FetchRejected;
     randomUUID := fun _ => "r1" |}.

(** The hosted chat throws and the [n]-th request to the local model gets
    [reply n]. *)
Definition localReply (reply : nat -> fetch_result) : World :=
  {| puter := true;
     fs_upload := fun n => Ok (VObj [("path", VStr (if Nat.eqb n 0 then "/r.pdf" else "/r.png"))]);
     fs_read := Ok (Some (Blob (Some "resume text")));
     convertPdfToImage := Ok (VObj [("file", VObj [("name", VStr "r.png")])]);
     generateUUID := "u1";
     prepareInstructions := fun _ _ => "instructions";
     ai_chat := Throw (ExternalError "no credits");
     fetch := reply;
     randomUUID := fun _ => "r1" |}.

Definition scoredText : string :=
  "{" +:+ dq +:+ "overallScore" +:+ dq +:+ ":82," +:+ dq +:+ "content" +:+ dq
  +:+ ":{" +:+ dq +:+ "score" +:+ dq +:+ ":80," +:+ dq +:+ "tips" +:+ dq +:+ ":[]}}".

(** The record a viewer reads back after a run from an empty store. *)
Definition persisted (w : World) : option value :=
  match kv (snd (handleAnalyze w submission (initial ∅))) !! key_of w with
  | Some v => JSON.parse (toString v)
  | None => None
  end.

Definition persistedFeedback (w : World) : option value :=
  match persisted w with
  | Some record => Some (get "feedback" record)
  | None => None
  end.

End Scenarios.

(** * The rest of the code: vocabulary *)

(** ** How a run of the upload flow ends *)

Module Endings.
Import JSON PuterStore Upload Runs.

(** The error lines [handleAnalyze] can leave in the status text. *)
Definition fixedErrors : list string :=
  [ "Error: Failed to upload PDF.";
    "Error: Failed to convert PDF to image.";
    "Error: Failed to upload image.";
    "Error: Failed to get feedback from AI.";
    "Error: AI returned empty feedback.";
    "Error: AI response was not valid JSON.";
    "Error: Something went wrong during analysis." ].

Definition is_upload (e : event) : bool :=
  match e with EvUpload => true | _ => false end.

Definition is_convert (e : event) : bool :=
  match e with EvConvert => true | _ => false end.

Definition is_chat (e : event) : bool :=
  match e with EvChat _ _ => true | _ => false end.

Definition is_read (e : event) : bool :=
  match e with EvRead _ => true | _ => false end.

Definition is_fetch (e : event) : bool :=
  match e with EvFetch _ => true | _ => false end.

Definition is_navigate (e : event) : bool :=
  match e with EvNavigate _ => true | _ => false end.

(** How many events of one kind a run added. *)
Definition count (kind : event -> bool) (evs : list event) : nat :=
  List.length (List.filter kind evs).

(** The calls one run may make at most. *)
Definition within_budget (evs : list event) : Prop :=
  (count is_upload evs <= 2)%nat
  /\ (count is_convert evs <= 1)%nat
  /\ (count is_kv_event evs <= 2)%nat
  /\ (count is_chat evs <= 1)%nat
  /\ (count is_read evs <= 1)%nat
  /\ (count is_fetch evs <= 2)%nat
  /\ (count is_navigate evs <= 1)%nat.

(** The calls one call of [feedback] may make at most. *)
Definition within_feedback_budget (evs : list event) : Prop :=
  forallb is_ai_event evs = true
  /\ (count is_chat evs <= 1)%nat
  /\ (count is_read evs <= 1)%nat
  /\ (count is_fetch evs <= 2)%nat.

(** The status line and the events of a finished run: the success line
    with the redirect as the last event, or no redirect and an error line,
    which is one of the fixed ones or the converter's own. *)
Definition ending (w : World) (evs : list event) (status : value) : Prop :=
  (status = VStr "Analysis complete. Redirecting..."
   /\ exists before, evs = before ++ [redirect w] /\ count is_navigate before = O)
  \/ (count is_navigate evs = O
      /\ ((exists m, In m fixedErrors /\ status = VStr m)
          \/ (exists image, convertPdfToImage w = Ok image
                            /\ truthy (get "error" image) = true
                            /\ status = get "error" image))).

(** How the analysis stage ends after the calls [ai] of [feedback], from
    the trace [t0]: nothing more and an error (thrown, or left in the status
    text), or the final write and the redirect. *)
Definition analysis_ending (w : World) (data : value) (t0 ai : list event)
    (r : outcome unit) (s' : State) : Prop :=
  (trace s' = t0 ++ ai
   /\ ((exists e, r = Throw e)
       \/ (r = Ok tt /\ exists m, In m fixedErrors /\ statusText s' = VStr m)))
  \/ (exists fb,
        trace s' = t0 ++ ai ++ [saved w (set "feedback" fb data); redirect w]
        /\ r = Ok tt
        /\ statusText s' = VStr "Analysis complete. Redirecting...").

(** What a finished run of [handleAnalyze] has done, from the state [st] it
    started in. *)
Definition run_summary (w : World) (st : State) (r : outcome unit) (s' : State) : Prop :=
  r = Ok tt
  /\ isProcessing s' = false
  /\ exists evs,
       trace s' = trace st ++ evs
       /\ within_budget evs
       /\ ending w evs (statusText s')
       /\ (uploads s' <= uploads st + 2)%nat
       /\ (fetches s' <= fetches st + 2)%nat
       /\ (uuids s' <= uuids st + 1)%nat.

(** The record [toAIResponseFromJSON] builds from a reply that carries
    nothing: every score at 70 and no tips. *)
Definition allDefaults (id : string) : value :=
  VObj [ ("id", VStr id);
         ("overallScore", VNum 70);
         ("content", VObj [("score", VNum 70); ("tips", VArr [])]);
         ("skills", VObj [("score", VNum 70); ("tips", VArr []); ("missing", VArr [])]);
         ("structure", VObj [("score", VNum 70); ("tips", VArr [])]);
         ("toneAndStyle", VObj [("score", VNum 70); ("tips", VArr [])]);
         ("tips", VArr []) ].

(** JSON values that are no containers and no strings. *)
Definition is_scalar (v : value) : bool :=
  match v with
  | VNull | VBool _ | VNum _ => true
  | _ => false
  end.

(** The names of the properties the record literal of
    [toAIResponseFromJSON] always carries. *)
Definition standardKeys : list string :=
  ["id"; "overallScore"; "content"; "skills"; "structure"; "toneAndStyle"; "tips"].

End Endings.

(** ** What the two normalisers return *)

Module Results.

(** A string, a number or a boolean. *)
Definition is_plain (v : value) : bool :=
  match v with
  | VStr _ | VNum _ | VBool _ => true
  | _ => false
  end.

End Results.


(** ** The store's session (lib/puter: [setError], [checkAuthStatus],
    [signIn], [signOut], [refreshUser], [init], [clearError]) *)

Module Session.

(** What a rejected promise carries: an [Error] with its message, or any
    other value. *)
Inductive thrown : Type :=
| ErrorOf (message : string)
| NotAnError (v : value).

(** [err instanceof Error ? err.message : fallback] *)
Definition message_or (fallback : string) (t : thrown) : string :=
  match t with
  | ErrorOf m => m
  | NotAnError _ => fallback
  end.

Inductive promised (A : Type) : Type :=
| Resolved (a : A)
| Rejected (t : thrown).
Arguments Resolved {A} a.
Arguments Rejected {A} t.

(** [window.puter.auth], as it answers during one call of the store. *)
Record Client : Type := {
  auth_isSignedIn : promised value;
  auth_getUser : promised value;
  auth_signIn : promised unit;
  auth_signOut : promised unit
}.

(** The [getUser] closure kept in the store: the initial one reads the
    store's [user] when called, the later ones return the user they were
    made with. *)
Inductive getter : Type :=
| ReadsStore
| Returns (u : value).

(** The store's state.  [error] is [None] for [null]; [user] is [VNull] for
    [null].  The other members of [auth] are the store's own functions and
    are copied unchanged by every update. *)
Record Store : Type := {
  isLoading : bool;
  error : option string;
  puterReady : bool;
  user : value;
  isAuthenticated : bool;
  getUser : getter
}.

(** The state the store is created with. *)
Definition created : Store :=
  {| isLoading := true; error := None; puterReady := false;
     user := VNull; isAuthenticated := false; getUser := ReadsStore |}.

(** [auth.getUser()] *)
Definition call_getUser (s : Store) : value :=
  match getUser s with
  | ReadsStore => user s
  | Returns u => u
  end.

(** [set({ error: msg, isLoading: false, auth: { user: null,
    isAuthenticated: false, ..., getUser: get().auth.getUser } })] *)
Definition setError (msg : string) (s : Store) : Store :=
  {| isLoading := false; error := Some msg; puterReady := puterReady s;
     user := VNull; isAuthenticated := false; getUser := getUser s |}.

(** [set({ isLoading: true, error: null })] *)
Definition begin (s : Store) : Store :=
  {| isLoading := true; error := None; puterReady := puterReady s;
     user := user s; isAuthenticated := isAuthenticated s; getUser := getUser s |}.

(** [set({ auth: { user, isAuthenticated: true, ..., getUser: () => user },
    isLoading: false })] *)
Definition signedIn (u : value) (s : Store) : Store :=
  {| isLoading := false; error := error s; puterReady := puterReady s;
     user := u; isAuthenticated := true; getUser := Returns u |}.

(** [set({ auth: { user: null, isAuthenticated: false, ...,
    getUser: () => null }, isLoading: false })] *)
Definition signedOut (s : Store) : Store :=
  {| isLoading := false; error := error s; puterReady := puterReady s;
     user := VNull; isAuthenticated := false; getUser := Returns VNull |}.

Definition unavailable : string := "Puter.js not available".

(** [checkAuthStatus]: the answer and the store it leaves.  [puter] is what
    [getPuter()] gives. *)
Definition checkAuthStatus (puter : option Client) (s : Store) : bool * Store :=
  match puter with
  | None => (false, setError unavailable s)
  | Some c =>
      let s1 := begin s in
      match auth_isSignedIn c with
      | Rejected t => (false, setError (message_or "Failed to check auth status" t) s1)
      | Resolved isSignedIn =>
          if truthy isSignedIn then
            match auth_getUser c with
            | Rejected t =>
                (false, setError (message_or "Failed to check auth status" t) s1)
            | Resolved u => (true, signedIn u s1)
            end
          else (false, signedOut s1)
      end
  end.

Definition signIn (puter : option Client) (s : Store) : Store :=
  match puter with
  | None => setError unavailable s
  | Some c =>
      let s1 := begin s in
      match auth_signIn c with
      | Rejected t => setError (message_or "Sign in failed" t) s1
      | Resolved _ => snd (checkAuthStatus puter s1)
      end
  end.

Definition signOut (puter : option Client) (s : Store) : Store :=
  match puter with
  | None => setError unavailable s
  | Some c =>
      let s1 := begin s in
      match auth_signOut c with
      | Rejected t => setError (message_or "Sign out failed" t) s1
      | Resolved _ => signedOut s1
      end
  end.

Definition refreshUser (puter : option Client) (s : Store) : Store :=
  match puter with
  | None => setError unavailable s
  | Some c =>
      let s1 := begin s in
      match auth_getUser c with
      | Rejected t => setError (message_or "Failed to refresh user" t) s1
      | Resolved u => signedIn u s1
      end
  end.

(** [clearError: () => set({ error: null })] *)
Definition clearError (s : Store) : Store :=
  {| isLoading := isLoading s; error := None; puterReady := puterReady s;
     user := user s; isAuthenticated := isAuthenticated s; getUser := getUser s |}.

(** [set({ puterReady: true })] *)
Definition ready (s : Store) : Store :=
  {| isLoading := isLoading s; error := error s; puterReady := true;
     user := user s; isAuthenticated := isAuthenticated s; getUser := getUser s |}.

(** The guard every file, chat and key-value function of the store starts
    with: without the client the call records the error and answers
    [undefined] ([None]); with it the store is left alone and the client's
    own answer is passed on. *)
Definition guarded {A} (puter : option Client) (call : Client -> A) (s : Store)
  : option A * Store :=
  match puter with
  | None => (None, setError unavailable s)
  | Some c => (Some (call c), s)
  end.

(** *** [init] and its timers *)

(** The callbacks [init] registers, as the host runs them: a tick of the
    100 ms interval or the 10 s timeout, each with what [getPuter()] gives at
    that moment. *)
Inductive firing : Type :=
| Tick (puter : option Client)
| Timeout (puter : option Client).

(** The store and whether the interval is still registered. *)
Record Waiting : Type := {
  store : Store;
  polling : bool
}.

(** One callback.  A tick of a cleared interval does not run. *)
Definition fire (f : firing) (ws : Waiting) : Waiting :=
  match f with
  | Tick puter =>
      if polling ws then
        match puter with
        | Some _ =>
            {| store := snd (checkAuthStatus puter (ready (store ws)));
               polling := false |}
        | None => ws
        end
      else ws
  | Timeout puter =>
      match puter with
      | Some _ => {| store := store ws; polling := false |}
      | None =>
          {| store := setError "Puter.js failed to load within 10 seconds" (store ws);
             polling := false |}
      end
  end.

(** [init()] with what [getPuter()] gives at the call, followed by the
    callbacks in the order the host runs them. *)
Definition init (puter : option Client) (schedule : list firing) (s : Store) : Store :=
  match puter with
  | Some _ => snd (checkAuthStatus puter (ready s))
  | None =>
      store (fold_left (fun ws f => fire f ws) schedule
               {| store := s; polling := true |})
  end.

(** The calls a page can make on the session. *)
Inductive call : Type :=
| CheckAuthStatus (puter : option Client)
| SignIn (puter : option Client)
| SignOut (puter : option Client)
| RefreshUser (puter : option Client)
| ClearError
| Init (puter : option Client) (schedule : list firing)
| Guarded (puter : option Client).

Definition run (c : call) (s : Store) : Store :=
  match c with
  | CheckAuthStatus puter => snd (checkAuthStatus puter s)
  | SignIn puter => signIn puter s
  | SignOut puter => signOut puter s
  | RefreshUser puter => refreshUser puter s
  | ClearError => clearError s
  | Init puter schedule => init puter schedule s
  | Guarded puter => snd (guarded puter (fun _ => tt) s)
  end.


(** What holds of the store at all times: a signed-out store has no user,
    and a signed-in store has no error and a [getUser] that returns its
    user. *)
Definition consistent (s : Store) : Prop :=
  (isAuthenticated s = false -> user s = VNull)
  /\ (isAuthenticated s = true -> error s = None)
  /\ (isAuthenticated s = true -> call_getUser s = user s).

(** A client whose calls all fail with an [Error]. *)
Definition failingClient (message : string) : Client :=
  {| auth_isSignedIn := Rejected (ErrorOf message);
     auth_getUser := Rejected (ErrorOf message);
     auth_signIn := Rejected (ErrorOf message);
     auth_signOut := Rejected (ErrorOf message) |}.

(** A client with [u] signed in. *)
Definition clientOf (u : value) : Client :=
  {| auth_isSignedIn := Resolved (VBool true);
     auth_getUser := Resolved u;
     auth_signIn := Resolved tt;
     auth_signOut := Resolved tt |}.

Definition ann : value := VObj [("username", VStr "ann")].

(** Every firing but a timeout that finds no client. *)
Definition finds_client_or_ticks (f : firing) : bool :=
  match f with
  | Timeout None => false
  | _ => true
  end.

Definition is_tick (f : firing) : bool :=
  match f with
  | Tick _ => true
  | Timeout _ => false
  end.

(** The four session calls that wait for the client. *)
Definition is_session_call (c : call) : bool :=
  match c with
  | CheckAuthStatus _ | SignIn _ | SignOut _ | RefreshUser _ => true
  | _ => false
  end.

End Session.


(** ** The store's reads (lib/puter: [getKV]) *)

Module StoreReads.

(** [kv.get]: the key-value store is taken to give back what it was given,
    and [null] for a key it does not hold.  Reads leave no event. *)
Definition getKV (w : World) (key : string) : M value :=
  if negb (puter w) then
    setError "Puter.js not available" ;;; ret VUndefined
  else
    fun s => (Ok (match kv s !! key with Some v => v | None => VNull end), s).

(** The world in which the file store answers [a] to the next read. *)
Definition answering (w : World) (a : outcome (option blob)) : World :=
  {| puter := puter w; fs_upload := fs_upload w; fs_read := a;
     convertPdfToImage := convertPdfToImage w; generateUUID := generateUUID w;
     prepareInstructions := prepareInstructions w; ai_chat := ai_chat w;
     fetch := fetch w; randomUUID := randomUUID w |}.

End StoreReads.

(** ** Pages: a component's state next to the store's *)

Module Page.

Section WithView.
Context {V : Type}.

(** A computation over the store's state and a page's state [V] that may
    throw; [None] only when a normaliser runs out of fuel. *)
Definition P (A : Type) : Type := State * V -> option (outcome A * (State * V)).

Definition ret {A} (a : A) : P A := fun s => Some (Ok a, s).

Definition throw {A} (e : exn) : P A := fun s => Some (Throw e, s).

Definition bind {A B} (m : P A) (k : A -> P B) : P B :=
  fun s => match m s with
           | Some (Ok a, s') => k a s'
           | Some (Throw e, s') => Some (Throw e, s')
           | None => None
           end.

Definition try_catch {A} (m : P A) (handler : exn -> P A) : P A :=
  fun s => match m s with
           | Some (Ok a, s') => Some (Ok a, s')
           | Some (Throw e, s') => handler e s'
           | None => None
           end.

Definition finally {A} (m : P A) (cleanup : V -> V) : P A :=
  fun s => match m s with
           | Some (r, (st, v)) => Some (r, (st, cleanup v))
           | None => None
           end.

Definition lift {A} (o : outcome A) : P A := fun s => Some (o, s).

(** The result of a normaliser. *)
Definition fueled {A} (o : option A) : P A :=
  fun s => match o with
           | Some a => Some (Ok a, s)
           | None => None
           end.

(** A state update of the page. *)
Definition update (f : V -> V) : P unit :=
  fun s => Some (Ok tt, (fst s, f (snd s))).

(** A read of the page's state. *)
Definition inspect {A} (f : V -> A) : P A :=
  fun s => Some (Ok (f (snd s)), s).

(** A call of the store. *)
Definition store_call {A} (m : M A) : P A :=
  fun s => let '(r, st) := m (fst s) in Some (r, (st, snd s)).

(** [JSON.parse(text)] where a [SyntaxError] may be caught. *)
Definition parse_json (text : string) : P value :=
  match JSON.parse text with
  | Some v => ret v
  | None => throw SyntaxError
  end.

(** The run of [m] from [s] ends, and its outcome and final state satisfy
    [post]. *)
Definition ends {A} (m : P A) (post : outcome A -> State * V -> Prop) (s : State * V)
  : Prop :=
  match m s with
  | Some (r, s') => post r s'
  | None => False
  end.

End WithView.

(** [o.k = x] in a module, which is strict code: assigning to a property of
    a primitive throws, as it does on [null] and [undefined]. *)
Definition assignable (o : value) : outcome unit :=
  match o with
  | VObj _ | VArr _ => Ok tt
  | _ => Throw TypeError
  end.

End Page.

Notation "x <~ m ;; k" := (Page.bind m (fun x => k))
  (at level 62, m at next level, right associativity).
Notation "m ;;> k" := (Page.bind m (fun _ => k))
  (at level 62, right associativity).

(** ** The first resume page (routes/resume, first listing) *)

Module ResumePageA.
Import Page StoreReads.

(** The record given to [setData]: what [JSON.parse] gave, and the value
    assigned to its [feedback] property.  For an object this is the object
    with [feedback] replaced; an array keeps its elements and gets the named
    property. *)
Record Loaded : Type := {
  record : value;
  feedback : value
}.

(** The component's state. *)
Record View : Type := {
  loading : bool;
  data : option Loaded;
  error : string
}.

(** The state the component is mounted with. *)
Definition mounted : View :=
  {| loading := true; data := None; error := EmptyString |}.

Definition setLoading (b : bool) : P unit :=
  update (fun v => {| loading := b; data := data v; error := error v |}).

Definition setData (d : Loaded) : P unit :=
  update (fun v => {| loading := loading v; data := Some d; error := error v |}).

Definition setError (msg : string) : P unit :=
  update (fun v => {| loading := loading v; data := data v; error := msg |}).

(** The effect's [load] for the route parameter [id] (a string, or
    [undefined]). *)
Definition load (w : World) (id : value) : P unit :=
  setLoading true ;;>
  setError EmptyString ;;>
  finally
    (try_catch
       (if negb (truthy id) then setError "Missing resume id."
        else
          raw <~ store_call (getKV w ("resume:" +:+ toString id)) ;;
          if negb (truthy raw) then
            setError "No saved resume data found for this id."
          else
            parsed <~ parse_json (toString raw) ;;
            fb0 <~ lift (member "feedback" parsed) ;;
            fb1 <~ fueled (ViewerA.normalizeFeedback fb0) ;;
            lift (assignable parsed) ;;>
            fb2 <~ (if is_object_type fb1 && truthy (get "feedback" fb1)
                    then fueled (ViewerA.normalizeFeedback (get "feedback" fb1))
                    else ret fb1) ;;
            setData {| record := parsed; feedback := fb2 |})
       (fun _ => setError "Failed to load resume feedback."))
    (fun v => {| loading := false; data := data v; error := error v |}).

(** [data && typeof data.feedback === "object" ? data.feedback : null] *)
Definition feedbackObj (v : View) : value :=
  match data v with
  | Some d => if is_object_type (feedback d) then feedback d else VNull
  | None => VNull
  end.

(** The three errors [load] reports. *)
Definition loadErrors : list string :=
  [ "Missing resume id.";
    "No saved resume data found for this id.";
    "Failed to load resume feedback." ].

(** [inner] sits [n] levels down in [outer], each level an object that
    holds the next one under [feedback]. *)
Fixpoint nests (n : nat) (outer inner : value) : Prop :=
  match n with
  | O => outer = inner
  | S n' =>
      truthy outer = true /\ is_object_type outer = true
      /\ nests n' (get "feedback" outer) inner
  end.


(** [n] objects around [v], each holding the next under [feedback]. *)
Fixpoint wrapped (n : nat) (v : value) : value :=
  match n with
  | O => v
  | S n' => VObj [("feedback", wrapped n' v)]
  end.

End ResumePageA.

(** ** The second resume page (routes/resume, second listing) *)

Module ResumePageB.
Import Page StoreReads Normalizer.

(** The component's state, and next to it what the running load has done:
    how many of its [await]s have completed and which object URLs it
    created. *)
Record View : Type := {
  resumeData : value;
  feedback : value;
  resumeUrl : string;
  imageUrl : string;
  pageLoading : bool;
  error : string;
  awaited : nat;
  created : list string
}.

Definition mounted : View :=
  {| resumeData := VNull; feedback := VNull; resumeUrl := EmptyString;
     imageUrl := EmptyString; pageLoading := true; error := EmptyString;
     awaited := O; created := [] |}.

(** What the page's surroundings do during one load: the answers of the
    file store to its reads, the object URLs handed out, and the [await]
    (counted from 0) during which the effect's cleanup runs, if it runs
    before the load is over. *)
Record Host : Type := {
  read : nat -> outcome (option blob);
  createObjectURL : nat -> string;
  cancel_at : option nat
}.

(** The load's own [cancelled] flag, as it reads now. *)
Definition cancelled (h : Host) (v : View) : bool :=
  match cancel_at h with
  | Some k => (k <? awaited v)%nat
  | None => false
  end.

Definition setResumeData (d : value) (v : View) : View :=
  {| resumeData := d; feedback := feedback v; resumeUrl := resumeUrl v;
     imageUrl := imageUrl v; pageLoading := pageLoading v; error := error v;
     awaited := awaited v; created := created v |}.

Definition setFeedback (f : value) (v : View) : View :=
  {| resumeData := resumeData v; feedback := f; resumeUrl := resumeUrl v;
     imageUrl := imageUrl v; pageLoading := pageLoading v; error := error v;
     awaited := awaited v; created := created v |}.

Definition setResumeUrl (u : string) (v : View) : View :=
  {| resumeData := resumeData v; feedback := feedback v; resumeUrl := u;
     imageUrl := imageUrl v; pageLoading := pageLoading v; error := error v;
     awaited := awaited v; created := created v |}.

Definition setImageUrl (u : string) (v : View) : View :=
  {| resumeData := resumeData v; feedback := feedback v; resumeUrl := resumeUrl v;
     imageUrl := u; pageLoading := pageLoading v; error := error v;
     awaited := awaited v; created := created v |}.

Definition setPageLoading (b : bool) (v : View) : View :=
  {| resumeData := resumeData v; feedback := feedback v; resumeUrl := resumeUrl v;
     imageUrl := imageUrl v; pageLoading := b; error := error v;
     awaited := awaited v; created := created v |}.

Definition setError (msg : string) (v : View) : View :=
  {| resumeData := resumeData v; feedback := feedback v; resumeUrl := resumeUrl v;
     imageUrl := imageUrl v; pageLoading := pageLoading v; error := msg;
     awaited := awaited v; created := created v |}.

(** A new load starts with no [await] behind it. *)
Definition started (v : View) : View :=
  {| resumeData := resumeData v; feedback := feedback v; resumeUrl := resumeUrl v;
     imageUrl := imageUrl v; pageLoading := pageLoading v; error := error v;
     awaited := O; created := created v |}.

Definition resumed (v : View) : View :=
  {| resumeData := resumeData v; feedback := feedback v; resumeUrl := resumeUrl v;
     imageUrl := imageUrl v; pageLoading := pageLoading v; error := error v;
     awaited := S (awaited v); created := created v |}.

Definition remembered (u : string) (v : View) : View :=
  {| resumeData := resumeData v; feedback := feedback v; resumeUrl := resumeUrl v;
     imageUrl := imageUrl v; pageLoading := pageLoading v; error := error v;
     awaited := awaited v; created := created v ++ [u] |}.

(** [await m]: the call, and the load going on after it, whether the call
    resolved or rejected. *)
Definition await {A} (m : P A) : P A :=
  fun s => match m s with
           | Some (r, (st, v)) => Some (r, (st, resumed v))
           | None => None
           end.

(** [URL.createObjectURL(blob)] *)
Definition newObjectURL (h : Host) : P string :=
  u <~ inspect (fun v => createObjectURL h (List.length (created v))) ;;
  update (remembered u) ;;>
  ret u.

(** The object handed to [normalizeFeedback], after the call: the source
    assigns the reconciled keys into the object it works on, which is the
    argument or the object under its [feedback]. *)
Definition reconciled_in_place (input : value) : value :=
  if truthy input && is_object_type input then
    if truthy (get "feedback" input) && is_object_type (get "feedback" input)
    then set "feedback" (fix_score (fix_tone (get "feedback" input))) input
    else fix_score (fix_tone input)
  else input.

(** [data] after [normalizeFeedback(data.feedback)]. *)
Definition after_normalize (data : value) : value :=
  if has_key "feedback" data
  then set "feedback" (reconciled_in_place (get "feedback" data)) data
  else data.

(** The effect's [loadResume] for the route parameter [id]. *)
Definition loadResume (w : World) (h : Host) (id : value) : P unit :=
  update started ;;>
  update (setPageLoading true) ;;>
  update (setError EmptyString) ;;>
  finally
    (try_catch
       (if negb (truthy id) then update (setError "Missing resume id.")
        else
          raw <~ await (store_call (getKV w ("resume:" +:+ toString id))) ;;
          if negb (truthy raw) then
            update (setError "No saved resume data found for this id.")
          else
            data <~ parse_json (toString raw) ;;
            resumePath <~ lift (member "resumePath" data) ;;
            pdfBlobRaw <~ await (store_call
                                   (PuterStore.readFile (answering w (read h 0)) resumePath)) ;;
            match pdfBlobRaw with
            | None => update (setError "Failed to load resume PDF.")
            | Some _ =>
                pdfUrl <~ newObjectURL h ;;
                imagePath <~ lift (member "imagePath" data) ;;
                imgBlobRaw <~ await (store_call
                                       (PuterStore.readFile (answering w (read h 1)) imagePath)) ;;
                match imgBlobRaw with
                | None => update (setError "Failed to load resume image.")
                | Some _ =>
                    imgUrl <~ newObjectURL h ;;
                    fb0 <~ lift (member "feedback" data) ;;
                    fb <~ fueled (ViewerB.normalizeFeedback fb0) ;;
                    c <~ inspect (cancelled h) ;;
                    if c then ret tt
                    else
                      update (setResumeData (after_normalize data)) ;;>
                      update (setResumeUrl pdfUrl) ;;>
                      update (setImageUrl imgUrl) ;;>
                      update (setFeedback fb)
                end
            end)
       (fun _ =>
          c <~ inspect (cancelled h) ;;
          if c then ret tt
          else update (setError "Failed to load resume feedback.")))
    (fun v => if cancelled h v then v else setPageLoading false v).

(** The page's state after the first lines of [loadResume]. *)
Definition preamble (v : View) : View :=
  setError EmptyString (setPageLoading true (started v)).

(** The [finally] block and the [catch] block, which both look at the
    [cancelled] flag. *)
Definition finish (h : Host) (v : View) : View :=
  if cancelled h v then v else setPageLoading false v.

Definition caught (h : Host) (v : View) : View :=
  if cancelled h v then v else setError "Failed to load resume feedback." v.

(** The ways through [loadResume], with the page's state each one ends
    in.  [raw] is what the store gave for the key, [data] what it parsed
    to. *)
Inductive load_path (w : World) (h : Host) (id : value) (st : State) (v : View)
  : View -> Prop :=
| PathNoId :
    truthy id = false ->
    load_path w h id st v (finish h (setError "Missing resume id." (preamble v)))
| PathNoRecord raw :
    truthy id = true ->
    fst (getKV w ("resume:" +:+ toString id) st) = Ok raw ->
    truthy raw = false ->
    load_path w h id st v
      (finish h (setError "No saved resume data found for this id."
                   (resumed (preamble v))))
| PathBadRecord raw :
    truthy id = true ->
    fst (getKV w ("resume:" +:+ toString id) st) = Ok raw ->
    truthy raw = true ->
    match JSON.parse (toString raw) with
    | Some data => nullish data = true
    | None => True
    end ->
    load_path w h id st v (finish h (caught h (resumed (preamble v))))
| PathPdfRejected raw data e :
    truthy id = true ->
    fst (getKV w ("resume:" +:+ toString id) st) = Ok raw ->
    truthy raw = true ->
    JSON.parse (toString raw) = Some data -> nullish data = false ->
    read h 0 = Throw e ->
    load_path w h id st v (finish h (caught h (resumed (resumed (preamble v)))))
| PathNoPdf raw data :
    truthy id = true ->
    fst (getKV w ("resume:" +:+ toString id) st) = Ok raw ->
    truthy raw = true ->
    JSON.parse (toString raw) = Some data -> nullish data = false ->
    read h 0 = Ok None ->
    load_path w h id st v
      (finish h (setError "Failed to load resume PDF." (resumed (resumed (preamble v)))))
| PathImageRejected raw data pdf e :
    truthy id = true ->
    fst (getKV w ("resume:" +:+ toString id) st) = Ok raw ->
    truthy raw = true ->
    JSON.parse (toString raw) = Some data -> nullish data = false ->
    read h 0 = Ok (Some pdf) -> read h 1 = Throw e ->
    load_path w h id st v
      (finish h (caught h
         (resumed (remembered (createObjectURL h (List.length (created v)))
                     (resumed (resumed (preamble v)))))))
| PathNoImage raw data pdf :
    truthy id = true ->
    fst (getKV w ("resume:" +:+ toString id) st) = Ok raw ->
    truthy raw = true ->
    JSON.parse (toString raw) = Some data -> nullish data = false ->
    read h 0 = Ok (Some pdf) -> read h 1 = Ok None ->
    load_path w h id st v
      (finish h (setError "Failed to load resume image."
         (resumed (remembered (createObjectURL h (List.length (created v)))
                     (resumed (resumed (preamble v)))))))
| PathRead raw data pdf img fb :
    truthy id = true ->
    fst (getKV w ("resume:" +:+ toString id) st) = Ok raw ->
    truthy raw = true ->
    JSON.parse (toString raw) = Some data -> nullish data = false ->
    read h 0 = Ok (Some pdf) -> read h 1 = Ok (Some img) ->
    ViewerB.normalizeFeedback (get "feedback" data) = Some fb ->
    let pdfUrl := createObjectURL h (List.length (created v)) in
    let imgUrl := createObjectURL h (S (List.length (created v))) in
    let v6 := remembered imgUrl (resumed (remembered pdfUrl (resumed (resumed (preamble v))))) in
    load_path w h id st v
      (finish h
         (if cancelled h v6 then v6
          else setFeedback fb
                 (setImageUrl imgUrl
                    (setResumeUrl pdfUrl (setResumeData (after_normalize data) v6))))).

(** [feedback?.ATS?.score ?? 0] and [feedback?.ATS?.tips ?? []] *)
Definition atsScore (v : View) : value :=
  coalesce (get "score" (get "ATS" (feedback v))) (VNum 0).

Definition atsTips (v : View) : value :=
  coalesce (get "tips" (get "ATS" (feedback v))) (VArr []).

(** The errors [loadResume] reports. *)
Definition loadErrors : list string :=
  [ "Missing resume id.";
    "No saved resume data found for this id.";
    "Failed to load resume PDF.";
    "Failed to load resume image.";
    "Failed to load resume feedback." ].

(** The errors [loadResume] reports without looking at its [cancelled]
    flag. *)
Definition unguardedErrors : list string :=
  [ "No saved resume data found for this id.";
    "Failed to load resume PDF.";
    "Failed to load resume image." ].

End ResumePageB.

(** ** Scenarios of the pages *)

Module PageScenarios.
Import JSON.

(** A feedback object with a snake_case score. *)
Definition plainFeedback : value := VObj [("overall_score", VNum 82)].

(** A record as the upload route saves it, with [fb] as its feedback. *)
Definition recordWith (fb : value) : value :=
  VObj [ ("id", VStr "u1"); ("resumePath", VStr "/r.pdf"); ("imagePath", VStr "/r.png");
         ("companyName", VStr "ACME"); ("jobTitle", VStr "Dev");
         ("jobDescription", VStr "Code"); ("feedback", fb) ].

(** A store that holds the JSON text of [d] under [resume:u1]. *)
Definition storeWith (d : value) : State :=
  initial (<["resume:u1" := stringify_str d]> ∅).

Definition textOf (d : value) : string :=
  match stringify d with
  | Some s => s
  | None => EmptyString
  end.

(** The hosted client is there and asked nothing. *)
Definition online : World :=
  {| puter := true;
     fs_upload := fun _ => Throw (ExternalError "unused");
     fs_read := Throw (ExternalError "unused");
     convertPdfToImage := Throw (ExternalError "unused");
     generateUUID := "u1";
     prepareInstructions := fun _ _ => EmptyString;
     ai_chat := Throw (ExternalError "unused");
     fetch := fun _ => FetchRejected;
     randomUUID := fun _ => "r1" |}.

(** Both files can be read and the effect is not cleaned up. *)
Definition readable : ResumePageB.Host :=
  {| ResumePageB.read := fun _ => Ok (Some (Blob (Some "bytes")));
     ResumePageB.createObjectURL := fun n => "blob:" +:+ nat_to_string n;
     ResumePageB.cancel_at := None |}.

End PageScenarios.


(** ** The host's URL functions *)

(** [encodeURIComponent], [URLSearchParams] and the router's split of a
    path, on strings as UTF-8 bytes. *)
Module URL.

Definition in_range (lo hi : nat) (c : ascii) : bool :=
  ((lo <=? nat_of_ascii c) && (nat_of_ascii c <=? hi))%nat.

(** The characters [encodeURIComponent] leaves alone: letters, digits and
    [- _ . ! ~ * ' ( )]. *)
Definition is_unreserved (c : ascii) : bool :=
  in_range 65 90 c || in_range 97 122 c || in_range 48 57 c
  || existsb (Ascii.eqb c) ["-"; "_"; "."; "!"; "~"; "*"; "'"; "("; ")"]%char.

Definition upper_hex (n : nat) : ascii :=
  if (n <? 10)%nat then ascii_of_nat (48 + n) else ascii_of_nat (55 + n).

Definition percent (c : ascii) : string :=
  String "%"
    (String (upper_hex (nat_of_ascii c / 16))
       (String (upper_hex (nat_of_ascii c mod 16)) EmptyString)).

(** What one byte is escaped to. *)
Definition escaped (c : ascii) : string :=
  if is_unreserved c then String c EmptyString else percent c.

Fixpoint escape (s : string) : string :=
  match s with
  | EmptyString => EmptyString
  | String c rest =>
      if is_unreserved c then String c (escape rest) else percent c +:+ escape rest
  end.

(** *** UTF-8 decoding with replacement *)

(** What a byte starts: itself, a sequence with [needed] more bytes whose
    next byte lies in [lo..hi], or nothing. *)
Inductive lead : Type :=
| Single
| Lead (needed lo hi : nat)
| Invalid.

Definition classify (c : ascii) : lead :=
  let n := nat_of_ascii c in
  if (n <=? 127)%nat then Single
  else if ((194 <=? n) && (n <=? 223))%nat then Lead 1 128 191
  else if (n =? 224)%nat then Lead 2 160 191
  else if (n =? 237)%nat then Lead 2 128 159
  else if ((225 <=? n) && (n <=? 239))%nat then Lead 2 128 191
  else if (n =? 240)%nat then Lead 3 144 191
  else if (n =? 244)%nat then Lead 3 128 143
  else if ((241 <=? n) && (n <=? 243))%nat then Lead 3 128 191
  else Invalid.

(** U+FFFD *)
Definition replacement : string :=
  String (ascii_of_nat 239) (String (ascii_of_nat 191) (String (ascii_of_nat 189) EmptyString)).

(** The decoder: [needed] more bytes are awaited, the next one in
    [lo..hi]; [pending] are the bytes of the sequence so far.  A byte out of
    range gives the replacement character and is then read again as the
    start of a sequence. *)
Fixpoint decode_from (s : string) (needed lo hi : nat) (pending : string) : string :=
  match s with
  | EmptyString =>
      match needed with
      | O => EmptyString
      | S _ => replacement
      end
  | String c rest =>
      let fresh :=
        match classify c with
        | Single => String c (decode_from rest 0 128 191 EmptyString)
        | Lead k l u => decode_from rest k l u (String c EmptyString)
        | Invalid => replacement +:+ decode_from rest 0 128 191 EmptyString
        end in
      match needed with
      | O => fresh
      | S m =>
          if in_range lo hi c then
            match m with
            | O => pending +:+ String c (decode_from rest 0 128 191 EmptyString)
            | S _ => decode_from rest m 128 191 (pending +:+ String c EmptyString)
            end
          else replacement +:+ fresh
      end
  end.

Definition utf8_decode (s : string) : string := decode_from s 0 128 191 EmptyString.

(** Text the decoder gives back unchanged: the UTF-8 of a string with no
    lone surrogate. *)
Definition well_formed (s : string) : bool := String.eqb (utf8_decode s) s.

(** [encodeURIComponent(s)]; [None] stands for the URIError on a lone
    surrogate. *)
Definition encodeURIComponent (s : string) : option string :=
  if well_formed s then Some (escape s) else None.

(** *** [URLSearchParams] *)

Fixpoint percent_decode (s : string) : string :=
  match s with
  | EmptyString => EmptyString
  | String c rest =>
      if Ascii.eqb c "%" then
        match rest with
        | String h1 (String h2 rest2) =>
            match JSON.hex_val h1, JSON.hex_val h2 with
            | Some a, Some b => String (ascii_of_nat (16 * a + b)) (percent_decode rest2)
            | _, _ => String c (percent_decode rest)
            end
        | _ => String c (percent_decode rest)
        end
      else String c (percent_decode rest)
  end.

Fixpoint plus_to_space (s : string) : string :=
  match s with
  | EmptyString => EmptyString
  | String c rest =>
      String (if Ascii.eqb c "+" then " "%char else c) (plus_to_space rest)
  end.

(** [s.split(sep)] for a one-character separator. *)
Fixpoint split_on (sep : ascii) (s : string) : list string :=
  match s with
  | EmptyString => [EmptyString]
  | String c rest =>
      if Ascii.eqb c sep then EmptyString :: split_on sep rest
      else match split_on sep rest with
           | x :: xs => String c x :: xs
           | [] => [String c EmptyString]
           end
  end.

(** The text before the first [sep], and the text after it when there is
    one. *)
Fixpoint cut_at (sep : ascii) (s : string) : string * option string :=
  match s with
  | EmptyString => (EmptyString, None)
  | String c rest =>
      if Ascii.eqb c sep then (EmptyString, Some rest)
      else (String c (fst (cut_at sep rest)), snd (cut_at sep rest))
  end.

Definition decode_part (s : string) : string :=
  utf8_decode (percent_decode (plus_to_space s)).

(** One name and value of a query. *)
Definition pair_of (sequence : string) : string * string :=
  (decode_part (fst (cut_at "=" sequence)),
   decode_part (match snd (cut_at "=" sequence) with
                | Some v => v
                | None => EmptyString
                end)).

Definition parse_query (s : string) : list (string * string) :=
  List.map pair_of (List.filter str_nonempty (split_on "&" s)).

Definition strip_question (s : string) : string :=
  match s with
  | String c rest => if Ascii.eqb c "?" then rest else s
  | EmptyString => s
  end.

(** [new URLSearchParams(search).get(name)]; [None] stands for [null]. *)
Definition searchParam (name search : string) : option string :=
  match List.find (fun p => String.eqb (fst p) name) (parse_query (strip_question search)) with
  | Some p => Some (snd p)
  | None => None
  end.

(** *** The router's split of a path *)

(** The text from the first [sep] on, [sep] included. *)
Fixpoint from_first (sep : ascii) (s : string) : string :=
  match s with
  | EmptyString => EmptyString
  | String c rest => if Ascii.eqb c sep then s else from_first sep rest
  end.

(** [location.search] after [navigate(to)]: what lies between the first
    [?] and the first [#]. *)
Definition search_of (to : string) : string :=
  from_first "?" (fst (cut_at "#" to)).

(** No [sep] in [s]. *)
Fixpoint free_of (sep : ascii) (s : string) : bool :=
  match s with
  | EmptyString => true
  | String c rest => negb (Ascii.eqb c sep) && free_of sep rest
  end.

End URL.

(** ** The sign-in page (routes/auth) and the way to it *)

Module AuthPage.
Import URL.

(** The [next] of the page, from [location.search]. *)
Definition next (search : string) : string :=
  match searchParam "next" search with
  | Some value =>
      if negb (str_nonempty value) || negb (String.prefix "/" value) then "/"
      else value
  | None => "/"
  end.

(** The effect: where the page navigates to, if it does. *)
Definition redirect (s : Session.Store) (search : string) : option string :=
  if Session.puterReady s && negb (Session.isLoading s) && Session.isAuthenticated s
  then Some (next search)
  else None.

(** The first effect of the second resume page, for the route parameter
    [id]: where it navigates to, if it does. *)
Definition resumeRedirect (id : value) (s : Session.Store) : outcome (option string) :=
  if negb (truthy id) then Ok None
  else if negb (Session.isLoading s) && negb (Session.isAuthenticated s) then
    match encodeURIComponent ("/resume/" +:+ toString id) with
    | Some q => Ok (Some ("/auth?next=" +:+ q))
    | None => Throw (ExternalError "URI malformed")
    end
  else Ok None.

End AuthPage.


(** ** From the upload route to the resume pages *)

Module Journey.
Import Upload Runs Endings.

(** What comes back from the hosted service is data that JSON text can
    denote: the path of an upload result, where it is truthy, and the reply
    of the hosted chat. *)
Definition wire_data (w : World) : Prop :=
  (forall n raw, fs_upload w n = Ok raw ->
                 truthy (get "path" (pickUploaded raw)) = true ->
                 json_clean (get "path" (pickUploaded raw)) = true)
  /\ (forall fb, ai_chat w = Ok fb -> json_clean fb = true).

(** The run of [handleAnalyze] from [st] called [navigate]. *)
Definition navigated (w : World) (p : Params) (st : State) : Prop :=
  (count is_navigate (trace st)
   < count is_navigate (trace (snd (handleAnalyze w p st))))%nat.

(** The record of the second write: the placeholder with its [feedback]
    assigned. *)
Definition finalRecord (w : World) (p : Params) (pdf img fb : value) : value :=
  set "feedback" fb (placeholder w p pdf img).

End Journey.


(** * Facts about the model *)

(** ** The JSON codec *)

Module JSONFacts.
Import JSON JSONText.

Lemma append_cons (c : ascii) (a b : string) :
  String c a +:+ b = String c (a +:+ b).
Proof. reflexivity. Qed.

Lemma append_nil (b : string) : EmptyString +:+ b = b.
Proof. reflexivity. Qed.

Lemma length_append (a b : string) :
  String.length (a +:+ b) = (String.length a + String.length b)%nat.
Proof.
  induction a as [|c a IH]; [reflexivity|].
  rewrite append_cons. simpl. now rewrite IH.
Qed.

Lemma append_assoc (a b c : string) : (a +:+ b) +:+ c = a +:+ (b +:+ c).
Proof.
  induction a as [|x a IH]; [reflexivity|].
  rewrite !append_cons. now rewrite IH.
Qed.

Lemma skip_ws_length (s : string) :
  (String.length (skip_ws s) <= String.length s)%nat.
Proof.
  induction s as [|c s IH]; simpl; [lia|].
  destruct (is_ws c); simpl; lia.
Qed.

Lemma utf8_of_code_length (n : nat) : (String.length (utf8_of_code n) <= 3)%nat.
Proof.
  unfold utf8_of_code.
  destruct (n <? 128)%nat; [simpl; lia|].
  destruct (n <? 2048)%nat; simpl; lia.
Qed.

(** A string literal is longer than the text it denotes. *)
Lemma parse_chars_length (s : string) :
  forall str r, parse_chars s = Some (str, r) ->
    (String.length str + String.length r + 1 <= String.length s)%nat.
Proof.
  remember (String.length s) as n eqn:Hn.
  revert s Hn.
  induction n as [n IH] using lt_wf_ind.
  intros s Hn str r H.
  destruct s as [|c rest]; [discriminate|].
  simpl in H.
  destruct (Ascii.eqb c dquote).
  { injection H as <- <-. simpl in *. lia. }
  destruct (Ascii.eqb c backslash).
  - destruct rest as [|e rest1]; [discriminate|].
    destruct (Ascii.eqb e "u").
    + destruct rest1 as [|h1 [|h2 [|h3 [|h4 rest2]]]]; try discriminate.
      destruct (hex_val h1), (hex_val h2), (hex_val h3), (hex_val h4);
        try discriminate.
      destruct (parse_chars rest2) as [[str' r']|] eqn:E; [|discriminate].
      injection H as <- <-.
      apply (IH (String.length rest2)) in E; [|simpl in Hn; lia|reflexivity].
      rewrite length_append.
      pose proof (utf8_of_code_length (((n0 * 16 + n1) * 16 + n2) * 16 + n3)).
      simpl in Hn. lia.
    + destruct (unescape e); [|discriminate].
      destruct (parse_chars rest1) as [[str' r']|] eqn:E; [|discriminate].
      injection H as <- <-.
      apply (IH (String.length rest1)) in E; [|simpl in Hn; lia|reflexivity].
      simpl in *. lia.
  - destruct (nat_of_ascii c <? 32)%nat; [discriminate|].
    destruct (parse_chars rest) as [[str' r']|] eqn:E; [|discriminate].
    injection H as <- <-.
    apply (IH (String.length rest)) in E; [|simpl in Hn; lia|reflexivity].
    simpl in *. lia.
Qed.

Lemma parse_value_unfold (fuel : nat) (s : string) :
  parse_value (S fuel) s =
  match skip_ws s with
  | EmptyString => None
  | String c rest =>
      if Ascii.eqb c "{" then
        match skip_ws rest with
        | EmptyString => None
        | String c1 rest1 =>
            if Ascii.eqb c1 "}" then Some (VObj [], rest1)
            else
              match parse_members fuel rest with
              | Some (ms, r) => Some (object_of ms, r)
              | None => None
              end
        end
      else if Ascii.eqb c "[" then
        match skip_ws rest with
        | EmptyString => None
        | String c1 rest1 =>
            if Ascii.eqb c1 "]" then Some (VArr [], rest1)
            else
              match parse_elements fuel rest with
              | Some (vs, r) => Some (VArr vs, r)
              | None => None
              end
        end
      else if Ascii.eqb c dquote then
        match parse_chars rest with
        | Some (str, r) => Some (VStr str, r)
        | None => None
        end
      else if Ascii.eqb c "t" then expect "rue" rest (VBool true)
      else if Ascii.eqb c "f" then expect "alse" rest (VBool false)
      else if Ascii.eqb c "n" then expect "ull" rest VNull
      else parse_number (String c rest)
  end.
Proof. reflexivity. Qed.

Lemma expect_value word s v x r : expect word s v = Some (x, r) -> x = v.
Proof.
  unfold expect. destruct (strip_prefix word s); [|discriminate].
  now intros [= <- _].
Qed.

Lemma parse_number_value s x r :
  parse_number s = Some (x, r) -> exists n, x = VNum n.
Proof.
  unfold parse_number. destruct s as [|c rest]; [discriminate|].
  destruct (Ascii.eqb c "-").
  - destruct (read_uint rest) as [u r0].
    destruct (_ && _); [|discriminate]. intros [= <- _]. eauto.
  - destruct (read_uint (String c rest)) as [u r0].
    destruct (_ && _); [|discriminate]. intros [= <- _]. eauto.
Qed.

(** Text that parses to a string is strictly longer than that string. *)
Lemma parse_value_string_shorter fuel s str r :
  parse_value fuel s = Some (VStr str, r) ->
  (String.length str + 2 <= String.length s)%nat.
Proof.
  destruct fuel as [|fuel]; [discriminate|].
  rewrite parse_value_unfold.
  pose proof (skip_ws_length s) as Hws.
  destruct (skip_ws s) as [|c rest]; [discriminate|].
  destruct (Ascii.eqb c "{").
  { destruct (skip_ws rest) as [|c1 rest1]; [discriminate|].
    destruct (Ascii.eqb c1 "}"); [discriminate|].
    destruct (parse_members fuel rest) as [[ms r']|]; discriminate. }
  destruct (Ascii.eqb c "[").
  { destruct (skip_ws rest) as [|c1 rest1]; [discriminate|].
    destruct (Ascii.eqb c1 "]"); [discriminate|].
    destruct (parse_elements fuel rest) as [[vs r']|]; discriminate. }
  destruct (Ascii.eqb c dquote).
  { destruct (parse_chars rest) as [[str' r']|] eqn:E; [|discriminate].
    intros [= <- <-]. apply parse_chars_length in E. simpl in Hws. lia. }
  destruct (Ascii.eqb c "t").
  { intros H. apply expect_value in H. discriminate. }
  destruct (Ascii.eqb c "f").
  { intros H. apply expect_value in H. discriminate. }
  destruct (Ascii.eqb c "n").
  { intros H. apply expect_value in H. discriminate. }
  intros H. apply parse_number_value in H as [n Hn]. discriminate.
Qed.

Lemma parse_string_shorter s str :
  parse s = Some (VStr str) -> (String.length str < String.length s)%nat.
Proof.
  unfold parse.
  destruct (parse_value (S (String.length s)) s) as [[v r]|] eqn:E; [|discriminate].
  destruct (skip_ws r); [|discriminate].
  intros [= ->]. apply parse_value_string_shorter in E. lia.
Qed.

(** *** Printing then parsing *)

Lemma parse_chars_escape_char (c : ascii) (tail str r : string) :
  parse_chars tail = Some (str, r) ->
  parse_chars (escape_char c +:+ tail) = Some (String c str, r).
Proof.
  intros H.
  destruct c as [[] [] [] [] [] [] [] []];
    match goal with
    | |- context [escape_char ?a] =>
        let e := eval vm_compute in (escape_char a) in
        change (escape_char a) with e
    end;
    rewrite ?append_cons, ?append_nil;
    cbn -[parse_chars];
    simpl; rewrite H; reflexivity.
Qed.

Lemma parse_chars_escape (s rest : string) :
  parse_chars (escape s +:+ String dquote rest) = Some (s, rest).
Proof.
  induction s as [|c s IH].
  - reflexivity.
  - simpl escape. rewrite append_assoc.
    now apply parse_chars_escape_char.
Qed.

Lemma text_array (l : list value) :
  text (VArr l) = "[" +:+ join "," (List.map text l) +:+ "]".
Proof. reflexivity. Qed.

Lemma text_object (props : list (string * value)) :
  text (VObj props) = "{" +:+ join "," (member_texts props) +:+ "}".
Proof. reflexivity. Qed.

Lemma serialize_clean (v : value) :
  json_clean v = true -> serialize v = Some (text v).
Proof. destruct v as [| |[]| | | |]; simpl; try discriminate; reflexivity. Qed.

Lemma is_delim_cases (s : string) :
  is_delim s = true ->
  s = EmptyString \/
  exists r, s = String "," r \/ s = String "]" r \/ s = String "}" r.
Proof.
  destruct s as [|c r]; [now left|]. simpl. intros H. right. exists r.
  apply orb_true_iff in H as [H|H]; [apply orb_true_iff in H as [H|H]|];
    apply Ascii.eqb_eq in H; subst; auto.
Qed.

Lemma read_uint_delim (rest : string) :
  is_delim rest = true -> read_uint rest = (Nil, rest).
Proof.
  intros H. apply is_delim_cases in H as [->|[r [->|[->| ->]]]]; reflexivity.
Qed.

Lemma starts_fraction_delim (rest : string) :
  is_delim rest = true -> starts_fraction rest = false.
Proof.
  intros H. apply is_delim_cases in H as [->|[r [->|[->| ->]]]]; reflexivity.
Qed.

Lemma read_uint_print (d : uint) (rest : string) :
  is_delim rest = true ->
  read_uint (NilEmpty.string_of_uint d +:+ rest) = (d, rest).
Proof.
  intros H. induction d as [|d IH|d IH|d IH|d IH|d IH|d IH|d IH|d IH|d IH|d IH];
    simpl NilEmpty.string_of_uint; rewrite ?append_cons, ?append_nil;
    [now apply read_uint_delim|..];
    cbn -[String.append]; rewrite IH; reflexivity.
Qed.

Lemma unorm_D0 (d x : uint) : unorm d = D0 x -> x = Nil.
Proof.
  induction d; simpl; intros H; try discriminate; auto.
  now injection H as <-.
Qed.

Lemma int_literal_ok_to_uint (p : positive) :
  int_literal_ok (Pos.to_uint p) = true.
Proof.
  pose proof (DecimalPos.Unsigned.to_of (Pos.to_uint p)) as H.
  rewrite DecimalPos.Unsigned.of_to in H. simpl in H.
  pose proof (DecimalPos.Unsigned.to_uint_nonnil p) as Hn.
  destruct (Pos.to_uint p) as [|d|d|d|d|d|d|d|d|d|d]; try reflexivity.
  - congruence.
  - symmetry in H. simpl in H. apply unorm_D0 in H as ->. reflexivity.
Qed.

Lemma parse_number_digits (d : uint) (rest : string) :
  d <> Nil -> int_literal_ok d = true -> is_delim rest = true ->
  parse_number (NilEmpty.string_of_uint d +:+ rest)
  = Some (VNum (Z.of_int (Pos d)), rest).
Proof.
  intros Hn Hok Hd.
  pose proof (read_uint_print d rest Hd) as R.
  pose proof (starts_fraction_delim rest Hd) as F.
  destruct d; [congruence|..];
    simpl NilEmpty.string_of_uint in *; rewrite append_cons in *;
    unfold parse_number;
    match goal with
    | |- context [Ascii.eqb ?a "-"] => change (Ascii.eqb a "-") with false
    end;
    cbv iota; rewrite R, Hok, F; reflexivity.
Qed.

Lemma parse_number_print (n : Z) (rest : string) :
  is_delim rest = true ->
  parse_number (num_to_string n +:+ rest) = Some (VNum n, rest).
Proof.
  intros Hd. unfold num_to_string.
  pose proof (DecimalZ.of_to n) as Hn.
  destruct n as [|p|p]; simpl Z.to_int in *.
  - change (NilZero.string_of_int (Pos zero)) with "0".
    rewrite append_cons, append_nil. unfold parse_number.
    change (Ascii.eqb "0" "-") with false. cbv iota.
    change (read_uint (String "0" rest))
      with (let '(u, r) := read_uint rest in (D0 u, r)).
    rewrite (read_uint_delim rest Hd), (starts_fraction_delim rest Hd).
    reflexivity.
  - pose proof (DecimalPos.Unsigned.to_uint_nonnil p) as Hnil.
    pose proof (int_literal_ok_to_uint p) as Hok.
    unfold NilZero.string_of_int, NilZero.string_of_uint.
    destruct (Pos.to_uint p) eqn:E; try congruence;
      rewrite <- E in *; rewrite parse_number_digits by assumption;
      now rewrite Hn.
  - pose proof (DecimalPos.Unsigned.to_uint_nonnil p) as Hnil.
    pose proof (int_literal_ok_to_uint p) as Hok.
    unfold NilZero.string_of_int, NilZero.string_of_uint.
    rewrite append_cons. unfold parse_number.
    change (Ascii.eqb "-" "-") with true. cbv iota.
    assert (R : read_uint
                  (match Pos.to_uint p with
                   | Nil => "0"
                   | _ => NilEmpty.string_of_uint (Pos.to_uint p)
                   end +:+ rest) = (Pos.to_uint p, rest)).
    { destruct (Pos.to_uint p) eqn:E; try congruence;
        rewrite <- E; now apply read_uint_print. }
    rewrite R, Hok, (starts_fraction_delim rest Hd).
    cbv [andb negb]. now rewrite Hn.
Qed.

Lemma parse_value_number_start (c : ascii) (r : string) (fuel : nat) :
  number_start c = true ->
  parse_value (S fuel) (String c r) = parse_number (String c r)
  /\ value_start (String c r) = true.
Proof.
  intros H.
  destruct c as [[] [] [] [] [] [] [] []]; vm_compute in H;
    try discriminate H; split; reflexivity.
Qed.

Lemma num_to_string_head (n : Z) :
  exists c r, num_to_string n = String c r /\ number_start c = true.
Proof.
  unfold num_to_string. destruct n as [|p|p]; simpl Z.to_int.
  - now exists "0"%char, EmptyString.
  - pose proof (DecimalPos.Unsigned.to_uint_nonnil p) as Hnil.
    unfold NilZero.string_of_int, NilZero.string_of_uint.
    destruct (Pos.to_uint p); try congruence; simpl; eauto.
  - eexists _, _. split; [reflexivity|reflexivity].
Qed.

Lemma value_start_inv (s : string) :
  value_start s = true ->
  exists c r, s = String c r /\ is_ws c = false /\ Ascii.eqb c "]" = false.
Proof.
  destruct s as [|c r]; [discriminate|]. simpl. intros H.
  apply andb_true_iff in H as [H1 H2].
  apply negb_true_iff in H1, H2. eauto.
Qed.

Lemma skip_ws_value_start (s : string) :
  value_start s = true -> skip_ws s = s.
Proof.
  intros H. apply value_start_inv in H as (c & r & -> & Hws & _).
  simpl. now rewrite Hws.
Qed.

Lemma text_value_start (v : value) (rest : string) :
  json_clean v = true -> value_start (text v +:+ rest) = true.
Proof.
  destruct v as [| |[]|n|s|l|props]; try discriminate; intros _;
    try reflexivity.
  destruct (num_to_string_head n) as (c & r & E & H).
  change (text (VNum n)) with (num_to_string n). rewrite E, append_cons.
  now apply (parse_value_number_start c (r +:+ rest) O).
Qed.

Lemma parse_elements_unfold (fuel : nat) (s : string) :
  parse_elements (S fuel) s =
  match parse_value fuel s with
  | None => None
  | Some (v, r) =>
      match skip_ws r with
      | EmptyString => None
      | String c rest =>
          if Ascii.eqb c "," then
            match parse_elements fuel rest with
            | Some (vs, r') => Some (v :: vs, r')
            | None => None
            end
          else if Ascii.eqb c "]" then Some ([v], rest)
          else None
      end
  end.
Proof. reflexivity. Qed.

Lemma parse_members_unfold (fuel : nat) (s : string) :
  parse_members (S fuel) s =
  match skip_ws s with
  | EmptyString => None
  | String c rest =>
      if Ascii.eqb c dquote then
        match parse_chars rest with
        | None => None
        | Some (k, r1) =>
            match skip_ws r1 with
            | EmptyString => None
            | String c1 r2 =>
                if Ascii.eqb c1 ":" then
                  match parse_value fuel r2 with
                  | None => None
                  | Some (v, r3) =>
                      match skip_ws r3 with
                      | EmptyString => None
                      | String c3 r4 =>
                          if Ascii.eqb c3 "," then
                            match parse_members fuel r4 with
                            | Some (ms, r') => Some ((k, v) :: ms, r')
                            | None => None
                            end
                          else if Ascii.eqb c3 "}" then Some ([(k, v)], r4)
                          else None
                      end
                  end
                else None
            end
        end
      else None
  end.
Proof. reflexivity. Qed.

Lemma join_cons2 (sep x y : string) (l : list string) :
  join sep (x :: y :: l) = x +:+ sep +:+ join sep (y :: l).
Proof. reflexivity. Qed.

(** How the parser recognises each form, as introduction rules. *)

Lemma parse_value_string fuel rest str r :
  parse_chars rest = Some (str, r) ->
  parse_value (S fuel) (String dquote rest) = Some (VStr str, r).
Proof. intros H. rewrite parse_value_unfold. simpl. now rewrite H. Qed.

Lemma parse_value_array fuel rest vs r :
  value_start rest = true ->
  parse_elements fuel rest = Some (vs, r) ->
  parse_value (S fuel) (String "[" rest) = Some (VArr vs, r).
Proof.
  intros Hs H. rewrite parse_value_unfold.
  change (skip_ws (String "[" rest)) with (String "[" rest).
  change (Ascii.eqb "[" "{") with false. change (Ascii.eqb "[" "[") with true.
  cbv iota. rewrite (skip_ws_value_start rest Hs).
  destruct (value_start_inv rest Hs) as (c & r' & -> & _ & Hb).
  cbv iota. rewrite Hb, H. reflexivity.
Qed.

Lemma parse_value_object fuel rest ms r :
  parse_members fuel (String dquote rest) = Some (ms, r) ->
  parse_value (S fuel) (String "{" (String dquote rest)) = Some (object_of ms, r).
Proof.
  intros H. rewrite parse_value_unfold.
  change (skip_ws (String "{" (String dquote rest)))
    with (String "{" (String dquote rest)).
  change (Ascii.eqb "{" "{") with true. cbv iota.
  change (skip_ws (String dquote rest)) with (String dquote rest).
  change (Ascii.eqb dquote "}") with false. cbv iota.
  now rewrite H.
Qed.

Lemma parse_elements_last fuel s v rest :
  parse_value fuel s = Some (v, String "]" rest) ->
  parse_elements (S fuel) s = Some ([v], rest).
Proof. intros H. rewrite parse_elements_unfold, H. reflexivity. Qed.

Lemma parse_elements_more fuel s v r vs rest :
  parse_value fuel s = Some (v, String "," r) ->
  parse_elements fuel r = Some (vs, rest) ->
  parse_elements (S fuel) s = Some (v :: vs, rest).
Proof.
  intros H1 H2. rewrite parse_elements_unfold, H1.
  change (skip_ws (String "," r)) with (String "," r).
  change (Ascii.eqb "," ",") with true. cbv iota. now rewrite H2.
Qed.

Lemma parse_members_last fuel rest k r2 v r4 :
  parse_chars rest = Some (k, String ":" r2) ->
  parse_value fuel r2 = Some (v, String "}" r4) ->
  parse_members (S fuel) (String dquote rest) = Some ([(k, v)], r4).
Proof.
  intros H1 H2. rewrite parse_members_unfold.
  change (skip_ws (String dquote rest)) with (String dquote rest).
  change (Ascii.eqb dquote dquote) with true. cbv iota. rewrite H1.
  change (skip_ws (String ":" r2)) with (String ":" r2).
  change (Ascii.eqb ":" ":") with true. cbv iota. rewrite H2.
  reflexivity.
Qed.

Lemma parse_members_more fuel rest k r2 v r4 ms r :
  parse_chars rest = Some (k, String ":" r2) ->
  parse_value fuel r2 = Some (v, String "," r4) ->
  parse_members fuel r4 = Some (ms, r) ->
  parse_members (S fuel) (String dquote rest) = Some ((k, v) :: ms, r).
Proof.
  intros H1 H2 H3. rewrite parse_members_unfold.
  change (skip_ws (String dquote rest)) with (String dquote rest).
  change (Ascii.eqb dquote dquote) with true. cbv iota. rewrite H1.
  change (skip_ws (String ":" r2)) with (String ":" r2).
  change (Ascii.eqb ":" ":") with true. cbv iota. rewrite H2.
  change (skip_ws (String "," r4)) with (String "," r4).
  change (Ascii.eqb "," ",") with true. cbv iota. now rewrite H3.
Qed.

Lemma parse_elements_print (l : list value) :
  Forall roundtrips l -> forallb json_clean l = true -> l <> [] ->
  forall fuel rest,
    (list_sum (List.map (fun x => S (need x)) l) <= fuel)%nat ->
    parse_elements fuel (join "," (List.map text l) +:+ String "]" rest)
    = Some (l, rest).
Proof.
  induction l as [|v tl IH]; [congruence|].
  intros HF Hc _ fuel rest Hfuel.
  apply Forall_cons in HF as [Hv HF].
  simpl in Hc. apply andb_true_iff in Hc as [Hcv Hc].
  simpl in Hfuel. destruct fuel as [|fuel]; [lia|].
  destruct tl as [|v' tl'].
  - apply parse_elements_last.
    apply (Hv Hcv); [simpl in *; lia | reflexivity].
  - change (List.map text (v :: v' :: tl'))
      with (text v :: List.map text (v' :: tl')).
    change (text v :: List.map text (v' :: tl'))
      with (text v :: text v' :: List.map text tl').
    rewrite join_cons2, !append_assoc, append_cons, append_nil.
    change (text v' :: List.map text tl') with (List.map text (v' :: tl')).
    eapply parse_elements_more.
    + apply (Hv Hcv); [simpl in *; lia | reflexivity].
    + apply IH; [assumption|assumption|congruence|simpl in *; lia].
Qed.

Lemma member_texts_clean (props : list (string * value)) :
  forallb (fun kv => json_clean (snd kv)) props = true ->
  member_texts props = List.map member_text props.
Proof.
  induction props as [|[k x] tl IH]; [reflexivity|].
  simpl. intros H. apply andb_true_iff in H as [Hx Htl].
  rewrite (serialize_clean x Hx), IH by assumption. reflexivity.
Qed.

Lemma member_text_shape (k : string) (x : value) (tail : string) :
  member_text (k, x) +:+ tail
  = String dquote (escape k +:+ String dquote (String ":" (text x +:+ tail))).
Proof.
  unfold member_text, quote, dq. simpl fst. simpl snd.
  now rewrite !append_assoc, !append_cons, !append_nil.
Qed.

Lemma parse_members_print (props : list (string * value)) :
  Forall (fun kv => roundtrips (snd kv)) props ->
  forallb (fun kv => json_clean (snd kv)) props = true -> props <> [] ->
  forall fuel rest,
    (list_sum (List.map (fun kv => S (need (snd kv))) props) <= fuel)%nat ->
    parse_members fuel (join "," (List.map member_text props) +:+ String "}" rest)
    = Some (props, rest).
Proof.
  induction props as [|[k x] tl IH]; [congruence|].
  intros HF Hc _ fuel rest Hfuel.
  apply Forall_cons in HF as [Hv HF]. simpl in Hv.
  simpl in Hc. apply andb_true_iff in Hc as [Hcv Hc].
  simpl in Hfuel. destruct fuel as [|fuel]; [lia|].
  destruct tl as [|kv' tl'].
  - change (join "," (List.map member_text [(k, x)])) with (member_text (k, x)).
    rewrite member_text_shape.
    eapply parse_members_last; [apply parse_chars_escape|].
    apply (Hv Hcv); [simpl in *; lia | reflexivity].
  - change (List.map member_text ((k, x) :: kv' :: tl'))
      with (member_text (k, x) :: member_text kv' :: List.map member_text tl').
    rewrite join_cons2.
    change (member_text kv' :: List.map member_text tl')
      with (List.map member_text (kv' :: tl')).
    rewrite append_assoc, member_text_shape, append_assoc, append_cons, append_nil.
    eapply parse_members_more; [apply parse_chars_escape| |].
    + apply (Hv Hcv); [simpl in *; lia | reflexivity].
    + apply IH; [assumption|assumption|congruence|simpl in *; lia].
Qed.

Lemma assoc_app_hit k x (a b : list (string * value)) :
  assoc k (a ++ (k, x) :: b) <> None.
Proof.
  induction a as [|[k' v'] a IH]; simpl.
  - now rewrite String.eqb_refl.
  - destruct (String.eqb k k'); [discriminate|assumption].
Qed.

Lemma keys_unique_app_fresh k x (acc ms : list (string * value)) :
  keys_unique (acc ++ (k, x) :: ms) = true -> assoc k acc = None.
Proof.
  induction acc as [|[k' v'] acc IH]; [reflexivity|].
  simpl. destruct (assoc k' (acc ++ (k, x) :: ms)) eqn:E; [discriminate|].
  intros H. destruct (String.eqb_spec k k') as [->|_]; [|auto].
  now apply assoc_app_hit in E.
Qed.

Lemma assoc_set_fresh k x (acc : list (string * value)) :
  assoc k acc = None -> assoc_set k x acc = acc ++ [(k, x)].
Proof.
  induction acc as [|[k' v'] acc IH]; [reflexivity|].
  simpl. destruct (String.eqb k k'); [discriminate|].
  intros H. now rewrite IH.
Qed.

Lemma fold_assoc_set_unique (ms acc : list (string * value)) :
  keys_unique (acc ++ ms) = true ->
  fold_left (fun a kv => assoc_set (fst kv) (snd kv) a) ms acc = acc ++ ms.
Proof.
  revert acc. induction ms as [|[k x] ms IH]; intros acc H.
  - now rewrite app_nil_r.
  - simpl. rewrite (assoc_set_fresh k x acc) by (eapply keys_unique_app_fresh; eauto).
    rewrite IH; rewrite <- app_assoc; [reflexivity|assumption].
Qed.

Lemma object_of_unique (props : list (string * value)) :
  keys_unique props = true -> object_of props = VObj props.
Proof.
  intros H. unfold object_of. now rewrite fold_assoc_set_unique.
Qed.

Lemma roundtrips_all (v : value) : roundtrips v.
Proof.
  induction v as [| |b|n|s|l IH|props IH] using value_ind;
    intros Hc fuel rest Hfuel Hd;
    (destruct fuel as [|fuel]; [simpl in Hfuel; lia|]).
  - discriminate.
  - reflexivity.
  - destruct b; reflexivity.
  - destruct (num_to_string_head n) as (c & r & E & H).
    change (text (VNum n)) with (num_to_string n).
    pose proof (parse_number_print n rest Hd) as P.
    rewrite E, append_cons in *.
    destruct (parse_value_number_start c (r +:+ rest) fuel H) as [-> _].
    exact P.
  - change (text (VStr s)) with (quote s). unfold quote, dq.
    rewrite !append_assoc, !append_cons, !append_nil.
    apply parse_value_string, parse_chars_escape.
  - rewrite text_array. simpl in Hc.
    destruct l as [|v tl]; [reflexivity|].
    rewrite !append_assoc, !append_cons, !append_nil.
    apply parse_value_array.
    + apply andb_true_iff in Hc as [Hv _].
      destruct tl as [|v' tl'].
      * now apply text_value_start.
      * change (List.map text (v :: v' :: tl'))
          with (text v :: text v' :: List.map text tl').
        rewrite join_cons2, append_assoc. now apply text_value_start.
    + apply (parse_elements_print (v :: tl) IH Hc); [congruence|].
      simpl in Hfuel |- *. lia.
  - rewrite text_object. simpl in Hc. apply andb_true_iff in Hc as [Hu Hc].
    rewrite (member_texts_clean props Hc).
    destruct props as [|[k x] tl]; [reflexivity|].
    rewrite !append_assoc, !append_cons, !append_nil.
    rewrite <- (object_of_unique _ Hu).
    pose proof (parse_members_print ((k, x) :: tl) IH Hc) as PM.
    assert (Hs : exists r,
               join "," (List.map member_text ((k, x) :: tl)) +:+ String "}" rest
               = String dquote r).
    { destruct tl as [|kv' tl'].
      - change (join "," (List.map member_text [(k, x)])) with (member_text (k, x)).
        rewrite member_text_shape. eauto.
      - change (List.map member_text ((k, x) :: kv' :: tl'))
          with (member_text (k, x) :: member_text kv' :: List.map member_text tl').
        rewrite join_cons2, append_assoc, member_text_shape. eauto. }
    destruct Hs as [r E].
    specialize (PM ltac:(congruence) fuel rest).
    rewrite E in *.
    apply parse_value_object, PM.
    simpl in Hfuel |- *. lia.
Qed.

Lemma append_nil_r (s : string) : s +:+ EmptyString = s.
Proof.
  induction s as [|c s IH]; [reflexivity|].
  now rewrite append_cons, IH.
Qed.

Lemma join_length_elems (l : list value) :
  Forall (fun v => json_clean v = true ->
                   (need v <= String.length (text v))%nat) l ->
  forallb json_clean l = true ->
  (list_sum (List.map (fun x => S (need x)) l)
   <= S (String.length (join "," (List.map text l))))%nat.
Proof.
  induction l as [|v tl IH]; intros HF Hc; [simpl; lia|].
  apply Forall_cons in HF as [Hv HF].
  simpl in Hc. apply andb_true_iff in Hc as [Hcv Hc].
  specialize (IH HF Hc). specialize (Hv Hcv).
  destruct tl as [|v' tl'].
  - simpl. lia.
  - change (List.map text (v :: v' :: tl'))
      with (text v :: text v' :: List.map text tl').
    rewrite join_cons2, !length_append.
    change (text v' :: List.map text tl') with (List.map text (v' :: tl')).
    simpl in IH |- *. lia.
Qed.

Lemma join_length_members (props : list (string * value)) :
  Forall (fun kv => json_clean (snd kv) = true ->
                    (need (snd kv) <= String.length (text (snd kv)))%nat) props ->
  forallb (fun kv => json_clean (snd kv)) props = true ->
  (list_sum (List.map (fun kv => S (need (snd kv))) props)
   <= S (String.length (join "," (List.map member_text props))))%nat.
Proof.
  induction props as [|kv tl IH]; intros HF Hc; [simpl; lia|].
  apply Forall_cons in HF as [Hv HF].
  simpl in Hc. apply andb_true_iff in Hc as [Hcv Hc].
  specialize (IH HF Hc). specialize (Hv Hcv).
  assert (Hm : (String.length (text (snd kv)) <= String.length (member_text kv))%nat).
  { unfold member_text. rewrite !length_append. lia. }
  destruct tl as [|kv' tl'].
  - change (join "," (List.map member_text [kv])) with (member_text kv).
    simpl List.map. simpl list_sum. lia.
  - change (List.map member_text (kv :: kv' :: tl'))
      with (member_text kv :: member_text kv' :: List.map member_text tl').
    rewrite join_cons2, !length_append.
    change (member_text kv' :: List.map member_text tl')
      with (List.map member_text (kv' :: tl')).
    set (J := String.length (join "," (List.map member_text (kv' :: tl')))) in *.
    set (M := String.length (member_text kv)) in *.
    simpl List.map in *. simpl list_sum in *. simpl String.length. lia.
Qed.

Lemma need_le_length (v : value) :
  json_clean v = true -> (need v <= String.length (text v))%nat.
Proof.
  induction v as [| |b|n|s|l IH|props IH] using value_ind; intros Hc.
  - discriminate.
  - simpl. lia.
  - destruct b; simpl; lia.
  - destruct (num_to_string_head n) as (c & r & E & _).
    change (text (VNum n)) with (num_to_string n). rewrite E. simpl. lia.
  - change (text (VStr s)) with (quote s). unfold quote.
    rewrite !length_append. simpl. lia.
  - rewrite text_array, !length_append. simpl in Hc |- *.
    pose proof (join_length_elems l IH Hc). lia.
  - rewrite text_object. simpl in Hc. apply andb_true_iff in Hc as [_ Hc].
    rewrite (member_texts_clean props Hc), !length_append. simpl.
    pose proof (join_length_members props IH Hc). lia.
Qed.

(** [JSON.parse(JSON.stringify(v))] gives [v] back, for every value that
    JSON text can denote. *)
Theorem parse_stringify (v : value) (s : string) :
  json_clean v = true -> stringify v = Some s -> parse s = Some v.
Proof.
  intros Hc Hs. unfold stringify in Hs.
  rewrite (serialize_clean v Hc) in Hs. injection Hs as <-.
  unfold parse.
  pose proof (roundtrips_all v Hc (S (String.length (text v))) EmptyString) as R.
  rewrite append_nil_r in R.
  rewrite R; [reflexivity| |reflexivity].
  pose proof (need_le_length v Hc). lia.
Qed.

(** Serialising anything but [undefined] gives text, and never empty text. *)
Lemma stringify_defined (v : value) :
  v <> VUndefined -> exists c r, stringify v = Some (String c r).
Proof.
  intros H. unfold stringify.
  destruct v as [| |[]|n|s|l|props]; try congruence; simpl; eauto.
  destruct (num_to_string_head n) as (c & r & E & _). rewrite E. eauto.
Qed.

End JSONFacts.

(** ** Objects *)

Module ObjFacts.

Lemma assoc_set_same k x props : assoc k (assoc_set k x props) = Some x.
Proof.
  induction props as [|[k' v'] props IH]; simpl.
  - now rewrite String.eqb_refl.
  - destruct (String.eqb k k') eqn:E; simpl; rewrite E; auto.
Qed.

Lemma assoc_set_other k k' x props :
  k <> k' -> assoc k' (assoc_set k x props) = assoc k' props.
Proof.
  intros Hne. induction props as [|[k0 v0] props IH]; simpl.
  - destruct (String.eqb_spec k' k); [congruence|reflexivity].
  - destruct (String.eqb_spec k k0) as [->|Hk]; simpl.
    + destruct (String.eqb_spec k' k0); [congruence|reflexivity].
    + now rewrite IH.
Qed.

Lemma get_set_same k x props : get k (set k x (VObj props)) = x.
Proof. simpl. now rewrite assoc_set_same. Qed.

Lemma get_set_other k k' x o : k <> k' -> get k' (set k x o) = get k' o.
Proof.
  intros Hne. destruct o; try reflexivity. simpl.
  now rewrite assoc_set_other.
Qed.

Lemma has_key_set_other k k' x o : k <> k' -> has_key k' (set k x o) = has_key k' o.
Proof.
  intros Hne. destruct o; try reflexivity. simpl.
  now rewrite assoc_set_other.
Qed.

Lemma has_key_set_keeps k k' x o : has_key k' o = true -> has_key k' (set k x o) = true.
Proof.
  intros H. destruct (String.eqb_spec k k') as [->|Hne].
  - destruct o; try discriminate. simpl. now rewrite assoc_set_same.
  - now rewrite has_key_set_other.
Qed.

(** A property that reads as something other than [undefined] is there. *)
Lemma get_defined_has_key k o : get k o <> VUndefined -> has_key k o = true.
Proof.
  destruct o; simpl; try congruence.
  destruct (assoc k props); congruence.
Qed.

Lemma truthy_has_key k o : truthy (get k o) = true -> has_key k o = true.
Proof.
  intros H. apply get_defined_has_key. intros E. now rewrite E in H.
Qed.

Lemma not_nullish_has_key k o : nullish (get k o) = false -> has_key k o = true.
Proof.
  intros H. apply get_defined_has_key. intros E. now rewrite E in H.
Qed.

Lemma get_non_object k v :
  (forall props, v <> VObj props) -> get k v = VUndefined.
Proof. destruct v; try reflexivity. intros H. now destruct (H props). Qed.

Lemma set_object_type k x o : is_object_type (set k x o) = is_object_type o.
Proof. now destruct o. Qed.

Lemma set_truthy k x o : truthy (set k x o) = truthy o.
Proof. now destruct o. Qed.

End ObjFacts.

(** ** The normalisers *)

Module NormalizerFacts.
Import Normalizer ObjFacts.

Lemma effective_object (x : value) :
  truthy x = true -> is_object_type x = true ->
  truthy (effective x) = true /\ is_object_type (effective x) = true.
Proof.
  intros Ht Ho. unfold effective.
  destruct (truthy (get "feedback" x)) eqn:E1; simpl; [|auto].
  destruct (is_object_type (get "feedback" x)) eqn:E2; auto.
Qed.

Lemma fix_tone_shape (m : value) :
  truthy (fix_tone m) = truthy m /\ is_object_type (fix_tone m) = is_object_type m.
Proof.
  unfold fix_tone. destruct (_ && _); [|auto].
  now rewrite set_truthy, set_object_type.
Qed.

Lemma fix_score_shape (m : value) :
  truthy (fix_score m) = truthy m /\ is_object_type (fix_score m) = is_object_type m.
Proof.
  unfold fix_score. destruct (_ && _); [|auto].
  now rewrite set_truthy, set_object_type.
Qed.

Lemma reconcile_object (x : value) :
  truthy x = true -> is_object_type x = true ->
  truthy (reconcile x) = true /\ is_object_type (reconcile x) = true.
Proof.
  intros Ht Ho. unfold reconcile.
  destruct (effective_object x Ht Ho) as [H1 H2].
  destruct (fix_score_shape (fix_tone (effective x))) as [-> ->].
  destruct (fix_tone_shape (effective x)) as [-> ->]. auto.
Qed.

(** Reading any key but the one written. *)
Lemma fix_tone_get k m : k <> "toneAndStyle" -> get k (fix_tone m) = get k m.
Proof.
  intros H. unfold fix_tone. destruct (_ && _); [|reflexivity].
  apply get_set_other. congruence.
Qed.

Lemma fix_score_get k m : k <> "overallScore" -> get k (fix_score m) = get k m.
Proof.
  intros H. unfold fix_score. destruct (_ && _); [|reflexivity].
  apply get_set_other. congruence.
Qed.

Lemma fix_tone_has_key k m : has_key k m = true -> has_key k (fix_tone m) = true.
Proof.
  intros H. unfold fix_tone. destruct (_ && _); [|assumption].
  now apply has_key_set_keeps.
Qed.

Lemma fix_score_has_key k m : has_key k m = true -> has_key k (fix_score m) = true.
Proof.
  intros H. unfold fix_score. destruct (_ && _); [|assumption].
  now apply has_key_set_keeps.
Qed.

(** After one pass neither repair has anything left to do. *)
Lemma fix_tone_settled m :
  negb (truthy (get "toneAndStyle" (fix_tone m)))
  && truthy (get "tone_and_style" (fix_tone m)) = false.
Proof.
  unfold fix_tone.
  destruct (negb (truthy (get "toneAndStyle" m)) && truthy (get "tone_and_style" m)) eqn:E;
    [|exact E].
  apply andb_true_iff in E as [_ E2].
  destruct m; try discriminate E2.
  now rewrite get_set_same, E2.
Qed.

Lemma fix_score_settled m :
  nullish (get "overallScore" (fix_score m))
  && negb (nullish (get "overall_score" (fix_score m))) = false.
Proof.
  unfold fix_score.
  destruct (nullish (get "overallScore" m) && negb (nullish (get "overall_score" m))) eqn:E;
    [|exact E].
  apply andb_true_iff in E as [_ E2]. apply negb_true_iff in E2.
  destruct m; try discriminate E2.
  now rewrite get_set_same, E2.
Qed.

Lemma fix_passes_idem m :
  fix_score (fix_tone (fix_score (fix_tone m))) = fix_score (fix_tone m).
Proof.
  assert (H1 : fix_tone (fix_score (fix_tone m)) = fix_score (fix_tone m)).
  { unfold fix_tone at 1. rewrite !fix_score_get by discriminate.
    now rewrite fix_tone_settled. }
  rewrite H1. unfold fix_score at 1. now rewrite fix_score_settled.
Qed.

Lemma effective_settled (m : value) :
  truthy (get "feedback" m) && is_object_type (get "feedback" m) = false ->
  effective (fix_score (fix_tone m)) = fix_score (fix_tone m).
Proof.
  intros H. unfold effective.
  rewrite fix_score_get, fix_tone_get by discriminate. now rewrite H.
Qed.

(** One more pass changes nothing once the nesting is gone. *)
Lemma reconcile_idem (x : value) :
  truthy (get "feedback" (effective x))
  && is_object_type (get "feedback" (effective x)) = false ->
  reconcile (reconcile x) = reconcile x.
Proof.
  intros H. unfold reconcile at 1.
  unfold reconcile. rewrite (effective_settled _ H). apply fix_passes_idem.
Qed.

Lemma normalizeA_object (x : value) :
  truthy x = true -> is_object_type x = true ->
  ViewerA.normalizeFeedback x = Some (reconcile x).
Proof.
  intros Ht Ho. unfold ViewerA.normalizeFeedback.
  destruct x; try discriminate; reflexivity.
Qed.

Lemma normalizeB_object (x : value) :
  truthy x = true -> is_object_type x = true ->
  ViewerB.normalizeFeedback x = Some (reconcile x).
Proof.
  intros Ht Ho. unfold ViewerB.normalizeFeedback.
  destruct x; try discriminate; reflexivity.
Qed.

Lemma fuel_of_parsed (s : string) (parsed : value) (fuel : nat) :
  JSON.parse s = Some parsed -> (String.length s <= S fuel)%nat ->
  (fuel_of parsed <= fuel)%nat.
Proof.
  intros Hp Hl. destruct parsed; simpl; try lia.
  apply JSONFacts.parse_string_shorter in Hp. lia.
Qed.

(** Any fuel above the bound gives the same result, and a result at all. *)
Lemma normalizeA_fuel (fuel : nat) :
  forall input, (fuel_of input <= fuel)%nat ->
    ViewerA.normalizeFeedback_fuel fuel input = ViewerA.normalizeFeedback input
    /\ exists r, ViewerA.normalizeFeedback input = Some r.
Proof.
  induction fuel as [fuel IH] using lt_wf_ind.
  intros input Hf. unfold ViewerA.normalizeFeedback.
  destruct input as [| |b|n|s|l|props];
    try (destruct fuel; simpl; (split; [reflexivity|eexists; reflexivity]); fail).
  - destruct fuel; simpl; (split; [reflexivity|]);
      destruct b; simpl; eauto;
      destruct (JSON.parse _); eauto.
  - destruct fuel; simpl; (split; [reflexivity|]);
      destruct (n =? 0); simpl; eauto;
      destruct (JSON.parse _); eauto.
  - simpl in Hf. destruct s as [|c s].
    { destruct fuel; simpl; eauto. }
    destruct fuel as [|fuel]; [simpl in Hf; lia|].
    simpl fuel_of.
    change (ViewerA.normalizeFeedback_fuel (S fuel) (VStr (String c s)))
      with (match JSON.parse (String c s) with
            | Some parsed => ViewerA.normalizeFeedback_fuel fuel parsed
            | None => Some (VStr (String c s))
            end).
    change (ViewerA.normalizeFeedback_fuel (S (String.length s)) (VStr (String c s)))
      with (match JSON.parse (String c s) with
            | Some parsed => ViewerA.normalizeFeedback_fuel (String.length s) parsed
            | None => Some (VStr (String c s))
            end).
    destruct (JSON.parse (String c s)) as [parsed|] eqn:Hp; [|eauto].
    assert (H1 : (fuel_of parsed <= fuel)%nat).
    { eapply fuel_of_parsed; eauto. }
    assert (H2 : (fuel_of parsed <= String.length s)%nat).
    { eapply fuel_of_parsed; eauto. }
    destruct (IH fuel ltac:(lia) parsed H1) as [-> Hr].
    simpl in Hf.
    destruct (IH (String.length s) ltac:(lia) parsed H2) as [-> _].
    auto.
Qed.

Lemma normalizeB_fuel (fuel : nat) :
  forall input, (fuel_of input <= fuel)%nat ->
    ViewerB.normalizeFeedback_fuel fuel input = ViewerB.normalizeFeedback input
    /\ exists r, ViewerB.normalizeFeedback input = Some r.
Proof.
  induction fuel as [fuel IH] using lt_wf_ind.
  intros input Hf. unfold ViewerB.normalizeFeedback.
  destruct input as [| |b|n|s|l|props];
    try (destruct fuel; simpl; (split; [reflexivity|eexists; reflexivity]); fail).
  - destruct fuel; simpl; (split; [reflexivity|]); destruct b; simpl; eauto.
  - destruct fuel; simpl; (split; [reflexivity|]);
      destruct (n =? 0); simpl; eauto.
  - simpl in Hf. destruct s as [|c s].
    { destruct fuel; simpl; eauto. }
    destruct fuel as [|fuel]; [simpl in Hf; lia|].
    simpl fuel_of.
    change (ViewerB.normalizeFeedback_fuel (S fuel) (VStr (String c s)))
      with (match JSON.parse (String c s) with
            | Some parsed => ViewerB.normalizeFeedback_fuel fuel parsed
            | None => Some VNull
            end).
    change (ViewerB.normalizeFeedback_fuel (S (String.length s)) (VStr (String c s)))
      with (match JSON.parse (String c s) with
            | Some parsed => ViewerB.normalizeFeedback_fuel (String.length s) parsed
            | None => Some VNull
            end).
    destruct (JSON.parse (String c s)) as [parsed|] eqn:Hp; [|eauto].
    assert (H1 : (fuel_of parsed <= fuel)%nat).
    { eapply fuel_of_parsed; eauto. }
    assert (H2 : (fuel_of parsed <= String.length s)%nat).
    { eapply fuel_of_parsed; eauto. }
    destruct (IH fuel ltac:(lia) parsed H1) as [-> Hr].
    simpl in Hf.
    destruct (IH (String.length s) ltac:(lia) parsed H2) as [-> _].
    auto.
Qed.

(** Both normalisers return on every input. *)
Lemma normalizeFeedback_total (input : value) :
  (exists r, ViewerA.normalizeFeedback input = Some r)
  /\ (exists r, ViewerB.normalizeFeedback input = Some r).
Proof.
  split.
  - now apply (normalizeA_fuel (fuel_of input)).
  - now apply (normalizeB_fuel (fuel_of input)).
Qed.

(** What both normalisers do with text that parses. *)
Lemma normalize_parsed (s : string) (parsed : value) :
  str_nonempty s = true -> JSON.parse s = Some parsed ->
  ViewerA.normalizeFeedback (VStr s) = ViewerA.normalizeFeedback parsed
  /\ ViewerB.normalizeFeedback (VStr s) = ViewerB.normalizeFeedback parsed.
Proof.
  intros Hne Hp. destruct s as [|c s]; [discriminate|].
  assert (H : (fuel_of parsed <= String.length s)%nat).
  { eapply fuel_of_parsed; eauto. }
  split.
  - unfold ViewerA.normalizeFeedback at 1. simpl fuel_of.
    change (ViewerA.normalizeFeedback_fuel (S (String.length s)) (VStr (String c s)))
      with (match JSON.parse (String c s) with
            | Some parsed => ViewerA.normalizeFeedback_fuel (String.length s) parsed
            | None => Some (VStr (String c s))
            end).
    rewrite Hp. now apply normalizeA_fuel.
  - unfold ViewerB.normalizeFeedback at 1. simpl fuel_of.
    change (ViewerB.normalizeFeedback_fuel (S (String.length s)) (VStr (String c s)))
      with (match JSON.parse (String c s) with
            | Some parsed => ViewerB.normalizeFeedback_fuel (String.length s) parsed
            | None => Some VNull
            end).
    rewrite Hp. now apply normalizeB_fuel.
Qed.

End NormalizerFacts.

(** ** The store's record builder *)

Module StoreFacts.
Import JSON PuterStore ObjFacts Runs.

Lemma spread_into_fold base v :
  spread_into base v = fold_left overwrite (spread_props v) base.
Proof. reflexivity. Qed.

(** A key the spread does not carry keeps the value of the literal. *)
Lemma fold_overwrite_absent k l base :
  assoc k l = None -> assoc k (fold_left overwrite l base) = assoc k base.
Proof.
  revert base. induction l as [|[k' x] l IH]; intros base H; [reflexivity|].
  simpl in H |- *. destruct (String.eqb_spec k k') as [->|Hne]; [discriminate|].
  rewrite IH by assumption. unfold overwrite. simpl.
  apply assoc_set_other. congruence.
Qed.

(** A key the spread carries takes the spread's value. *)
Lemma fold_overwrite_present k x l base :
  keys_unique l = true -> assoc k l = Some x ->
  assoc k (fold_left overwrite l base) = Some x.
Proof.
  revert base. induction l as [|[k' x'] l IH]; intros base Hu H; [discriminate|].
  simpl in Hu, H |- *.
  destruct (assoc k' l) eqn:Hk'; [discriminate|].
  destruct (String.eqb_spec k k') as [->|Hne].
  - injection H as ->. rewrite fold_overwrite_absent by assumption.
    unfold overwrite. simpl. apply assoc_set_same.
  - now apply IH.
Qed.

(** No key of the literal is lost. *)
Lemma fold_overwrite_keeps k l base :
  assoc k base <> None -> assoc k (fold_left overwrite l base) <> None.
Proof.
  revert base. induction l as [|[k' x'] l IH]; intros base H; [assumption|].
  simpl. apply IH. unfold overwrite. simpl.
  destruct (String.eqb_spec k' k) as [->|Hne].
  - now rewrite assoc_set_same.
  - now rewrite assoc_set_other.
Qed.

Lemma get_spread_absent k base v :
  assoc k (spread_props v) = None ->
  get k (VObj (spread_into base v)) = get k (VObj base).
Proof.
  intros H. simpl. now rewrite spread_into_fold, fold_overwrite_absent.
Qed.

Lemma get_spread_present k x base props :
  keys_unique props = true -> assoc k props = Some x ->
  get k (VObj (spread_into base (VObj props))) = x.
Proof.
  intros Hu H. simpl. rewrite spread_into_fold. simpl.
  now rewrite (fold_overwrite_present k x).
Qed.

Lemma has_key_spread k base v :
  has_key k (VObj base) = true -> has_key k (VObj (spread_into base v)) = true.
Proof.
  simpl. intros H. rewrite spread_into_fold.
  pose proof (fold_overwrite_keeps k (spread_props v) base) as K.
  destruct (assoc k base); [|discriminate].
  destruct (assoc k (fold_left overwrite (spread_props v) base)); [reflexivity|].
  now destruct K.
Qed.

Lemma coalesce_not_nullish a b :
  nullish b = false -> nullish (coalesce a b) = false.
Proof. unfold coalesce. destruct (nullish a) eqn:E; auto. Qed.

Lemma aiResponse_keys id parsed :
  has_key "id" (aiResponse id parsed) = true
  /\ has_key "overallScore" (aiResponse id parsed) = true
  /\ has_key "content" (aiResponse id parsed) = true
  /\ has_key "skills" (aiResponse id parsed) = true
  /\ has_key "structure" (aiResponse id parsed) = true
  /\ has_key "toneAndStyle" (aiResponse id parsed) = true
  /\ has_key "tips" (aiResponse id parsed) = true.
Proof. unfold aiResponse. repeat split; apply has_key_spread; reflexivity. Qed.



End StoreFacts.

(** ** Reasoning about runs *)

Module RunFacts.
Import Runs.

Lemma wp_ret {A} (a : A) post s : post (Ok a) s -> wp (ret a) post s.
Proof. exact (fun H => H). Qed.

Lemma wp_throw {A} e (post : outcome A -> State -> Prop) s :
  post (Throw e) s -> wp (throw e) post s.
Proof. exact (fun H => H). Qed.

Lemma wp_lift {A} (o : outcome A) post s : post o s -> wp (lift o) post s.
Proof. exact (fun H => H). Qed.

Lemma wp_modify f post s : post (Ok tt) (f s) -> wp (modify f) post s.
Proof. exact (fun H => H). Qed.

Lemma wp_bind {A B} (m : M A) (k : A -> M B) post s :
  wp m (fun r s' => match r with
                    | Ok a => wp (k a) post s'
                    | Throw e => post (Throw e) s'
                    end) s ->
  wp (bind m k) post s.
Proof.
  unfold wp, bind. destruct (m s) as [[a|e] s']; simpl; auto.
Qed.

Lemma wp_try_catch {A} (m : M A) (h : exn -> M A) post s :
  wp m (fun r s' => match r with
                    | Ok a => post (Ok a) s'
                    | Throw e => wp (h e) post s'
                    end) s ->
  wp (try_catch m h) post s.
Proof.
  unfold wp, try_catch. destruct (m s) as [[a|e] s']; simpl; auto.
Qed.

Lemma wp_finally {A} (m : M A) cleanup post s :
  wp m (fun r s' => post r (cleanup s')) s -> wp (finally m cleanup) post s.
Proof.
  unfold wp, finally. destruct (m s) as [r s']; simpl; auto.
Qed.

Lemma wp_mono {A} (m : M A) (post post' : outcome A -> State -> Prop) s :
  (forall r s', post r s' -> post' r s') -> wp m post s -> wp m post' s.
Proof. unfold wp. auto. Qed.

Lemma quiet_ret {A} allowed (a : A) : quiet allowed (ret a).
Proof. intros s. exists []. simpl. now rewrite app_nil_r. Qed.

Lemma quiet_throw {A} allowed e : quiet allowed (@throw A e).
Proof. intros s. exists []. simpl. now rewrite app_nil_r. Qed.

Lemma quiet_lift {A} allowed (o : outcome A) : quiet allowed (lift o).
Proof. intros s. exists []. simpl. now rewrite app_nil_r. Qed.

Lemma quiet_modify allowed f :
  (forall s, trace (f s) = trace s /\ kv (f s) = kv s) ->
  quiet allowed (modify f).
Proof.
  intros H s. exists []. simpl. destruct (H s) as [-> ->].
  now rewrite app_nil_r.
Qed.

Lemma quiet_log (allowed : event -> bool) e :
  allowed e = true -> quiet allowed (log e).
Proof. intros H s. exists [e]. simpl. now rewrite H. Qed.

Lemma quiet_bind {A B} allowed (m : M A) (k : A -> M B) :
  quiet allowed m -> (forall a, quiet allowed (k a)) -> quiet allowed (bind m k).
Proof.
  intros Hm Hk s. unfold bind.
  destruct (Hm s) as (e1 & T1 & F1 & K1).
  destruct (m s) as [[a|e] s1]; simpl in *.
  - destruct (Hk a s1) as (e2 & T2 & F2 & K2).
    exists (e1 ++ e2). rewrite T2, T1, K2, K1, forallb_app, F1, F2.
    now rewrite app_assoc.
  - exists e1. auto.
Qed.

Lemma quiet_try_catch {A} allowed (m : M A) (h : exn -> M A) :
  quiet allowed m -> (forall e, quiet allowed (h e)) -> quiet allowed (try_catch m h).
Proof.
  intros Hm Hh s. unfold try_catch.
  destruct (Hm s) as (e1 & T1 & F1 & K1).
  destruct (m s) as [[a|e] s1]; simpl in *.
  - exists e1. auto.
  - destruct (Hh e s1) as (e2 & T2 & F2 & K2).
    exists (e1 ++ e2). rewrite T2, T1, K2, K1, forallb_app, F1, F2.
    now rewrite app_assoc.
Qed.

Lemma quiet_setStatusText allowed v : quiet allowed (setStatusText v).
Proof. apply quiet_modify. intros s. split; reflexivity. Qed.

Lemma quiet_setError allowed msg : quiet allowed (setError msg).
Proof. apply quiet_modify. intros s. split; reflexivity. Qed.

Lemma quiet_next_fetch allowed : quiet allowed next_fetch.
Proof. intros s. exists []. simpl. now rewrite app_nil_r. Qed.

Lemma quiet_next_uuid allowed : quiet allowed next_uuid.
Proof. intros s. exists []. simpl. now rewrite app_nil_r. Qed.

End RunFacts.

(** ** The provider fallback *)

Module FallbackFacts.
Import JSON PuterStore Runs StoreFacts RunFacts.

Lemma quiet_toAIResponseFromJSON w parsed :
  quiet is_ai_event (toAIResponseFromJSON w parsed).
Proof.
  apply quiet_bind; [apply quiet_next_uuid|]. intros n. apply quiet_ret.
Qed.

Lemma quiet_ollamaFeedback w prompt : quiet is_ai_event (ollamaFeedback w prompt).
Proof.
  unfold ollamaFeedback.
  apply quiet_bind; [now apply quiet_log|]. intros _.
  apply quiet_bind; [apply quiet_next_fetch|]. intros n.
  destruct (fetch w n) as [|ok status body]; [apply quiet_throw|].
  destruct ok; simpl; [|apply quiet_throw].
  destruct body as [text|]; [|apply quiet_throw].
  destruct (JSON.parse text) as [data|]; [|apply quiet_throw].
  destruct (coalesce _ _); try apply quiet_toAIResponseFromJSON.
  destruct (JSON.parse _); apply quiet_toAIResponseFromJSON.
Qed.

Lemma quiet_readFile w path : quiet is_ai_event (readFile w path).
Proof.
  unfold readFile. destruct (puter w); simpl.
  - apply quiet_bind; [now apply quiet_log|]. intros _. apply quiet_lift.
  - apply quiet_bind; [apply quiet_setError|]. intros _. apply quiet_ret.
Qed.

Lemma quiet_ollamaBranch w path message :
  quiet is_ai_event (ollamaBranch w path message).
Proof.
  unfold ollamaBranch. apply quiet_try_catch.
  - apply quiet_bind; [apply quiet_readFile|]. intros b.
    apply quiet_ollamaFeedback.
  - intros _. apply quiet_ollamaFeedback.
Qed.

Lemma quiet_feedback w path message : quiet is_ai_event (feedback w path message).
Proof.
  unfold feedback. destruct (puter w); simpl; [|apply quiet_ollamaBranch].
  apply quiet_try_catch.
  - apply quiet_bind; [now apply quiet_log|]. intros _. apply quiet_lift.
  - intros _. apply quiet_ollamaBranch.
Qed.

(** One request: a decoded 2xx body always yields a record, anything else
    throws; either way exactly one request is used up. *)
Lemma ollamaFeedback_spec w prompt st :
  exists st',
    snd (ollamaFeedback w prompt st) = st'
    /\ fetches st' = S (fetches st)
    /\ match reply_data (fetch w (fetches st)) with
       | Some data =>
           fst (ollamaFeedback w prompt st)
           = Ok (aiResponse (randomUUID w (uuids st)) (reply_payload data))
       | None => exists e, fst (ollamaFeedback w prompt st) = Throw e
       end.
Proof.
  eexists. split; [reflexivity|].
  unfold ollamaFeedback, reply_data, reply_payload, bind, log, modify, next_fetch.
  simpl.
  destruct (fetch w (fetches st)) as [|ok status body]; simpl; [eauto|].
  destruct ok; simpl; [|eauto].
  destruct body as [text|]; simpl; [|eauto].
  destruct (JSON.parse text) as [data|]; simpl; [|eauto].
  destruct (coalesce (get "response" data) (VStr EmptyString)); simpl; auto.
  destruct (JSON.parse (trim s)); simpl; auto.
Qed.



End FallbackFacts.

(** ** The upload flow *)

Module UploadFacts.
Import JSON PuterStore Upload Runs RunFacts FallbackFacts.

Lemma wp_quiet {A} allowed (m : M A) (post : outcome A -> State -> Prop) s :
  quiet allowed m ->
  (forall r s' evs,
      trace s' = trace s ++ evs -> forallb allowed evs = true -> kv s' = kv s ->
      post r s') ->
  wp m post s.
Proof.
  intros Hq H. destruct (Hq s) as (evs & T & F & K). unfold wp. eauto.
Qed.

Lemma wp_next_upload post s :
  post (Ok (uploads s)) (bump_uploads s) -> wp next_upload post s.
Proof. exact (fun H => H). Qed.

Lemma wp_finish (w : World) (data' : value) post s :
  puter w = true ->
  post (Ok tt)
    (with_event (redirect w)
       (with_status (VStr "Analysis complete. Redirecting...")
          (with_kv (key_of w) (stringify_str data')
             (with_event (saved w data') s)))) ->
  wp (setKV w (resumeKey (generateUUID w)) (stringify_str data') ;;;
      setStatusText (VStr "Analysis complete. Redirecting...") ;;;
      log (EvNavigate ("/resume/" +:+ generateUUID w))) post s.
Proof.
  intros P H. unfold setKV. rewrite P. simpl negb. cbv iota.
  apply wp_bind, wp_bind, wp_modify, wp_bind, wp_modify, wp_ret.
  apply wp_bind, wp_modify, wp_modify. exact H.
Qed.

Lemma analyze_shape (w : World) (p : Params) (uploadedPdf data : value) (s : State) :
  puter w = true ->
  analysis_shape w data (trace s) (kv s)
    (trace (snd (analyze w p uploadedPdf data s)))
    (kv (snd (analyze w p uploadedPdf data s))).
Proof.
  intros P.
  change (wp (analyze w p uploadedPdf data)
            (fun _ s' => analysis_shape w data (trace s) (kv s) (trace s') (kv s')) s).
  unfold analyze. apply wp_bind, wp_modify, wp_bind.
  eapply wp_quiet; [apply quiet_feedback|].
  intros [fb|e] s1 ai T F K; simpl in T, K.
  2:{ rewrite T, K. now constructor. }
  destruct (truthy fb).
  2:{ apply wp_modify. simpl. rewrite T, K. now constructor. }
  simpl negb. cbv iota.
  apply wp_bind, wp_lift.
  destruct (extractFeedbackText fb) as [feedbackText|e].
  2:{ rewrite T, K. now constructor. }
  destruct (truthy feedbackText).
  2:{ apply wp_modify. simpl. rewrite T, K. now constructor. }
  simpl negb. cbv iota beta zeta.
  destruct (JSON.parse (toString feedbackText)) as [parsed|].
  - apply wp_finish; [exact P|]. simpl. rewrite T, K, <- !app_assoc.
    now apply (AnalysisSaved w data (trace s) (kv s) ai parsed).
  - destruct (is_object_type fb).
    + apply wp_finish; [exact P|]. simpl. rewrite T, K, <- !app_assoc.
      now apply (AnalysisSaved w data (trace s) (kv s) ai fb).
    + apply wp_modify. simpl. rewrite T, K. now constructor.
Qed.

Lemma handleAnalyze_shape (w : World) (p : Params) (st : State) :
  flow_shape w p (trace st) (kv st)
    (trace (snd (handleAnalyze w p st))) (kv (snd (handleAnalyze w p st))).
Proof.
  set (Sh := flow_shape w p (trace st) (kv st)).
  change (wp (handleAnalyze w p) (fun _ s' => Sh (trace s') (kv s')) st).
  unfold handleAnalyze.
  apply wp_finally, wp_try_catch.
  apply (wp_mono _ (fun _ s' => Sh (trace s') (kv s'))).
  { intros [a|e] s' H; exact H. }
  apply wp_bind, wp_modify, wp_bind, wp_modify, wp_bind.
  unfold upload at 1. destruct (puter w) eqn:P; simpl negb; cbv iota.
  2:{ apply wp_bind, wp_modify, wp_ret, wp_modify. simpl.
      rewrite <- (app_nil_r (trace st)). now apply (FlowStopped w p _ _ []). }
  apply wp_bind, wp_modify, wp_bind, wp_next_upload, wp_lift.
  destruct (fs_upload w _) as [raw1|e1].
  2:{ simpl. now apply (FlowStopped w p _ _ [EvUpload]). }
  cbv zeta.
  destruct (truthy (get "path" (pickUploaded raw1))) eqn:T1; simpl negb; cbv iota.
  2:{ apply wp_modify. simpl. now apply (FlowStopped w p _ _ [EvUpload]). }
  apply wp_bind, wp_modify, wp_bind, wp_modify, wp_bind, wp_lift.
  destruct (convertPdfToImage w) as [imageResult|e2].
  2:{ simpl. rewrite <- app_assoc.
      now apply (FlowStopped w p _ _ [EvUpload; EvConvert]). }
  cbv zeta.
  destruct (truthy (coalesce (get "file" imageResult) VNull)); simpl negb; cbv iota.
  2:{ apply wp_modify. simpl. rewrite <- app_assoc.
      now apply (FlowStopped w p _ _ [EvUpload; EvConvert]). }
  apply wp_bind, wp_modify, wp_bind.
  unfold upload. rewrite P. simpl negb. cbv iota.
  apply wp_bind, wp_modify, wp_bind, wp_next_upload, wp_lift.
  destruct (fs_upload w _) as [raw2|e3].
  2:{ simpl. rewrite <- !app_assoc.
      now apply (FlowStopped w p _ _ [EvUpload; EvConvert; EvUpload]). }
  cbv zeta.
  destruct (truthy (get "path" (pickUploaded raw2))) eqn:T2; simpl negb; cbv iota.
  2:{ apply wp_modify. simpl. rewrite <- !app_assoc.
      now apply (FlowStopped w p _ _ [EvUpload; EvConvert; EvUpload]). }
  apply wp_bind, wp_modify, wp_bind.
  unfold setKV. rewrite P. simpl negb. cbv iota.
  apply wp_bind, wp_modify, wp_bind, wp_modify, wp_ret.
  set (pdf := get "path" (pickUploaded raw1)) in *.
  set (img := get "path" (pickUploaded raw2)) in *.
  match goal with |- wp _ _ ?s => set (s4 := s) end.
  pose proof (analyze_shape w p (pickUploaded raw1) (placeholder w p pdf img) s4 P) as HA.
  assert (Ht : trace s4 = trace st ++ [EvUpload; EvConvert; EvUpload]
                            ++ [saved w (placeholder w p pdf img)]).
  { subst s4. simpl. now rewrite <- !app_assoc. }
  assert (Hk : kv s4 = <[key_of w := stringify_str (placeholder w p pdf img)]> (kv st)).
  { reflexivity. }
  rewrite Ht, Hk in HA.
  unfold wp.
  destruct (analyze w p (pickUploaded raw1) (placeholder w p pdf img) s4) as [[[]|e4] s5];
    simpl in HA |- *;
    (inversion HA as [ai F E1 E2|ai fb F E1 E2];
     [ rewrite <- !app_assoc; simpl app;
       now apply (FlowPlaceholder w p _ _ [EvUpload; EvConvert; EvUpload] pdf img ai)
     | rewrite <- !app_assoc; simpl app;
       now apply (FlowFinal w p _ _ [EvUpload; EvConvert; EvUpload] pdf img ai fb) ]).
Qed.

End UploadFacts.

(** * The claims *)

Module Claims.
Import JSON Normalizer ObjFacts NormalizerFacts Types.
Import PuterStore Upload Runs Scenarios StoreFacts RunFacts FallbackFacts UploadFacts.

(** ** Feedback normalisation *)

(** C3, counterexample.  A doubly nested object is not a fixed point after
    one call: the first call peels one [feedback] level, the second call
    peels the next one. *)
Lemma C3_doubly_nested_not_idempotent :
  exists y z,
    ViewerA.normalizeFeedback doublyNested = Some y
    /\ ViewerA.normalizeFeedback y = Some z
    /\ ViewerB.normalizeFeedback doublyNested = Some y
    /\ ViewerB.normalizeFeedback y = Some z
    /\ y <> z.
Proof.
  exists (VObj [("feedback", VObj [("overallScore", VNum 82)])]),
         (VObj [("overallScore", VNum 82)]).
  repeat split; try reflexivity. discriminate.
Qed.

(** C3, as amended.  For every object-shaped [x] whose effective object (the
    nested [feedback] object when there is one, else [x] itself) has no
    object under [feedback], both normalisers are idempotent at [x]: the
    second call returns what the first returned.  This covers plain objects
    and the single-level unwrap; it leaves out deeper nesting. *)
Theorem C3_idempotent_up_to_one_unwrap (x : value) :
  truthy x = true -> is_object_type x = true ->
  truthy (get "feedback" (effective x))
  && is_object_type (get "feedback" (effective x)) = false ->
  exists r,
    ViewerA.normalizeFeedback x = Some r /\ ViewerA.normalizeFeedback r = Some r
    /\ ViewerB.normalizeFeedback x = Some r /\ ViewerB.normalizeFeedback r = Some r.
Proof.
  intros Ht Ho Hflat.
  destruct (reconcile_object x Ht Ho) as [Ht' Ho'].
  exists (reconcile x).
  rewrite (normalizeA_object x Ht Ho), (normalizeB_object x Ht Ho).
  rewrite (normalizeA_object _ Ht' Ho'), (normalizeB_object _ Ht' Ho').
  rewrite (reconcile_idem x Hflat). auto.
Qed.

Lemma C3_idempotent_witness :
  exists r,
    ViewerA.normalizeFeedback singlyNested = Some r
    /\ ViewerA.normalizeFeedback r = Some r
    /\ ViewerB.normalizeFeedback singlyNested = Some r
    /\ ViewerB.normalizeFeedback r = Some r.
Proof.
  apply (C3_idempotent_up_to_one_unwrap singlyNested); reflexivity.
Defined.

(** C7, counterexample.  An object with [tone_and_style] set and
    [toneAndStyle] unset that also carries a nested [feedback] object is
    replaced by that nested object: the result has neither key. *)
Lemma C7_variant_lost_by_unwrap :
  truthy (get "tone_and_style" wrappedWithVariant) = true
  /\ truthy (get "toneAndStyle" wrappedWithVariant) = false
  /\ exists r,
       ViewerA.normalizeFeedback wrappedWithVariant = Some r
       /\ ViewerB.normalizeFeedback wrappedWithVariant = Some r
       /\ get "toneAndStyle" r <> get "tone_and_style" wrappedWithVariant
       /\ has_key "tone_and_style" r = false.
Proof.
  split; [reflexivity|]. split; [reflexivity|].
  exists (VObj [("overallScore", VNum 82)]).
  repeat split; try reflexivity. discriminate.
Qed.

(** C7, as amended.  Key-variant reconciliation works on the effective
    object [m] (the nested [feedback] object when there is one, else the
    input).  When [m] has a truthy [tone_and_style] and a falsy
    [toneAndStyle], the result has [toneAndStyle] equal to [m]'s
    [tone_and_style], which is still there.  When [m] has both [overallScore]
    and [overall_score] non-null, the result keeps [m]'s [overallScore], and
    [overall_score] is still there.  Both viewers agree. *)
Theorem C7_key_variants_on_effective_object (x : value) :
  truthy x = true -> is_object_type x = true ->
  exists r,
    ViewerA.normalizeFeedback x = Some r
    /\ ViewerB.normalizeFeedback x = Some r
    /\ (truthy (get "tone_and_style" (effective x)) = true ->
        truthy (get "toneAndStyle" (effective x)) = false ->
        get "toneAndStyle" r = get "tone_and_style" (effective x)
        /\ get "tone_and_style" r = get "tone_and_style" (effective x)
        /\ has_key "tone_and_style" r = true)
    /\ (nullish (get "overallScore" (effective x)) = false ->
        nullish (get "overall_score" (effective x)) = false ->
        get "overallScore" r = get "overallScore" (effective x)
        /\ get "overall_score" r = get "overall_score" (effective x)
        /\ has_key "overall_score" r = true).
Proof.
  intros Ht Ho. exists (reconcile x).
  rewrite (normalizeA_object x Ht Ho), (normalizeB_object x Ht Ho).
  split; [reflexivity|]. split; [reflexivity|].
  unfold reconcile. set (m := effective x). split.
  - intros Hsnake Hcamel.
    rewrite !fix_score_get by discriminate.
    rewrite (fix_tone_get "tone_and_style") by discriminate.
    split; [|split; [reflexivity|]].
    + unfold fix_tone. rewrite Hsnake, Hcamel. simpl.
      destruct m; try discriminate Hsnake. apply get_set_same.
    + apply fix_score_has_key, fix_tone_has_key. now apply truthy_has_key.
  - intros Hcamel Hsnake.
    rewrite (fix_score_get "overall_score") by discriminate.
    rewrite (fix_tone_get "overall_score") by discriminate.
    split; [|split; [reflexivity|]].
    + unfold fix_score. rewrite !fix_tone_get by discriminate.
      rewrite Hcamel. simpl. apply fix_tone_get. discriminate.
    + apply fix_score_has_key, fix_tone_has_key. now apply not_nullish_has_key.
Qed.

Lemma C7_key_variants_witness :
  exists r,
    ViewerA.normalizeFeedback snakeCased = Some r
    /\ ViewerB.normalizeFeedback snakeCased = Some r
    /\ (get "toneAndStyle" r = VObj [("score", VNum 70)]
        /\ get "tone_and_style" r = VObj [("score", VNum 70)]
        /\ has_key "tone_and_style" r = true)
    /\ (get "overallScore" r = VNum 82
        /\ get "overall_score" r = VNum 10
        /\ has_key "overall_score" r = true).
Proof.
  destruct (C7_key_variants_on_effective_object snakeCased)
    as (r & HA & HB & Htone & Hscore); [reflexivity|reflexivity|].
  exists r. split; [exact HA|]. split; [exact HB|]. split.
  - apply Htone; reflexivity.
  - apply Hscore; reflexivity.
Defined.

(** C8.  For every valid record, normalising the JSON text of its feedback
    gives what normalising the feedback itself gives, in both viewers, and
    both calls return. *)
Theorem C8_normalize_after_stringify (r : ResumeData) :
  valid_record r = true ->
  exists s out_a out_b,
    JSON.stringify (Types.feedback r) = Some s
    /\ ViewerA.normalizeFeedback (VStr s) = Some out_a
    /\ ViewerA.normalizeFeedback (Types.feedback r) = Some out_a
    /\ ViewerB.normalizeFeedback (VStr s) = Some out_b
    /\ ViewerB.normalizeFeedback (Types.feedback r) = Some out_b.
Proof.
  unfold valid_record. intros Hv.
  assert (Hc : json_clean (Types.feedback r) = true).
  { destruct (Types.feedback r); try discriminate; [reflexivity|exact Hv]. }
  assert (Hd : Types.feedback r <> VUndefined).
  { intros E. rewrite E in Hv. discriminate. }
  destruct (JSONFacts.stringify_defined _ Hd) as (c & s & Hs).
  pose proof (JSONFacts.parse_stringify _ _ Hc Hs) as Hp.
  destruct (normalize_parsed (String c s) (Types.feedback r) eq_refl Hp) as [HA HB].
  destruct (normalizeFeedback_total (Types.feedback r)) as [[a Ha] [b Hb]].
  exists (String c s), a, b.
  rewrite HA, HB. auto.
Qed.

Lemma C8_normalize_after_stringify_witness :
  exists s out_a out_b,
    JSON.stringify (Types.feedback storedRecord) = Some s
    /\ ViewerA.normalizeFeedback (VStr s) = Some out_a
    /\ ViewerA.normalizeFeedback (Types.feedback storedRecord) = Some out_a
    /\ ViewerB.normalizeFeedback (VStr s) = Some out_b
    /\ ViewerB.normalizeFeedback (Types.feedback storedRecord) = Some out_b.
Proof.
  apply (C8_normalize_after_stringify storedRecord). reflexivity.
Defined.



(** ** The provider fallback *)










(** ** The response extractor *)

Lemma string_type_inv (v : value) :
  is_string_type v = true -> exists s, v = VStr s.
Proof. destruct v; try discriminate. eauto. Qed.

(** A property that reads as a string or as an array belongs to something
    that is neither [null] nor [undefined]. *)
Lemma member_defined (k : string) (v : value) :
  get k v <> VUndefined -> member k v = Ok (get k v).
Proof.
  intros H. unfold member. destruct v; try reflexivity; now destruct H.
Qed.

Lemma element_array (i : nat) (v : value) :
  isArray v = true -> element i v = Ok (get_index i v).
Proof. destruct v; try discriminate. reflexivity. Qed.

(** C6.  [extractFeedbackText] returns a string as it is, the string under
    [message.content], the [text] of the first element of a
    [message.content] array, the JSON text of an object with none of these,
    and the empty string for [null] and every other falsy input; on every
    input it returns a string and throws nothing. *)
Theorem C6_extractFeedbackText_cases :
  (forall s, extractFeedbackText (VStr s) = Ok (VStr s))
  /\ extractFeedbackText (VStr "hello") = Ok (VStr "hello")
  /\ extractFeedbackText (VObj [("message", VObj [("content", VStr "hi")])])
     = Ok (VStr "hi")
  /\ extractFeedbackText
       (VObj [("message", VObj [("content", VArr [VObj [("text", VStr "yo")]])])])
     = Ok (VStr "yo")
  /\ extractFeedbackText (VObj [("foo", VNum 1)])
     = Ok (VStr ("{" +:+ dq +:+ "foo" +:+ dq +:+ ":1}"))
  /\ extractFeedbackText VNull = Ok (VStr EmptyString)
  /\ (forall v, truthy v = false -> extractFeedbackText v = Ok (VStr EmptyString))
  /\ (forall v, exists s, extractFeedbackText v = Ok (VStr s)).
Proof.
  repeat split; try reflexivity.
  - intros [|c s]; reflexivity.
  - intros v H. unfold extractFeedbackText. now rewrite H.
  - intros v. unfold extractFeedbackText.
    destruct (truthy v) eqn:Ht; simpl; [|eauto].
    destruct (is_string_type v) eqn:Hs.
    { destruct (string_type_inv v Hs) as [s ->]. eauto. }
    set (msg := get "message" v).
    destruct (is_string_type (get "content" msg)) eqn:Hc.
    { destruct (string_type_inv _ Hc) as [s Es].
      rewrite member_defined by (rewrite Es; discriminate). rewrite Es. eauto. }
    destruct (isArray (get "content" msg)
              && is_string_type (get "text" (get_index 0 (get "content" msg)))) eqn:Ha.
    { apply andb_true_iff in Ha as [Harr Htext].
      destruct (string_type_inv _ Htext) as [s Es].
      rewrite member_defined.
      2:{ intros E. rewrite E in Harr. discriminate. }
      simpl and_then. rewrite (element_array 0 _ Harr). simpl and_then.
      rewrite member_defined by (rewrite Es; discriminate). rewrite Es. eauto. }
    destruct (is_object_type v) eqn:Ho; [|eauto].
    unfold stringify_str.
    destruct (JSONFacts.stringify_defined v) as (c & r & ->); [|eauto].
    intros ->. discriminate.
Qed.

(** ** The persistence round trip *)






Lemma filter_kv_none (allowed : event -> bool) (l : list event) :
  (forall e, allowed e = true -> is_kv_event e = false) ->
  forallb allowed l = true -> List.filter is_kv_event l = [].
Proof.
  intros Ha. induction l as [|e l IH]; [reflexivity|].
  simpl. intros H. apply andb_true_iff in H as [He Hl].
  rewrite (Ha e He). auto.
Qed.

Lemma filter_kv_setup (l : list event) :
  forallb is_setup_event l = true -> List.filter is_kv_event l = [].
Proof. apply filter_kv_none. now intros []. Qed.

Lemma filter_kv_ai (l : list event) :
  forallb is_ai_event l = true -> List.filter is_kv_event l = [].
Proof. apply filter_kv_none. now intros []. Qed.

Lemma placeholder_clean (w : World) (p : Params) (pdf img fb : value) :
  json_clean (set "feedback" fb (placeholder w p pdf img)) = true ->
  json_clean (placeholder w p pdf img) = true.
Proof.
  unfold placeholder. simpl.
  destruct (json_clean pdf), (json_clean img); simpl; auto.
Qed.

(** A record that JSON text can denote is read back from its text as it
    was. *)
Lemma stringify_str_reads_back (d : value) :
  json_clean d = true ->
  exists s, stringify_str d = VStr s /\ JSON.parse s = Some d.
Proof.
  intros Hc. unfold stringify_str.
  assert (Hd : d <> VUndefined) by (intros ->; discriminate).
  destruct (JSONFacts.stringify_defined d Hd) as (c & r & Hs).
  rewrite Hs. exists (String c r). split; [reflexivity|].
  now apply JSONFacts.parse_stringify.
Qed.

(** C10.  The writes of one run of [handleAnalyze], in order, are: none; or
    the placeholder record alone; or the placeholder record and then the
    final record, both under the key [resume:<id>].  The final record is the
    placeholder with [feedback] assigned: every other property, and so each
    of [id], [resumePath], [imagePath], [companyName], [jobTitle] and
    [jobDescription], reads the same in both; and when the final record is
    one that JSON text can denote, the two persisted texts read back as
    these two records. *)
Theorem C10_writes_differ_in_feedback_only (w : World) (p : Params) (st : State) :
  exists evs,
    trace (snd (handleAnalyze w p st)) = trace st ++ evs
    /\ (List.filter is_kv_event evs = []
        \/ exists d0,
             (exists pdf img, d0 = placeholder w p pdf img)
             /\ get "feedback" d0 = VStr EmptyString
             /\ (List.filter is_kv_event evs
                 = [EvKvSet ("resume:" +:+ generateUUID w) (stringify_str d0)]
                 \/ exists d1,
                      List.filter is_kv_event evs
                      = [ EvKvSet ("resume:" +:+ generateUUID w) (stringify_str d0);
                          EvKvSet ("resume:" +:+ generateUUID w) (stringify_str d1) ]
                      /\ (exists fb, d1 = set "feedback" fb d0)
                      /\ (forall f, f <> "feedback" ->
                             get f d1 = get f d0 /\ has_key f d1 = has_key f d0)
                      /\ (forall f, In f recordFields -> get f d1 = get f d0)
                      /\ (json_clean d1 = true ->
                          exists s0 s1,
                            stringify_str d0 = VStr s0 /\ JSON.parse s0 = Some d0
                            /\ stringify_str d1 = VStr s1 /\ JSON.parse s1 = Some d1))).
Proof.
  pose proof (handleAnalyze_shape w p st) as H.
  inversion H as [pre F T K|pre pdf img ai F Tp Ti Fa T K|pre pdf img ai fb F Tp Ti Fa T K].
  - exists pre. split; [reflexivity|]. left. now apply filter_kv_setup.
  - exists (pre ++ saved w (placeholder w p pdf img) :: ai).
    split; [reflexivity|]. right.
    exists (placeholder w p pdf img). split; [eauto|]. split; [reflexivity|]. left.
    rewrite List.filter_app, (filter_kv_setup pre F). simpl.
    now rewrite (filter_kv_ai ai Fa).
  - exists (pre ++ saved w (placeholder w p pdf img) :: ai
              ++ [saved w (set "feedback" fb (placeholder w p pdf img)); redirect w]).
    split; [reflexivity|]. right.
    exists (placeholder w p pdf img). split; [eauto|]. split; [reflexivity|]. right.
    exists (set "feedback" fb (placeholder w p pdf img)).
    split; [|split; [eauto|split; [|split]]].
    + rewrite List.filter_app, (filter_kv_setup pre F). simpl.
      now rewrite List.filter_app, (filter_kv_ai ai Fa).
    + intros f Hf. split.
      * apply get_set_other. congruence.
      * apply has_key_set_other. congruence.
    + intros f Hf. apply get_set_other.
      simpl in Hf. intuition (subst; discriminate).
    + intros Hc.
      destruct (stringify_str_reads_back _ (placeholder_clean w p pdf img fb Hc))
        as (s0 & E0 & P0).
      destruct (stringify_str_reads_back _ Hc) as (s1 & E1 & P1).
      exists s0, s1. auto.
Qed.

End Claims.
(** * The rest of the code: facts and properties *)


Module EndingFacts.
Import JSON PuterStore Upload Runs Endings.
Import ObjFacts StoreFacts RunFacts FallbackFacts UploadFacts.

Lemma count_app kind (a b : list event) :
  count kind (a ++ b) = (count kind a + count kind b)%nat.
Proof. unfold count. now rewrite List.filter_app, List.length_app. Qed.

Lemma count_none kind (l : list event) :
  forallb (fun e => negb (kind e)) l = true -> count kind l = O.
Proof.
  unfold count. induction l as [|e l IH]; simpl; [reflexivity|].
  destruct (kind e); simpl; [discriminate|]. exact IH.
Qed.

(** One request to the local model: one [EvFetch], one request used up, at
    most one id drawn. *)
Lemma ollamaFeedback_calls w prompt s :
  let s' := snd (ollamaFeedback w prompt s) in
  trace s' = trace s ++ [EvFetch (strictPrompt prompt)]
  /\ kv s' = kv s /\ uploads s' = uploads s
  /\ fetches s' = S (fetches s)
  /\ (uuids s' <= S (uuids s))%nat
  /\ (forall e, fst (ollamaFeedback w prompt s) = Throw e -> uuids s' = uuids s).
Proof.
  unfold ollamaFeedback, bind, log, modify, next_fetch, toAIResponseFromJSON,
    next_uuid, throw, ret. simpl.
  destruct (fetch w (fetches s)) as [|ok status body]; simpl.
  { repeat split; auto. }
  destruct ok; simpl; [|repeat split; auto].
  destruct body as [text|]; simpl; [|repeat split; auto].
  destruct (JSON.parse text) as [data|]; simpl; [|repeat split; auto].
  destruct (coalesce (get "response" data) (VStr EmptyString)); simpl;
    try (repeat split; auto; discriminate).
  destruct (JSON.parse (trim s0)); simpl; repeat split; auto; discriminate.
Qed.

Lemma readFile_calls w path s :
  let s' := snd (readFile w path s) in
  (trace s' = trace s \/ trace s' = trace s ++ [EvRead path])
  /\ kv s' = kv s /\ uploads s' = uploads s
  /\ fetches s' = fetches s /\ uuids s' = uuids s.
Proof.
  unfold readFile. destruct (puter w); simpl; repeat split; auto.
Qed.

Lemma ollamaBranch_calls w path message s :
  let s' := snd (ollamaBranch w path message s) in
  exists evs,
    trace s' = trace s ++ evs
    /\ forallb is_ai_event evs = true
    /\ count is_chat evs = O
    /\ (count is_read evs <= 1)%nat
    /\ (count is_fetch evs <= 2)%nat
    /\ kv s' = kv s /\ uploads s' = uploads s
    /\ (fetches s' <= fetches s + 2)%nat
    /\ (uuids s' <= uuids s + 1)%nat.
Proof.
  unfold ollamaBranch, try_catch, bind.
  destruct (readFile_calls w path s) as (Tr & Kr & Ur & Fr & Ir).
  destruct (readFile w path s) as [[b|e0] s1]; simpl in Tr, Kr, Ur, Fr, Ir.
  - set (prompt := combined message path _).
    destruct (ollamaFeedback_calls w prompt s1) as (T1 & K1 & U1 & F1 & I1 & J1).
    destruct (ollamaFeedback w prompt s1) as [[r|e1] s2] eqn:E1; simpl in *.
    + exists (List.skipn (List.length (trace s)) (trace s2)).
      destruct Tr as [Tr|Tr]; rewrite T1, Tr, <- ?app_assoc, List.skipn_app,
        List.skipn_all, Nat.sub_diag; cbn; repeat split; auto; try congruence; lia.
    + pose proof (J1 e1 eq_refl) as J.
      destruct (ollamaFeedback_calls w message s2) as (T2 & K2 & U2 & F2 & I2 & _).
      destruct (ollamaFeedback w message s2) as [r2 s3]; simpl in T2, K2, U2, F2, I2 |- *.
      exists (List.skipn (List.length (trace s)) (trace s3)).
      destruct Tr as [Tr|Tr]; rewrite T2, T1, Tr, <- ?app_assoc, List.skipn_app,
        List.skipn_all, Nat.sub_diag; cbn; repeat split; auto; try congruence; lia.
  - destruct (ollamaFeedback_calls w message s1) as (T2 & K2 & U2 & F2 & I2 & _).
    destruct (ollamaFeedback w message s1) as [r2 s3]; simpl in T2, K2, U2, F2, I2 |- *.
    exists (List.skipn (List.length (trace s)) (trace s3)).
    destruct Tr as [Tr|Tr]; rewrite T2, Tr, <- ?app_assoc, List.skipn_app,
      List.skipn_all, Nat.sub_diag; cbn; repeat split; auto; try congruence; lia.
Qed.

Lemma feedback_calls w path message s :
  let s' := snd (PuterStore.feedback w path message s) in
  exists evs,
    trace s' = trace s ++ evs
    /\ within_feedback_budget evs
    /\ kv s' = kv s /\ uploads s' = uploads s
    /\ (fetches s' <= fetches s + 2)%nat
    /\ (uuids s' <= uuids s + 1)%nat.
Proof.
  unfold PuterStore.feedback, within_feedback_budget.
  destruct (puter w); simpl negb; cbv iota.
  2:{ destruct (ollamaBranch_calls w path message s)
        as (evs & T & A & C & R & F & K & U & Fe & I).
      exists evs. repeat split; auto. lia. }
  unfold try_catch, bind, log, modify, lift. simpl.
  destruct (ai_chat w) as [v|e]; simpl.
  - exists [EvChat path message]. cbn. repeat split; auto; lia.
  - destruct (ollamaBranch_calls w path message (with_event (EvChat path message) s))
      as (evs & T & A & C & R & F & K & U & Fe & I).
    exists (EvChat path message :: evs). rewrite T. simpl trace.
    rewrite <- app_assoc. simpl app.
    change (EvChat path message :: evs) with ([EvChat path message] ++ evs).
    rewrite !count_app, C. cbn. rewrite A.
    repeat split; auto; lia.
Qed.

Lemma wp_feedback w path message (post : outcome value -> State -> Prop) s :
  (forall r s' evs,
      trace s' = trace s ++ evs -> within_feedback_budget evs ->
      uploads s' = uploads s -> (fetches s' <= fetches s + 2)%nat ->
      (uuids s' <= uuids s + 1)%nat -> post r s') ->
  wp (PuterStore.feedback w path message) post s.
Proof.
  intros H. destruct (feedback_calls w path message s) as (evs & T & B & K & U & F & I).
  unfold wp. eauto.
Qed.

Lemma analyze_run (w : World) (p : Params) (uploadedPdf data : value) (s : State) :
  puter w = true ->
  wp (analyze w p uploadedPdf data)
     (fun r s' => exists ai,
        within_feedback_budget ai
        /\ uploads s' = uploads s
        /\ (fetches s' <= fetches s + 2)%nat
        /\ (uuids s' <= uuids s + 1)%nat
        /\ analysis_ending w data (trace s) ai r s') s.
Proof.
  intros P. unfold analyze. apply wp_bind, wp_modify, wp_bind, wp_feedback.
  intros [fb|e] s1 ai T B U F I; simpl in T, U, F, I.
  2:{ exists ai; do 4 (split; [assumption|]). left. eauto. }
  assert (Herr : forall m, In m fixedErrors ->
            wp (setStatusText (VStr m))
               (fun r s' => exists ai0, within_feedback_budget ai0
                  /\ uploads s' = uploads s
                  /\ (fetches s' <= fetches s + 2)%nat
                  /\ (uuids s' <= uuids s + 1)%nat
                  /\ analysis_ending w data (trace s) ai0 r s') s1).
  { intros m Hm. apply wp_modify. exists ai; do 4 (split; [assumption|]).
    left. split; [exact T|]. right. split; [reflexivity|]. exists m. auto. }
  destruct (truthy fb); simpl negb; cbv iota.
  2:{ apply Herr. simpl. auto 10. }
  apply wp_bind, wp_lift.
  destruct (extractFeedbackText fb) as [feedbackText|e].
  2:{ exists ai; do 4 (split; [assumption|]). left. eauto. }
  destruct (truthy feedbackText); simpl negb; cbv iota.
  2:{ apply Herr. simpl. auto 10. }
  cbv beta zeta.
  destruct (JSON.parse (toString feedbackText)) as [parsed|].
  - apply wp_finish; [exact P|]. exists ai; do 4 (split; [assumption|]).
    right. exists parsed. simpl. rewrite T, <- !app_assoc. auto.
  - destruct (is_object_type fb).
    + apply wp_finish; [exact P|]. exists ai; do 4 (split; [assumption|]).
      right. exists fb. simpl. rewrite T, <- !app_assoc. auto.
    + apply Herr. simpl. auto 10.
Qed.

Lemma ai_counts (ai : list event) :
  forallb is_ai_event ai = true ->
  count is_upload ai = O /\ count is_convert ai = O
  /\ count is_kv_event ai = O /\ count is_navigate ai = O.
Proof.
  intros H. repeat split; apply count_none;
    (induction ai as [|e ai IH]; [reflexivity|]);
    simpl in H |- *; apply andb_prop in H as [He H];
    (destruct e; try discriminate He; simpl; auto).
Qed.

(** The body of the [try]: the events so far stay within the budget; a
    normal end leaves a final status, a throw happens before any redirect. *)
Lemma handleAnalyze_body (w : World) (p : Params) (st : State) (post : outcome unit -> State -> Prop) :
  (forall r s' evs,
      trace s' = trace st ++ evs -> within_budget evs ->
      (uploads s' <= uploads st + 2)%nat ->
      (fetches s' <= fetches st + 2)%nat ->
      (uuids s' <= uuids st + 1)%nat ->
      match r with
      | Ok _ => ending w evs (statusText s')
      | Throw _ => count is_navigate evs = O
      end ->
      post r s') ->
  wp (setIsProcessing true ;;;
      setStatusText (VStr "Uploading the PDF...") ;;;
      uploadedPdfRaw <-- upload w ;;
      let uploadedPdf := pickUploaded uploadedPdfRaw in
      if negb (truthy (get "path" uploadedPdf)) then
        setStatusText (VStr "Error: Failed to upload PDF.")
      else
        setStatusText (VStr "Converting to image...") ;;;
        log EvConvert ;;;
        imageResult <-- lift (convertPdfToImage w) ;;
        let imageFile := coalesce (get "file" imageResult) VNull in
        if negb (truthy imageFile) then
          setStatusText
            (or_else (get "error" imageResult)
               (VStr "Error: Failed to convert PDF to image."))
        else
          setStatusText (VStr "Uploading the image...") ;;;
          uploadedImgRaw <-- upload w ;;
          let uploadedImg := pickUploaded uploadedImgRaw in
          if negb (truthy (get "path" uploadedImg)) then
            setStatusText (VStr "Error: Failed to upload image.")
          else
            setStatusText (VStr "Preparing data...") ;;;
            let data := placeholder w p (get "path" uploadedPdf) (get "path" uploadedImg) in
            setKV w (resumeKey (generateUUID w)) (stringify_str data) ;;;
            analyze w p uploadedPdf data) post st.
Proof.
  intros H.
  assert (Hfixed : forall m evs,
            In m fixedErrors -> count is_navigate evs = O ->
            ending w evs (VStr m)).
  { intros m evs Hm Hn. right. split; [exact Hn|]. left. exists m. auto. }
  apply wp_bind, wp_modify, wp_bind, wp_modify, wp_bind.
  unfold upload at 1. destruct (puter w) eqn:P; simpl negb; cbv iota.
  2:{ apply wp_bind, wp_modify, wp_ret, wp_modify.
      apply (H _ _ []); simpl; try lia.
      - now rewrite app_nil_r.
      - unfold within_budget. cbn. lia.
      - apply Hfixed; simpl; auto. }
  apply wp_bind, wp_modify, wp_bind, wp_next_upload, wp_lift.
  destruct (fs_upload w _) as [raw1|e1].
  2:{ apply (H _ _ [EvUpload]); simpl; try lia; auto.
      unfold within_budget. cbn. lia. }
  cbv zeta.
  destruct (truthy (get "path" (pickUploaded raw1))) eqn:T1; simpl negb; cbv iota.
  2:{ apply wp_modify. apply (H _ _ [EvUpload]); simpl; try lia; auto.
      - unfold within_budget. cbn. lia.
      - apply Hfixed; simpl; auto. }
  apply wp_bind, wp_modify, wp_bind, wp_modify, wp_bind, wp_lift.
  destruct (convertPdfToImage w) as [imageResult|e2] eqn:Cv.
  2:{ apply (H _ _ [EvUpload; EvConvert]); simpl; try lia; auto.
      - now rewrite <- app_assoc.
      - unfold within_budget. cbn. lia. }
  cbv zeta.
  destruct (truthy (coalesce (get "file" imageResult) VNull)); simpl negb; cbv iota.
  2:{ apply wp_modify. apply (H _ _ [EvUpload; EvConvert]); simpl; try lia; auto.
      - now rewrite <- app_assoc.
      - unfold within_budget. cbn. lia.
      - unfold or_else. destruct (truthy (get "error" imageResult)) eqn:Te.
        + right. split; [reflexivity|]. right. exists imageResult. auto.
        + right. split; [reflexivity|]. left.
          exists "Error: Failed to convert PDF to image.". simpl. auto. }
  apply wp_bind, wp_modify, wp_bind.
  unfold upload. rewrite P. simpl negb. cbv iota.
  apply wp_bind, wp_modify, wp_bind, wp_next_upload, wp_lift.
  destruct (fs_upload w _) as [raw2|e3].
  2:{ apply (H _ _ [EvUpload; EvConvert; EvUpload]); simpl; try lia; auto.
      - now rewrite <- !app_assoc.
      - unfold within_budget. cbn. lia. }
  cbv zeta.
  destruct (truthy (get "path" (pickUploaded raw2))) eqn:T2; simpl negb; cbv iota.
  2:{ apply wp_modify. apply (H _ _ [EvUpload; EvConvert; EvUpload]); simpl; try lia; auto.
      - now rewrite <- !app_assoc.
      - unfold within_budget. cbn. lia.
      - apply Hfixed; simpl; auto. }
  apply wp_bind, wp_modify, wp_bind.
  unfold setKV. rewrite P. simpl negb. cbv iota.
  apply wp_bind, wp_modify, wp_bind, wp_modify, wp_ret.
  set (pdf := get "path" (pickUploaded raw1)) in *.
  set (img := get "path" (pickUploaded raw2)) in *.
  match goal with |- wp _ _ ?s => set (s4 := s) end.
  assert (Ht : trace s4 = trace st ++ [EvUpload; EvConvert; EvUpload;
                                       saved w (placeholder w p pdf img)]).
  { subst s4. simpl. now rewrite <- !app_assoc. }
  eapply wp_mono; [|apply analyze_run; exact P].
  intros r s5 (ai & B & U & F & I & E). simpl in U, F, I.
  destruct B as (Ba & Bc & Br & Bf).
  destruct (ai_counts ai Ba) as (Cu & Cc & Ck & Cn).
  destruct E as [(T & E)|(fb & T & -> & S)].
  - apply (H _ _ ([EvUpload; EvConvert; EvUpload; saved w (placeholder w p pdf img)] ++ ai)).
    + rewrite T, Ht. now rewrite <- app_assoc.
    + unfold within_budget. rewrite !count_app, Cu, Cc, Ck, Cn. cbn. lia.
    + lia.
    + lia.
    + lia.
    + assert (Hn : count is_navigate
                     ([EvUpload; EvConvert; EvUpload; saved w (placeholder w p pdf img)] ++ ai) = O).
      { rewrite count_app, Cn. reflexivity. }
      destruct E as [(e & ->)|(-> & m & Hm & S)]; [exact Hn|].
      right. split; [exact Hn|]. left. exists m. auto.
  - apply (H _ _ ([EvUpload; EvConvert; EvUpload; saved w (placeholder w p pdf img)] ++ ai
                    ++ [saved w (set "feedback" fb (placeholder w p pdf img)); redirect w])).
    + rewrite T, Ht. now rewrite <- app_assoc.
    + unfold within_budget. rewrite !count_app, Cu, Cc, Ck, Cn. cbn. lia.
    + lia.
    + lia.
    + lia.
    + left. split; [exact S|].
      exists ([EvUpload; EvConvert; EvUpload; saved w (placeholder w p pdf img)] ++ ai
                ++ [saved w (set "feedback" fb (placeholder w p pdf img))]).
      split.
      * rewrite <- !app_assoc. reflexivity.
      * rewrite !count_app, Cn. reflexivity.
Qed.

Lemma handleAnalyze_run (w : World) (p : Params) (st : State) :
  run_summary w st (fst (handleAnalyze w p st)) (snd (handleAnalyze w p st)).
Proof.
  change (wp (handleAnalyze w p) (run_summary w st) st).
  unfold handleAnalyze. apply wp_finally, wp_try_catch, handleAnalyze_body.
  intros [[]|e] s' evs T B U F I E.
  - split; [reflexivity|]. split; [reflexivity|]. exists evs. simpl. auto 10.
  - apply wp_modify. split; [reflexivity|]. split; [reflexivity|].
    exists evs. simpl. repeat split; auto; try apply B.
    right. split; [exact E|]. left.
    exists "Error: Something went wrong during analysis.". simpl. auto 10.
Qed.

End EndingFacts.

(** * Further properties of the code *)

Module Extras.
Import JSON Normalizer ObjFacts NormalizerFacts.
Import PuterStore Upload Runs Scenarios Endings Results.
Import StoreFacts RunFacts FallbackFacts UploadFacts EndingFacts.

(** ** The upload flow *)

(** X1.  Every run of [handleAnalyze] returns normally and leaves
    [isProcessing] false.  Its status text ends as the success line, and
    then the redirect to [/resume/<id>] is the last event and the only
    redirect; or there is no redirect and the status text is one of the
    seven fixed error lines or the truthy [error] the converter gave. *)
Theorem handleAnalyze_always_ends (w : World) (p : Params) (st : State) :
  fst (handleAnalyze w p st) = Ok tt
  /\ isProcessing (snd (handleAnalyze w p st)) = false
  /\ exists evs,
       trace (snd (handleAnalyze w p st)) = trace st ++ evs
       /\ ((statusText (snd (handleAnalyze w p st)) = VStr "Analysis complete. Redirecting..."
            /\ exists before,
                 evs = before ++ [EvNavigate ("/resume/" +:+ generateUUID w)]
                 /\ count is_navigate before = O)
           \/ (count is_navigate evs = O
               /\ ((exists m, In m fixedErrors
                              /\ statusText (snd (handleAnalyze w p st)) = VStr m)
                   \/ (exists image,
                         convertPdfToImage w = Ok image
                         /\ truthy (get "error" image) = true
                         /\ statusText (snd (handleAnalyze w p st)) = get "error" image)))).
Proof.
  destruct (handleAnalyze_run w p st) as (R & Pr & evs & T & _ & E & _).
  split; [exact R|]. split; [exact Pr|]. exists evs. split; [exact T|]. exact E.
Qed.


(** X3.  Without the hosted client the flow stops at the first upload: the
    status text is the PDF upload error, the store's error is set, and
    nothing is uploaded, written, asked of a model or redirected.  So the
    branch of [feedback] for a missing client is not reached from here. *)
Theorem handleAnalyze_without_client (w : World) (p : Params) (st : State) :
  puter w = false ->
  fst (handleAnalyze w p st) = Ok tt
  /\ statusText (snd (handleAnalyze w p st)) = VStr "Error: Failed to upload PDF."
  /\ isProcessing (snd (handleAnalyze w p st)) = false
  /\ storeError (snd (handleAnalyze w p st)) = Some "Puter.js not available"
  /\ trace (snd (handleAnalyze w p st)) = trace st
  /\ kv (snd (handleAnalyze w p st)) = kv st
  /\ uploads (snd (handleAnalyze w p st)) = uploads st
  /\ fetches (snd (handleAnalyze w p st)) = fetches st.
Proof.
  intros P. unfold handleAnalyze, finally, try_catch, bind, upload.
  rewrite P. simpl. repeat split; reflexivity.
Qed.

Lemma handleAnalyze_without_client_witness :
  statusText (snd (handleAnalyze (localOnly "{}") submission (initial ∅)))
  = VStr "Error: Failed to upload PDF."
  /\ fetches (snd (handleAnalyze (localOnly "{}") submission (initial ∅))) = O.
Proof.
  destruct (handleAnalyze_without_client (localOnly "{}") submission (initial ∅) eq_refl)
    as (_ & S & _ & _ & _ & _ & _ & F).
  split; [exact S|exact F].
Defined.

(** ** The store's record builder and the local model *)

(** X4.  [toAIResponseFromJSON] keeps every own property of an object
    reply with its value, [id] and explicit [null]s included: the generated
    id and the defaults only fill in what the reply lacks.  The record has
    the seven standard properties and the reply's, and no other. *)
Theorem toAIResponseFromJSON_keeps_reply (w : World) (props : list (string * value))
    (st : State) :
  keys_unique props = true ->
  exists r,
    fst (toAIResponseFromJSON w (VObj props) st) = Ok r
    /\ (forall k x, assoc k props = Some x -> get k r = x /\ has_key k r = true)
    /\ (forall k, In k standardKeys -> has_key k r = true)
    /\ (forall k, assoc k props = None -> has_key k r = true -> In k standardKeys)
    /\ (assoc "id" props = None -> get "id" r = VStr (randomUUID w (uuids st))).
Proof.
  intros Hu. eexists. split; [reflexivity|].
  set (r := aiResponse (randomUUID w (uuids st)) (VObj props)).
  split; [|split; [|split]].
  - intros k x Hk.
    assert (G : get k r = x) by (apply get_spread_present; assumption).
    split; [exact G|].
    unfold r, aiResponse in *. simpl in G |- *.
    rewrite spread_into_fold in *. simpl in *.
    rewrite (fold_overwrite_present k x) by assumption. reflexivity.
  - intros k Hk.
    destruct (aiResponse_keys (randomUUID w (uuids st)) (VObj props))
      as (K1 & K2 & K3 & K4 & K5 & K6 & K7).
    simpl in Hk. intuition (subst; assumption).
  - intros k Hn Hk. unfold r, aiResponse in Hk. simpl in Hk.
    rewrite spread_into_fold in Hk. simpl in Hk.
    rewrite fold_overwrite_absent in Hk by assumption.
    simpl in Hk. unfold standardKeys. simpl.
    repeat match type of Hk with
           | context [String.eqb k ?c] =>
               destruct (String.eqb_spec k c); [subst; auto 10|]
           end.
    discriminate.
  - intros Hn. unfold r, aiResponse.
    rewrite get_spread_absent by exact Hn. reflexivity.
Qed.

Lemma toAIResponseFromJSON_keeps_reply_witness :
  exists r,
    fst (toAIResponseFromJSON (localOnly "{}")
           (VObj [("id", VStr "mine"); ("content", VNull)]) (initial ∅)) = Ok r
    /\ get "id" r = VStr "mine" /\ get "content" r = VNull.
Proof.
  destruct (toAIResponseFromJSON_keeps_reply (localOnly "{}")
              [("id", VStr "mine"); ("content", VNull)] (initial ∅) eq_refl)
    as (r & E & K & _).
  exists r. split; [exact E|]. split.
  - exact (proj1 (K "id" (VStr "mine") eq_refl)).
  - exact (proj1 (K "content" VNull eq_refl)).
Defined.

(** X5.  A reply of the local model that is valid JSON but a bare [null],
    boolean or number is not treated as a failed reply: [ollamaFeedback]
    returns the record with every score at 70 and no tips, not the fallback
    record with its scores of 60 to 70 and its advice. *)
Theorem ollamaFeedback_scalar_reply
    (w : World) (prompt : string) (st : State) (data : value) (raw : string) (v : value) :
  reply_data (fetch w (fetches st)) = Some data ->
  coalesce (get "response" data) (VStr EmptyString) = VStr raw ->
  JSON.parse (trim raw) = Some v ->
  is_scalar v = true ->
  fst (ollamaFeedback w prompt st) = Ok (allDefaults (randomUUID w (uuids st))).
Proof.
  intros Hd Hr Hp Hs.
  destruct (ollamaFeedback_spec w prompt st) as (s' & _ & _ & H).
  rewrite Hd in H. rewrite H. unfold reply_payload. rewrite Hr, Hp.
  destruct v; try discriminate; reflexivity.
Qed.

Lemma ollamaFeedback_scalar_reply_witness :
  fst (ollamaFeedback (localOnly "42") "prompt" (initial ∅)) = Ok (allDefaults "r1").
Proof.
  apply (ollamaFeedback_scalar_reply (localOnly "42") "prompt" (initial ∅)
           (VObj [("response", VStr "42")]) "42" (VNum 42));
    vm_compute; reflexivity.
Defined.

(** ** The two normalisers *)

Lemma viewers_agree_fuel (n : nat) :
  forall x, (fuel_of x <= n)%nat ->
    exists a b,
      ViewerA.normalizeFeedback x = Some a
      /\ ViewerB.normalizeFeedback x = Some b
      /\ ((a = b /\ truthy b = true /\ is_object_type b = true)
          \/ (b = VNull /\ is_plain a = true)).
Proof.
  induction n as [n IH] using lt_wf_ind. intros x Hf.
  destruct (truthy x) eqn:Ht.
  2:{ exists (VStr EmptyString), VNull.
      unfold ViewerA.normalizeFeedback, ViewerB.normalizeFeedback.
      destruct x; try discriminate; simpl in Ht |- *;
        try (destruct (fuel_of _); simpl; rewrite ?Ht; auto; fail).
      destruct s; [|discriminate]. auto. }
  destruct (is_object_type x) eqn:Ho.
  { exists (reconcile x), (reconcile x).
    rewrite normalizeA_object, normalizeB_object by assumption.
    destruct (reconcile_object x Ht Ho). auto 10. }
  destruct x as [| |b|m|s|l|props]; try discriminate.
  - exists (VBool b), VNull. destruct b; [|discriminate]. auto 10.
  - exists (VNum m), VNull.
    unfold ViewerA.normalizeFeedback, ViewerB.normalizeFeedback. simpl in Ht |- *.
    rewrite Ht. simpl.
    change (toString (VNum m)) with (num_to_string m).
    rewrite (JSONFacts.parse_stringify (VNum m) (num_to_string m)) by reflexivity.
    auto 10.
  - destruct (JSON.parse s) as [parsed|] eqn:Hp.
    + destruct (normalize_parsed s parsed Ht Hp) as [-> ->].
      destruct s as [|c s]; [discriminate|]. simpl in Hf.
      apply (IH (String.length s)); [lia|].
      eapply fuel_of_parsed; eauto.
    + exists (VStr s), VNull.
      unfold ViewerA.normalizeFeedback, ViewerB.normalizeFeedback.
      destruct s as [|c s]; [discriminate|]. simpl fuel_of.
      change (ViewerA.normalizeFeedback_fuel (S (String.length s)) (VStr (String c s)))
        with (match JSON.parse (String c s) with
              | Some parsed => ViewerA.normalizeFeedback_fuel (String.length s) parsed
              | None => Some (VStr (String c s))
              end).
      change (ViewerB.normalizeFeedback_fuel (S (String.length s)) (VStr (String c s)))
        with (match JSON.parse (String c s) with
              | Some parsed => ViewerB.normalizeFeedback_fuel (String.length s) parsed
              | None => Some VNull
              end).
      rewrite Hp. auto 10.
Qed.

(** X6.  On every input both normalisers return, and they agree whenever
    the second one gives feedback: then both give the same object.  When the
    second one gives [null], the first gives a string, a number or a
    boolean, never an object and never [null] or [undefined]. *)
Theorem viewers_agree (x : value) :
  exists a b,
    ViewerA.normalizeFeedback x = Some a
    /\ ViewerB.normalizeFeedback x = Some b
    /\ ((a = b /\ truthy b = true /\ is_object_type b = true)
        \/ (b = VNull /\ is_plain a = true)).
Proof. exact (viewers_agree_fuel (fuel_of x) x (Nat.le_refl _)). Qed.

End Extras.


Module SessionFacts.
Import Session.





Lemma ready_consistent s : consistent s -> consistent (ready s).
Proof. intros H. exact H. Qed.



Lemma run_settles c s :
  is_session_call c = true -> isLoading (run c s) = false.
Proof.
  destruct c as [p|p|p|p| |p schedule|p]; try discriminate; intros _; simpl.
  - unfold checkAuthStatus. destruct p as [c|]; [|reflexivity]. cbv zeta.
    destruct (auth_isSignedIn c) as [v|t]; [|reflexivity].
    destruct (truthy v); [|reflexivity].
    destruct (auth_getUser c); reflexivity.
  - unfold signIn, checkAuthStatus. destruct p as [c|]; [|reflexivity]. cbv zeta.
    destruct (auth_signIn c); [|reflexivity].
    destruct (auth_isSignedIn c) as [v|t]; [|reflexivity].
    destruct (truthy v); [|reflexivity].
    destruct (auth_getUser c); reflexivity.
  - unfold signOut. destruct p as [c|]; [|reflexivity]. cbv zeta.
    destruct (auth_signOut c); reflexivity.
  - unfold refreshUser. destruct p as [c|]; [|reflexivity]. cbv zeta.
    destruct (auth_getUser c); reflexivity.
Qed.

(** Once the interval is cleared, only a timeout that finds no client
    changes the store. *)
Lemma fire_idle (l : list firing) (ws : Waiting) :
  forallb finds_client_or_ticks l = true -> polling ws = false ->
  fold_left (fun ws f => fire f ws) l ws = ws.
Proof.
  revert ws. induction l as [|f l IH]; intros ws Hl Hp; [reflexivity|].
  simpl in Hl |- *. apply andb_prop in Hl as [Hf Hl].
  destruct f as [p|[c|]]; try discriminate; simpl.
  - rewrite Hp. now apply IH.
  - destruct ws as [st pl]. simpl in Hp. subst pl. now apply IH.
Qed.

Lemma ticks_find_client_or_tick (l : list firing) :
  forallb is_tick l = true -> forallb finds_client_or_ticks l = true.
Proof.
  induction l as [|f l IH]; [reflexivity|]. simpl. intros H.
  apply andb_prop in H as [Hf Hl]. rewrite (IH Hl).
  destruct f as [p|p]; [reflexivity|discriminate].
Qed.

Lemma fire_waiting_ticks (n : nat) (ws : Waiting) (rest : list firing) :
  fold_left (fun ws f => fire f ws) (List.repeat (Tick None) n ++ rest) ws
  = fold_left (fun ws f => fire f ws) rest ws.
Proof.
  induction n as [|n IH]; [reflexivity|]. simpl.
  destruct (polling ws); exact IH.
Qed.

End SessionFacts.

Module SessionExtras.
Import Session SessionFacts.


(** X8.  [checkAuthStatus] answers [true] exactly when it leaves the store
    signed in, and then the store has no error and holds the user the client
    gave.  Whatever the client answers, [checkAuthStatus], [signIn],
    [signOut] and [refreshUser] all end with [isLoading] false.  A [signIn]
    whose client call resolves leaves the store as [checkAuthStatus] leaves
    it: resolving does not sign the user in by itself. *)
Theorem checkAuthStatus_answer (puter : option Client) (s : Store) :
  isAuthenticated (snd (checkAuthStatus puter s)) = fst (checkAuthStatus puter s)
  /\ (fst (checkAuthStatus puter s) = true ->
      error (snd (checkAuthStatus puter s)) = None
      /\ exists c, puter = Some c
           /\ auth_getUser c = Resolved (user (snd (checkAuthStatus puter s))))
  /\ (fst (checkAuthStatus puter s) = false -> user (snd (checkAuthStatus puter s)) = VNull)
  /\ (forall c, is_session_call c = true -> isLoading (run c s) = false)
  /\ (forall c u, puter = Some c -> auth_signIn c = Resolved u ->
        signIn puter s = snd (checkAuthStatus puter s)).
Proof.
  split; [|split; [|split; [|split]]].
  - unfold checkAuthStatus. destruct puter as [c|]; [|reflexivity]. cbv zeta.
    destruct (auth_isSignedIn c) as [v|t]; [|reflexivity].
    destruct (truthy v); [|reflexivity].
    destruct (auth_getUser c); reflexivity.
  - unfold checkAuthStatus. destruct puter as [c|]; [|discriminate]. cbv zeta.
    destruct (auth_isSignedIn c) as [v|t]; [|discriminate].
    destruct (truthy v); [|discriminate].
    destruct (auth_getUser c) as [u|t] eqn:E; [|discriminate].
    intros _. split; [reflexivity|]. exists c. simpl. auto.
  - unfold checkAuthStatus. destruct puter as [c|]; [|reflexivity]. cbv zeta.
    destruct (auth_isSignedIn c) as [v|t]; [|reflexivity].
    destruct (truthy v); [|reflexivity].
    destruct (auth_getUser c) as [u|t] eqn:E; [discriminate|reflexivity].
  - intros c. apply run_settles.
  - intros c u -> H. unfold signIn. rewrite H. reflexivity.
Qed.

(** X9.  A session call that ends with an error leaves the store signed
    out with no user, but keeps the [getUser] the store had: after a sign-in
    and a failed call, [auth.getUser()] still returns the user of before
    while [auth.user] is [null]. *)
Theorem failed_call_keeps_getUser (c : call) (s : Store) (u : value) (msg : string) :
  is_session_call c = true ->
  getUser s = Returns u ->
  error (run c s) = Some msg ->
  user (run c s) = VNull
  /\ isAuthenticated (run c s) = false
  /\ call_getUser (run c s) = u.
Proof.
  intros Hc Hg He. unfold call_getUser.
  destruct c as [p|p|p|p| |p schedule|p]; try discriminate; simpl in He |- *.
  - unfold checkAuthStatus in *. destruct p as [c|]; [|simpl; rewrite Hg; auto].
    cbv zeta in *. destruct (auth_isSignedIn c) as [v|t]; [|simpl; rewrite Hg; auto].
    destruct (truthy v); [|discriminate].
    destruct (auth_getUser c); [discriminate|simpl; rewrite Hg; auto].
  - unfold signIn, checkAuthStatus in *. destruct p as [c|]; [|simpl; rewrite Hg; auto].
    cbv zeta in *. destruct (auth_signIn c); [|simpl; rewrite Hg; auto].
    destruct (auth_isSignedIn c) as [v|t]; [|simpl; rewrite Hg; auto].
    destruct (truthy v); [|discriminate].
    destruct (auth_getUser c); [discriminate|simpl; rewrite Hg; auto].
  - unfold signOut in *. destruct p as [c|]; [|simpl; rewrite Hg; auto].
    cbv zeta in *. destruct (auth_signOut c); [discriminate|simpl; rewrite Hg; auto].
  - unfold refreshUser in *. destruct p as [c|]; [|simpl; rewrite Hg; auto].
    cbv zeta in *. destruct (auth_getUser c); [discriminate|simpl; rewrite Hg; auto].
Qed.

Lemma failed_call_keeps_getUser_witness :
  user (run (SignOut (Some (failingClient "offline")))
            (run (CheckAuthStatus (Some (clientOf ann))) created)) = VNull
  /\ isAuthenticated (run (SignOut (Some (failingClient "offline")))
                          (run (CheckAuthStatus (Some (clientOf ann))) created)) = false
  /\ call_getUser (run (SignOut (Some (failingClient "offline")))
                       (run (CheckAuthStatus (Some (clientOf ann))) created)) = ann.
Proof.
  exact (failed_call_keeps_getUser (SignOut (Some (failingClient "offline")))
           (run (CheckAuthStatus (Some (clientOf ann))) created) ann "offline"
           eq_refl eq_refl eq_refl).
Defined.

(** X10.  [init] without the client at the call waits on its timers.  When
    the client is first there at a tick that runs before the timeout, the
    store becomes ready and the session is checked, as if the client had
    been there at the call.  When no such tick ran before the timeout, the
    timeout stops the polling: without the client it records the load
    failure; with the client there by then it changes nothing, so the store
    is never marked ready and the session is never checked. *)
Theorem init_timer_outcomes (n : nat) (rest : list firing) (s : Store) :
  forallb is_tick rest = true ->
  (forall c later,
      forallb finds_client_or_ticks later = true ->
      init None (List.repeat (Tick None) n ++ Tick (Some c) :: later) s
      = init (Some c) [] s)
  /\ init None (List.repeat (Tick None) n ++ Timeout None :: rest) s
     = setError "Puter.js failed to load within 10 seconds" s
  /\ (forall c,
        init None (List.repeat (Tick None) n ++ Timeout (Some c) :: rest) s = s).
Proof.
  intros Hr. apply ticks_find_client_or_tick in Hr.
  unfold init. split; [|split]; intros; rewrite fire_waiting_ticks; simpl;
    now rewrite fire_idle.
Qed.

Lemma init_timer_outcomes_witness :
  puterReady (init None (List.repeat (Tick None) 99
                           ++ Timeout (Some (clientOf ann)) :: [Tick (Some (clientOf ann))])
                created) = false
  /\ isLoading (init None (List.repeat (Tick None) 99
                             ++ Timeout (Some (clientOf ann)) :: [Tick (Some (clientOf ann))])
                  created) = true.
Proof.
  rewrite (proj2 (proj2 (init_timer_outcomes 99 [Tick (Some (clientOf ann))] created eq_refl))
             (clientOf ann)).
  split; reflexivity.
Defined.

End SessionExtras.


Module PageFacts.
Import Page.

Section Rules.
Context {V : Type}.
Implicit Types s : State * V.

Lemma ends_ret {A} (a : A) post s : post (Ok a) s -> ends (V:=V) (ret a) post s.
Proof. exact (fun H => H). Qed.

Lemma ends_throw {A} e (post : outcome A -> State * V -> Prop) s :
  post (Throw e) s -> ends (throw e) post s.
Proof. exact (fun H => H). Qed.

Lemma ends_lift {A} (o : outcome A) post s : post o s -> ends (V:=V) (lift o) post s.
Proof. exact (fun H => H). Qed.

Lemma ends_fueled {A} (o : option A) (a : A) post s :
  o = Some a -> post (Ok a) s -> ends (V:=V) (fueled o) post s.
Proof. intros -> H. exact H. Qed.

Lemma ends_update (f : V -> V) post s :
  post (Ok tt) (fst s, f (snd s)) -> ends (update f) post s.
Proof. exact (fun H => H). Qed.

Lemma ends_inspect {A} (f : V -> A) post s :
  post (Ok (f (snd s))) s -> ends (inspect f) post s.
Proof. exact (fun H => H). Qed.

Lemma ends_store_call {A} (m : M A) post s :
  post (fst (m (fst s))) (snd (m (fst s)), snd s) -> ends (V:=V) (store_call m) post s.
Proof. unfold ends, store_call. destruct (m (fst s)). exact (fun H => H). Qed.

Lemma ends_bind {A B} (m : P A) (k : A -> P B) post s :
  ends m (fun r s' => match r with
                      | Ok a => ends (k a) post s'
                      | Throw e => post (Throw e) s'
                      end) s ->
  ends (bind m k) post s.
Proof.
  unfold ends, bind. destruct (m s) as [[[a|e] s']|]; auto.
Qed.

Lemma ends_try_catch {A} (m : P A) (h : exn -> P A) post s :
  ends m (fun r s' => match r with
                      | Ok a => post (Ok a) s'
                      | Throw e => ends (h e) post s'
                      end) s ->
  ends (try_catch m h) post s.
Proof.
  unfold ends, try_catch. destruct (m s) as [[[a|e] s']|]; auto.
Qed.

Lemma ends_finally {A} (m : P A) (cleanup : V -> V) post s :
  ends m (fun r s' => post r (fst s', cleanup (snd s'))) s ->
  ends (finally m cleanup) post s.
Proof.
  unfold ends, finally. destruct (m s) as [[r [st v]]|]; auto.
Qed.

Lemma ends_mono {A} (m : P A) (post post' : outcome A -> State * V -> Prop) s :
  (forall r s', post r s' -> post' r s') -> ends m post s -> ends m post' s.
Proof. unfold ends. destruct (m s) as [[r s']|]; auto. Qed.

Lemma ends_parse_json (text : string) post s :
  match JSON.parse text with
  | Some v => post (Ok v) s
  | None => post (Throw SyntaxError) s
  end ->
  ends (V:=V) (parse_json text) post s.
Proof. unfold parse_json. destruct (JSON.parse text); exact (fun H => H). Qed.

(** What a run that ends gives. *)
Lemma ends_result {A} (m : P A) post s :
  ends m post s -> exists r s', m s = Some (r, s') /\ post r s'.
Proof. unfold ends. destruct (m s) as [[r s']|]; [eauto|contradiction]. Qed.

End Rules.

End PageFacts.

Module ReadFacts.
Import StoreReads.

Lemma getKV_reads (w : World) (key : string) (st : State) :
  kv (snd (getKV w key st)) = kv st
  /\ trace (snd (getKV w key st)) = trace st
  /\ (puter w = false -> fst (getKV w key st) = Ok VUndefined)
  /\ (puter w = true ->
      getKV w key st
      = (Ok (match kv st !! key with Some x => x | None => VNull end), st)).
Proof.
  unfold getKV. destruct (puter w); simpl; repeat split; auto; discriminate.
Qed.

End ReadFacts.

Module UnwrapFacts.
Import Normalizer ObjFacts NormalizerFacts.

Lemma get_feedback_fixed (y : value) :
  get "feedback" (fix_score (fix_tone y)) = get "feedback" y.
Proof.
  rewrite (fix_score_get "feedback") by discriminate.
  now rewrite (fix_tone_get "feedback") by discriminate.
Qed.

Lemma fixed_object (y : value) :
  is_object_type (fix_score (fix_tone y)) = is_object_type y.
Proof.
  destruct (fix_score_shape (fix_tone y)) as [_ ->].
  now destruct (fix_tone_shape y) as [_ ->].
Qed.

Lemma effective_nested (x : value) :
  truthy (get "feedback" x) = true -> is_object_type (get "feedback" x) = true ->
  effective x = get "feedback" x.
Proof. intros H1 H2. unfold effective. now rewrite H1, H2. Qed.

Lemma effective_plain (x : value) :
  truthy (get "feedback" x) = false -> effective x = x.
Proof. intros H. unfold effective. now rewrite H. Qed.

End UnwrapFacts.

Module PageAFacts.
Import Page StoreReads ResumePageA PageFacts ReadFacts.
Import Normalizer ObjFacts NormalizerFacts UnwrapFacts.

Lemma parse_empty : JSON.parse EmptyString = None.
Proof. reflexivity. Qed.

(** What [load] does in each case. *)
Lemma load_cases (w : World) (id : value) (st : State) (v : View) :
  ends (load w id)
    (fun r s' =>
       r = Ok tt
       /\ loading (snd s') = false
       /\ kv (fst s') = kv st /\ trace (fst s') = trace st
       /\ (puter w = true -> fst s' = st)
       /\ ((truthy id = false
            /\ error (snd s') = "Missing resume id." /\ data (snd s') = data v)
           \/ (truthy id = true
               /\ (forall raw, fst (getKV w ("resume:" +:+ toString id) st) = Ok raw ->
                               truthy raw = false)
               /\ error (snd s') = "No saved resume data found for this id."
               /\ data (snd s') = data v)
           \/ (exists raw,
                 truthy id = true
                 /\ fst (getKV w ("resume:" +:+ toString id) st) = Ok raw
                 /\ truthy raw = true
                 /\ match JSON.parse (toString raw) with
                    | Some (VObj props) =>
                        error (snd s') = EmptyString
                        /\ exists fb1 fb2,
                             ViewerA.normalizeFeedback (get "feedback" (VObj props)) = Some fb1
                             /\ (if is_object_type fb1 && truthy (get "feedback" fb1)
                                 then ViewerA.normalizeFeedback (get "feedback" fb1)
                                 else Some fb1) = Some fb2
                             /\ data (snd s') = Some {| record := VObj props; feedback := fb2 |}
                    | Some (VArr l) =>
                        error (snd s') = EmptyString
                        /\ data (snd s')
                           = Some {| record := VArr l; feedback := VStr EmptyString |}
                    | _ => error (snd s') = "Failed to load resume feedback."
                           /\ data (snd s') = data v
                    end)))
    (st, v).
Proof.
  unfold load, setLoading, setData, setError.
  apply ends_bind, ends_update, ends_bind, ends_update, ends_finally, ends_try_catch.
  simpl fst. simpl snd.
  destruct (truthy id) eqn:Tid; simpl negb; cbv iota.
  2:{ apply ends_update. simpl. auto 10. }
  apply ends_bind, ends_store_call. simpl fst. simpl snd.
  destruct (getKV_reads w ("resume:" +:+ toString id) st) as (K & T & _ & G1).
  destruct (getKV w ("resume:" +:+ toString id) st) as [[raw|e] st1] eqn:G;
    simpl in K, T |- *.
  assert (S1 : puter w = true -> st1 = st).
  { intros Pw. specialize (G1 Pw). congruence. }
  2:{ unfold getKV in G. destruct (puter w); discriminate. }
  destruct (truthy raw) eqn:Traw; simpl negb; cbv iota.
  2:{ apply ends_update. simpl. repeat split; auto. right. left.
      repeat split; auto. intros raw0 [= <-]. exact Traw. }
  match goal with |- ends _ ?Q _ => set (Q0 := Q) end.
  assert (Hbad : forall e (s1 : State * View),
            fst s1 = st1 -> data (snd s1) = data v ->
            match JSON.parse (toString raw) with
            | Some (VObj _) | Some (VArr _) => False
            | _ => True
            end ->
            Q0 (Throw e) s1).
  { intros e s1 E1 E2 Hp. subst Q0. cbv beta iota. unfold setError.
    apply ends_update. simpl. rewrite E1.
    repeat split; auto. right. right. exists raw. repeat split; auto.
    destruct (JSON.parse (toString raw)) as [[| |b|n|s|l|props]|];
      try contradiction; auto. }
  apply ends_bind, ends_parse_json.
  destruct (JSON.parse (toString raw)) as [parsed|] eqn:Pj.
  2:{ apply Hbad; auto. }
  apply ends_bind, ends_lift. unfold member.
  destruct (nullish parsed) eqn:Np.
  { apply Hbad; auto. destruct parsed; try discriminate; exact I. }
  destruct (proj1 (normalizeFeedback_total (get "feedback" parsed))) as [fb1 N1].
  apply ends_bind. eapply ends_fueled; [exact N1|].
  apply ends_bind, ends_lift. unfold assignable.
  destruct parsed as [| |b|n|s|l|props]; try discriminate;
    try (apply Hbad; auto; exact I).
  - (* an array *)
    simpl in N1. injection N1 as <-. simpl.
    apply ends_bind, ends_ret, ends_update. subst Q0. simpl.
    repeat split; auto. right. right. exists raw. rewrite Pj. auto 10.
  - (* an object *)
    destruct (is_object_type fb1 && truthy (get "feedback" fb1)) eqn:C.
    + destruct (proj1 (normalizeFeedback_total (get "feedback" fb1))) as [fb2 N2].
      apply ends_bind. eapply ends_fueled; [exact N2|].
      apply ends_update. subst Q0. simpl.
      repeat split; auto. right. right. exists raw. rewrite Pj.
      repeat split; auto. exists fb1, fb2. rewrite C. auto.
    + apply ends_bind, ends_ret, ends_update. subst Q0. simpl.
      repeat split; auto. right. right. exists raw. rewrite Pj.
      repeat split; auto. exists fb1, fb1. rewrite C. auto.
Qed.

(** A wrapper chain of at least one level starts at a truthy object. *)
Lemma nests_head (n : nat) (x F : value) :
  nests n x F -> truthy F = true -> is_object_type F = true ->
  truthy x = true /\ is_object_type x = true.
Proof.
  destruct n as [|n]; simpl.
  - intros ->. auto.
  - intros (H1 & H2 & _). auto.
Qed.

(** The page's two normalisation steps reach a feedback object up to three
    levels down. *)
Lemma page_unwraps (n : nat) (x F fb1 fb2 : value) :
  (n <= 3)%nat -> nests n x F ->
  truthy F = true -> is_object_type F = true -> truthy (get "feedback" F) = false ->
  ViewerA.normalizeFeedback x = Some fb1 ->
  (if is_object_type fb1 && truthy (get "feedback" fb1)
   then ViewerA.normalizeFeedback (get "feedback" fb1)
   else Some fb1) = Some fb2 ->
  fb2 = fix_score (fix_tone F).
Proof.
  intros Hn Hx Ft Fo Ff N1 N2.
  assert (RF : ViewerA.normalizeFeedback F = Some (fix_score (fix_tone F))).
  { rewrite normalizeA_object by assumption. unfold reconcile.
    now rewrite effective_plain. }
  assert (Step : forall y, truthy y = true -> is_object_type y = true ->
                   get "feedback" y = F ->
                   ViewerA.normalizeFeedback y = Some (fix_score (fix_tone F))).
  { intros y Yt Yo Yf. rewrite normalizeA_object by assumption. unfold reconcile.
    rewrite effective_nested; rewrite Yf; auto. }
  assert (Stop : forall fb, fb = fix_score (fix_tone F) ->
                   (if is_object_type fb && truthy (get "feedback" fb)
                    then ViewerA.normalizeFeedback (get "feedback" fb)
                    else Some fb) = Some fb2 -> fb2 = fix_score (fix_tone F)).
  { intros fb -> H. rewrite get_feedback_fixed, Ff, andb_false_r in H. congruence. }
  destruct n as [|[|[|[|n]]]]; try lia; simpl in Hx.
  - subst x. rewrite RF in N1. injection N1 as <-. now apply (Stop _ eq_refl).
  - destruct Hx as (Xt & Xo & Xf).
    rewrite (Step x Xt Xo Xf) in N1. injection N1 as <-. now apply (Stop _ eq_refl).
  - destruct Hx as (Xt & Xo & Yt & Yo & Yf).
    rewrite normalizeA_object in N1 by assumption. injection N1 as <-.
    unfold reconcile in N2. rewrite effective_nested in N2 by assumption.
    rewrite get_feedback_fixed, fixed_object, Yo, Yf, Ft in N2. simpl in N2.
    congruence.
  - destruct Hx as (Xt & Xo & Yt & Yo & Zt & Zo & Zf).
    rewrite normalizeA_object in N1 by assumption. injection N1 as <-.
    unfold reconcile in N2. rewrite effective_nested in N2 by assumption.
    rewrite get_feedback_fixed, fixed_object, Yo, Zt in N2. simpl in N2.
    rewrite (Step _ Zt Zo Zf) in N2. congruence.
Qed.

End PageAFacts.

Module PageAExtras.
Import Page StoreReads ResumePageA PageFacts ReadFacts PageAFacts.
Import Normalizer ObjFacts NormalizerFacts.


(** X12.  When the stored text parses to an object whose [feedback] holds
    a feedback object directly or one, two or three objects down, each under
    the [feedback] of the one before, the first resume page shows that
    feedback object with its key variants reconciled: [load] peels up to
    three levels, two more than one call of the normaliser. *)
Theorem load_unwraps_three_levels
    (w : World) (id : value) (st : State) (v : View)
    (text : string) (props : list (string * value)) (n : nat) (F : value) :
  truthy id = true -> puter w = true ->
  kv st !! ("resume:" +:+ toString id) = Some (VStr text) ->
  JSON.parse text = Some (VObj props) ->
  (n <= 3)%nat ->
  nests n (get "feedback" (VObj props)) F ->
  truthy F = true -> is_object_type F = true -> truthy (get "feedback" F) = false ->
  load w id (st, v)
  = Some (Ok tt,
          (st, {| loading := false;
                  data := Some {| record := VObj props;
                                  feedback := fix_score (fix_tone F) |};
                  error := EmptyString |})).
Proof.
  intros Ti Pw Hk Hp Hn Hx Ft Fo Ff.
  destruct (ends_result _ _ _ (load_cases w id st v))
    as (r & [st' v'] & E & -> & L & K & T & S & C).
  simpl in L, K, T, S, C. rewrite E. rewrite (S Pw).
  destruct (getKV_reads w ("resume:" +:+ toString id) st) as (_ & _ & _ & G1).
  specialize (G1 Pw). rewrite Hk in G1.
  assert (Hne : str_nonempty text = true).
  { destruct text; [discriminate|reflexivity]. }
  destruct C as [(Ti' & _)|[(_ & Hr & _)|(raw & _ & Gr & _ & C)]]; [congruence| |].
  { rewrite G1 in Hr. specialize (Hr _ eq_refl). simpl in Hr. congruence. }
  rewrite G1 in Gr. injection Gr as <-. simpl in C. rewrite Hp in C.
  destruct C as (Er & fb1 & fb2 & N1 & N2 & Da).
  rewrite (page_unwraps n _ F fb1 fb2 Hn Hx Ft Fo Ff N1 N2) in Da.
  destruct v' as [l d e]. simpl in *. subst. reflexivity.
Qed.

Lemma load_unwraps_three_levels_witness :
  load PageScenarios.online (VStr "u1")
    (PageScenarios.storeWith
       (PageScenarios.recordWith (wrapped 3 PageScenarios.plainFeedback)), mounted)
  = Some (Ok tt,
          (PageScenarios.storeWith
             (PageScenarios.recordWith (wrapped 3 PageScenarios.plainFeedback)),
           {| loading := false;
              data := Some {| record := PageScenarios.recordWith
                                          (wrapped 3 PageScenarios.plainFeedback);
                              feedback := VObj [("overall_score", VNum 82);
                                                ("overallScore", VNum 82)] |};
              error := EmptyString |})).
Proof.
  apply (load_unwraps_three_levels PageScenarios.online (VStr "u1") _ mounted
           (PageScenarios.textOf
              (PageScenarios.recordWith (wrapped 3 PageScenarios.plainFeedback)))
           _ 3 PageScenarios.plainFeedback);
    try (vm_compute; reflexivity).
  simpl. repeat split; reflexivity.
Defined.

End PageAExtras.

Module PageBFacts.
Import Page StoreReads ResumePageB PageFacts ReadFacts.
Import Normalizer ObjFacts NormalizerFacts.

Lemma ends_await {A} (m : P A) (post : outcome A -> State * View -> Prop) s :
  ends m (fun r s' => post r (fst s', resumed (snd s'))) s ->
  ends (await m) post s.
Proof.
  unfold ends, await. destruct (m s) as [[r [st v]]|]; auto.
Qed.

Lemma ends_newObjectURL (h : Host) (post : outcome string -> State * View -> Prop) s :
  post (Ok (createObjectURL h (List.length (created (snd s)))))
       (fst s, remembered (createObjectURL h (List.length (created (snd s)))) (snd s)) ->
  ends (newObjectURL h) post s.
Proof.
  intros H. unfold newObjectURL.
  apply ends_bind, ends_inspect, ends_bind, ends_update, ends_ret. exact H.
Qed.

Lemma readFile_answer (w : World) (a : outcome (option blob)) (path : value) (st : State) :
  puter w = true ->
  fst (PuterStore.readFile (answering w a) path st) = a
  /\ kv (snd (PuterStore.readFile (answering w a) path st)) = kv st.
Proof.
  intros Pw. unfold PuterStore.readFile, answering. simpl. rewrite Pw. simpl.
  unfold Effects.bind, log, modify, Effects.lift. simpl. auto.
Qed.

(** Every run of [loadResume] ends, throws nothing, leaves the key-value
    store as it was and takes one of the ways of [load_path]. *)
Lemma loadResume_paths (w : World) (h : Host) (id : value) (st : State) (v : View) :
  ends (loadResume w h id)
    (fun r s' => r = Ok tt /\ kv (fst s') = kv st /\ load_path w h id st v (snd s'))
    (st, v).
Proof.
  unfold loadResume.
  apply ends_bind, ends_update, ends_bind, ends_update, ends_bind, ends_update.
  apply ends_finally, ends_try_catch. simpl fst. simpl snd.
  change (setError EmptyString (setPageLoading true (started v))) with (preamble v).
  fold (finish h).
  destruct (truthy id) eqn:Tid; simpl negb; cbv iota.
  2:{ apply ends_update. simpl. repeat split; auto. now constructor. }
  apply ends_bind, ends_await, ends_store_call. simpl fst. simpl snd.
  destruct (getKV_reads w ("resume:" +:+ toString id) st) as (K & _ & G0 & _).
  destruct (getKV w ("resume:" +:+ toString id) st) as [[raw|e] st1] eqn:G;
    simpl in K |- *.
  2:{ unfold getKV in G. destruct (puter w); discriminate. }
  assert (Gr : fst (getKV w ("resume:" +:+ toString id) st) = Ok raw) by now rewrite G.
  destruct (truthy raw) eqn:Traw; simpl negb; cbv iota.
  2:{ apply ends_update. simpl. repeat split; auto.
      now apply (PathNoRecord w h id st v raw). }
  assert (Pw : puter w = true).
  { destruct (puter w); [reflexivity|].
    specialize (G0 eq_refl). simpl in G0. injection G0 as ->. discriminate. }
  match goal with |- ends _ ?Q _ => set (Q0 := Q) end.
  set (v2 := resumed (preamble v)).
  assert (Hcatch : forall e st2 x,
            kv st2 = kv st -> load_path w h id st v (finish h (caught h x)) ->
            Q0 (Throw e) (st2, x)).
  { intros e st2 x Hk Hp. subst Q0. cbv beta iota.
    apply ends_bind, ends_inspect. simpl snd. unfold caught in Hp.
    destruct (cancelled h x).
    - apply ends_ret. simpl. auto.
    - apply ends_update. simpl. auto. }
  apply ends_bind, ends_parse_json.
  destruct (JSON.parse (toString raw)) as [data|] eqn:Pj.
  2:{ apply (Hcatch SyntaxError); auto. apply (PathBadRecord w h id st v raw); auto.
      now rewrite Pj. }
  apply ends_bind, ends_lift. unfold member.
  destruct (nullish data) eqn:Nd.
  { apply (Hcatch TypeError); auto. apply (PathBadRecord w h id st v raw); auto.
    now rewrite Pj. }
  apply ends_bind, ends_await, ends_store_call. simpl fst. simpl snd.
  destruct (readFile_answer w (read h 0) (get "resumePath" data) st1 Pw) as [R0 K0].
  destruct (PuterStore.readFile (answering w (read h 0)) (get "resumePath" data) st1)
    as [r0 st2]. simpl in R0, K0 |- *. subst r0.
  destruct (read h 0) as [[pdf|]|e0] eqn:Rd0.
  3:{ apply (Hcatch e0); [congruence|].
      now apply (PathPdfRejected w h id st v raw data e0). }
  2:{ apply ends_update. subst Q0. simpl. repeat split; [congruence|].
      now apply (PathNoPdf w h id st v raw data). }
  apply ends_bind, ends_newObjectURL. simpl fst. simpl snd.
  apply ends_bind, ends_lift. cbv beta iota.
  apply ends_bind, ends_await, ends_store_call. simpl fst. simpl snd.
  destruct (readFile_answer w (read h 1) (get "imagePath" data) st2 Pw) as [R1 K1].
  destruct (PuterStore.readFile (answering w (read h 1)) (get "imagePath" data) st2)
    as [r1 st3]. simpl in R1, K1 |- *. subst r1.
  destruct (read h 1) as [[img|]|e1] eqn:Rd1.
  3:{ apply (Hcatch e1); [congruence|].
      now apply (PathImageRejected w h id st v raw data pdf e1). }
  2:{ apply ends_update. subst Q0. simpl. repeat split; [congruence|].
      now apply (PathNoImage w h id st v raw data pdf). }
  apply ends_bind, ends_newObjectURL. simpl fst. simpl snd.
  simpl created. rewrite List.length_app. simpl List.length. rewrite Nat.add_1_r.
  apply ends_bind, ends_lift. cbv beta iota.
  destruct (proj2 (normalizeFeedback_total (get "feedback" data))) as [fb Nf].
  apply ends_bind. eapply ends_fueled; [exact Nf|].
  apply ends_bind, ends_inspect. simpl snd.
  pose proof (PathRead w h id st v raw data pdf img fb Tid Gr Traw Pj Nd Rd0 Rd1 Nf)
    as Hp.
  cbv zeta in Hp. subst v2.
  match goal with |- context [cancelled h ?x] => set (v6 := x) in * end.
  destruct (cancelled h v6) eqn:Cc.
  - apply ends_ret. subst Q0. simpl. split; [reflexivity|]. split; [congruence|].
    exact Hp.
  - apply ends_bind, ends_update, ends_bind, ends_update, ends_bind, ends_update,
      ends_update.
    subst Q0. simpl. split; [reflexivity|]. split; [congruence|]. exact Hp.
Qed.

End PageBFacts.

Module PageBExtras.
Import Page StoreReads ResumePageB PageFacts ReadFacts PageBFacts.
Import Normalizer ObjFacts NormalizerFacts UnwrapFacts.

Lemma cancelled_started (h : Host) (v : View) : cancelled h (started v) = false.
Proof. unfold cancelled. destruct (cancel_at h); reflexivity. Qed.

(** The flag depends on the [await]s only. *)
Ltac flag_of h :=
  repeat first
    [ progress change (cancelled h (setError ?m ?x)) with (cancelled h x) in *
    | progress change (cancelled h (setPageLoading ?b ?x)) with (cancelled h x) in *
    | progress change (cancelled h (setResumeData ?d ?x)) with (cancelled h x) in *
    | progress change (cancelled h (setFeedback ?d ?x)) with (cancelled h x) in *
    | progress change (cancelled h (setResumeUrl ?d ?x)) with (cancelled h x) in *
    | progress change (cancelled h (setImageUrl ?d ?x)) with (cancelled h x) in *
    | progress change (cancelled h (remembered ?d ?x)) with (cancelled h x) in *
    | rewrite cancelled_started in * ].

Ltac settle_path h :=
  repeat match goal with x := _ |- _ => subst x end;
  cbv zeta; unfold finish, caught, preamble; flag_of h;
  repeat match goal with
         | |- context [cancelled h ?x] =>
             let C := fresh "C" in
             destruct (cancelled h x) eqn:C; flag_of h; rewrite ?C
         end;
  simpl; repeat split; intros; flag_of h; try congruence; simpl; eauto 12.

(** X13.  [loadResume] of the second resume page always ends and throws
    nothing, and writes nothing to the key-value store.  A load whose
    effect was cleaned up while it waited sets none of the record, the
    feedback, the two URLs and the loading state, but it still sets the
    error on the three ways that do not look at the flag.  A load that was
    not cleaned up stops the loading state and either stores the two object
    URLs it made, with an empty error, or reports one of its five errors
    and leaves the record, the feedback and the URLs of before.  When the
    image cannot be read, the object URL made for the PDF is stored
    nowhere. *)
Theorem loadResume_outcomes (w : World) (h : Host) (id : value) (st : State) (v : View) :
  exists st' v',
    loadResume w h id (st, v) = Some (Ok tt, (st', v'))
    /\ kv st' = kv st
    /\ (cancelled h v' = true ->
        resumeData v' = resumeData v /\ feedback v' = feedback v
        /\ resumeUrl v' = resumeUrl v /\ imageUrl v' = imageUrl v
        /\ pageLoading v' = true
        /\ (error v' = EmptyString \/ In (error v') unguardedErrors))
    /\ (cancelled h v' = false ->
        pageLoading v' = false
        /\ ((error v' = EmptyString
             /\ created v' = created v ++ [resumeUrl v'; imageUrl v'])
            \/ (In (error v') loadErrors
                /\ resumeData v' = resumeData v /\ feedback v' = feedback v
                /\ resumeUrl v' = resumeUrl v /\ imageUrl v' = imageUrl v)))
    /\ (error v' = "Failed to load resume image." ->
        exists u, created v' = created v ++ [u]
                  /\ resumeUrl v' = resumeUrl v /\ imageUrl v' = imageUrl v).
Proof.
  destruct (ends_result _ _ _ (loadResume_paths w h id st v))
    as (r & [st' v'] & E & -> & K & Hp).
  simpl in K, Hp. exists st', v'. split; [exact E|]. split; [exact K|].
  inversion Hp; subst; clear Hp; try (settle_path h; fail).
  settle_path h. left. split; [reflexivity|]. now rewrite <- app_assoc.
Qed.

Lemma cancelled_never (h : Host) (v : View) : cancel_at h = None -> cancelled h v = false.
Proof. intros H. unfold cancelled. now rewrite H. Qed.

(** The object the normaliser returns is the one it reconciled in place:
    the argument, or the object under its [feedback]. *)
Lemma reconciled_in_place_effective (o : value) :
  truthy o = true -> is_object_type o = true ->
  effective (reconciled_in_place o) = reconcile o.
Proof.
  intros Ht Ho. unfold reconciled_in_place, reconcile. rewrite Ht, Ho. simpl.
  destruct (truthy (get "feedback" o) && is_object_type (get "feedback" o)) eqn:C.
  - apply andb_prop in C as [C1 C2].
    rewrite (effective_nested o C1 C2).
    destruct o as [| | | | | |props]; try discriminate.
    unfold effective. rewrite get_set_same.
    destruct (fix_score_shape (fix_tone (get "feedback" (VObj props)))) as [-> ->].
    destruct (fix_tone_shape (get "feedback" (VObj props))) as [-> ->].
    now rewrite C1, C2.
  - unfold effective at 2. rewrite C.
    unfold effective.
    rewrite (fix_score_get "feedback"), (fix_tone_get "feedback") by discriminate.
    now rewrite C.
Qed.

(** X14.  When the record is stored as an object, both files can be read
    and the effect is not cleaned up, [loadResume] ends with the feedback the
    normaliser gives for the stored [feedback], the two object URLs in the
    order they were made, no error and the loading state off.  The record it
    keeps has every property but [feedback] as stored; its [feedback] is the
    stored one when that is a string, and when that is an object it has been
    reconciled in place, so that the feedback shown is the object inside the
    record. *)
Theorem loadResume_loaded
    (w : World) (h : Host) (id : value) (st : State) (v : View)
    (text : string) (props : list (string * value)) (pdf img : blob) :
  truthy id = true -> puter w = true ->
  kv st !! ("resume:" +:+ toString id) = Some (VStr text) ->
  JSON.parse text = Some (VObj props) ->
  read h 0 = Ok (Some pdf) -> read h 1 = Ok (Some img) ->
  cancel_at h = None ->
  exists st' v' fb,
    loadResume w h id (st, v) = Some (Ok tt, (st', v'))
    /\ ViewerB.normalizeFeedback (get "feedback" (VObj props)) = Some fb
    /\ feedback v' = fb
    /\ (forall k, k <> "feedback" -> get k (resumeData v') = get k (VObj props))
    /\ (is_string_type (get "feedback" (VObj props)) = true ->
        get "feedback" (resumeData v') = get "feedback" (VObj props))
    /\ (truthy (get "feedback" (VObj props)) = true ->
        is_object_type (get "feedback" (VObj props)) = true ->
        fb = effective (get "feedback" (resumeData v')))
    /\ pageLoading v' = false
    /\ error v' = EmptyString
    /\ resumeUrl v' = createObjectURL h (List.length (created v))
    /\ imageUrl v' = createObjectURL h (S (List.length (created v))).
Proof.
  intros Ti Pw Hk Hp R0 R1 Ca.
  destruct (ends_result _ _ _ (loadResume_paths w h id st v))
    as (r & [st' v'] & E & -> & K & P).
  simpl in K, P.
  destruct (getKV_reads w ("resume:" +:+ toString id) st) as (_ & _ & _ & G1).
  specialize (G1 Pw). rewrite Hk in G1.
  assert (Hne : truthy (VStr text) = true).
  { destruct text; [discriminate|reflexivity]. }
  assert (Hraw : forall raw, fst (getKV w ("resume:" +:+ toString id) st) = Ok raw ->
                             raw = VStr text).
  { intros raw H. rewrite G1 in H. simpl in H. congruence. }
  inversion P as [Ti'|raw Ti' Gr Tr|raw Ti' Gr Tr Bad|raw data e Ti' Gr Tr Pj Nd Rd
                  |raw data Ti' Gr Tr Pj Nd Rd|raw data pdf' e Ti' Gr Tr Pj Nd Rd Rd'
                  |raw data pdf' Ti' Gr Tr Pj Nd Rd Rd'
                  |raw data pdf' img' fb Ti' Gr Tr Pj Nd Rd Rd' Nf];
    try congruence;
    try (apply Hraw in Gr; subst raw; simpl in *; congruence).
  - apply Hraw in Gr. subst raw. simpl in Bad. rewrite Hp in Bad. discriminate.
  - apply Hraw in Gr. subst raw. simpl in Pj. rewrite Hp in Pj. injection Pj as <-.
    repeat match goal with x := _ |- _ => subst x end.
    match goal with H : finish h _ = v' |- _ =>
      unfold finish in H; rewrite !(cancelled_never h) in H by exact Ca; subst v'
    end.
    eexists _, _, fb.
    split; [exact E|]. split; [exact Nf|]. split; [reflexivity|].
    change (resumeData (setPageLoading false _)) with (after_normalize (VObj props)).
    split; [|split; [|split; [|repeat split]]].
    + intros k Hne'. unfold after_normalize.
      destruct (has_key "feedback" (VObj props)); [|reflexivity].
      apply get_set_other. congruence.
    + intros Hs. unfold after_normalize.
      destruct (has_key "feedback" (VObj props)); [|reflexivity].
      rewrite get_set_same. unfold reconciled_in_place.
      destruct (get "feedback" (VObj props)); try discriminate.
      change (is_object_type (VStr s)) with false. now rewrite andb_false_r.
    + intros Ft Fo. unfold after_normalize.
      rewrite (truthy_has_key _ _ Ft), get_set_same.
      rewrite (reconciled_in_place_effective _ Ft Fo).
      rewrite normalizeB_object in Nf by assumption. congruence.
Qed.

Lemma loadResume_loaded_witness :
  exists st' v',
    loadResume PageScenarios.online PageScenarios.readable (VStr "u1")
      (PageScenarios.storeWith (PageScenarios.recordWith PageScenarios.plainFeedback),
       mounted)
    = Some (Ok tt, (st', v'))
    /\ feedback v' = VObj [("overall_score", VNum 82); ("overallScore", VNum 82)]
    /\ effective (get "feedback" (resumeData v')) = feedback v'
    /\ get "jobTitle" (resumeData v') = VStr "Dev"
    /\ resumeUrl v' = "blob:0" /\ imageUrl v' = "blob:1".
Proof.
  destruct (loadResume_loaded PageScenarios.online PageScenarios.readable (VStr "u1")
              (PageScenarios.storeWith (PageScenarios.recordWith PageScenarios.plainFeedback))
              mounted
              (PageScenarios.textOf (PageScenarios.recordWith PageScenarios.plainFeedback))
              _ (Blob (Some "bytes")) (Blob (Some "bytes"))
              eq_refl eq_refl eq_refl eq_refl eq_refl eq_refl eq_refl)
    as (st' & v' & fb & E & N & F & G & _ & A & _ & _ & U1 & U2).
  exists st', v'. split; [exact E|].
  assert (Hfb : fb = VObj [("overall_score", VNum 82); ("overallScore", VNum 82)]).
  { vm_compute in N. congruence. }
  split; [congruence|]. split; [|split; [|split]].
  - rewrite F. symmetry. exact (A eq_refl eq_refl).
  - rewrite (G "jobTitle") by discriminate. reflexivity.
  - exact U1.
  - exact U2.
Defined.

End PageBExtras.


Module URLFacts.
Import URL JSONFacts.

Lemma escape_cons (c : ascii) (rest : string) :
  escape (String c rest) = escaped c +:+ escape rest.
Proof. unfold escaped. simpl. destruct (is_unreserved c); reflexivity. Qed.

Ltac each_byte c :=
  destruct c as [[] [] [] [] [] [] [] []]; reflexivity.

Lemma percent_decode_escaped (c : ascii) (rest : string) :
  percent_decode (escaped c +:+ rest) = String c (percent_decode rest).
Proof. each_byte c. Qed.

Lemma plus_to_space_escaped (c : ascii) (rest : string) :
  plus_to_space (escaped c +:+ rest) = escaped c +:+ plus_to_space rest.
Proof. each_byte c. Qed.

Lemma free_of_app (sep : ascii) (a b : string) :
  free_of sep (a +:+ b) = free_of sep a && free_of sep b.
Proof.
  induction a as [|c a IH]; [reflexivity|].
  rewrite append_cons. simpl. rewrite IH. now rewrite andb_assoc.
Qed.

Lemma escaped_free (c : ascii) :
  free_of "&" (escaped c) = true /\ free_of "=" (escaped c) = true
  /\ free_of "#" (escaped c) = true /\ free_of "?" (escaped c) = true.
Proof. destruct c as [[] [] [] [] [] [] [] []]; repeat split; reflexivity. Qed.

Lemma escape_free (s : string) :
  free_of "&" (escape s) = true /\ free_of "=" (escape s) = true
  /\ free_of "#" (escape s) = true /\ free_of "?" (escape s) = true.
Proof.
  induction s as [|c s (I1 & I2 & I3 & I4)]; [repeat split; reflexivity|].
  rewrite escape_cons, !free_of_app.
  destruct (escaped_free c) as (E1 & E2 & E3 & E4).
  now rewrite E1, E2, E3, E4, I1, I2, I3, I4.
Qed.

Lemma percent_decode_escape (s : string) : percent_decode (escape s) = s.
Proof.
  induction s as [|c s IH]; [reflexivity|].
  now rewrite escape_cons, percent_decode_escaped, IH.
Qed.

Lemma plus_to_space_escape (s : string) : plus_to_space (escape s) = escape s.
Proof.
  induction s as [|c s IH]; [reflexivity|].
  now rewrite escape_cons, plus_to_space_escaped, IH.
Qed.

Lemma split_on_free (sep : ascii) (s : string) :
  free_of sep s = true -> split_on sep s = [s].
Proof.
  induction s as [|c s IH]; [reflexivity|]. simpl.
  destruct (Ascii.eqb c sep); [discriminate|]. simpl. intros H. now rewrite IH.
Qed.

Lemma cut_at_free (sep : ascii) (s : string) :
  free_of sep s = true -> cut_at sep s = (s, None).
Proof.
  induction s as [|c s IH]; [reflexivity|]. simpl.
  destruct (Ascii.eqb c sep); [discriminate|]. simpl. intros H. now rewrite IH.
Qed.

Lemma from_first_free (sep : ascii) (s : string) :
  free_of sep s = true -> from_first sep s = EmptyString.
Proof.
  induction s as [|c s IH]; [reflexivity|]. simpl.
  destruct (Ascii.eqb c sep); [discriminate|]. simpl. exact IH.
Qed.

(** The query [?next=<escaped s>] gives [s] back, decoded. *)
Lemma searchParam_next (s : string) :
  searchParam "next" ("?next=" +:+ escape s) = Some (utf8_decode s).
Proof.
  destruct (escape_free s) as (F1 & F2 & _ & _).
  unfold searchParam, parse_query.
  change (strip_question ("?next=" +:+ escape s)) with ("next=" +:+ escape s).
  rewrite split_on_free by (rewrite free_of_app, F1; reflexivity).
  change (str_nonempty ("next=" +:+ escape s)) with true.
  cbv iota. simpl List.filter. simpl List.map. unfold pair_of.
  change (cut_at "=" ("next=" +:+ escape s)) with ("next", Some (escape s)).
  simpl fst. simpl snd. unfold decode_part at 2.
  rewrite plus_to_space_escape, percent_decode_escape. reflexivity.
Qed.

Lemma search_of_auth (q : string) :
  free_of "#" q = true -> free_of "?" q = true ->
  search_of ("/auth?next=" +:+ q) = "?next=" +:+ q.
Proof.
  intros H1 H2. unfold search_of.
  rewrite cut_at_free by (rewrite free_of_app, H1; reflexivity).
  reflexivity.
Qed.

End URLFacts.

Module AuthExtras.
Import URL URLFacts AuthPage Session.

(** X15.  When the second resume page sends a signed-out visitor to the
    sign-in page, the [next] that page reads from its address is the resume
    page the visitor came from.  Once the store is ready, settled and signed
    in, the sign-in page navigates there, and the resume page does not send
    the visitor back. *)
Theorem sign_in_returns_to_resume (id : value) (s s' : Store) (to : string) :
  resumeRedirect id s = Ok (Some to) ->
  next (search_of to) = "/resume/" +:+ toString id
  /\ (puterReady s' = true -> isLoading s' = false -> isAuthenticated s' = true ->
      redirect s' (search_of to) = Some ("/resume/" +:+ toString id)
      /\ resumeRedirect id s' = Ok None).
Proof.
  unfold resumeRedirect. intros H.
  destruct (truthy id) eqn:Ti; cbv [negb] in H; [|discriminate].
  destruct (isLoading s); cbv [negb andb] in H; [discriminate|].
  destruct (isAuthenticated s); [discriminate|].
  unfold encodeURIComponent in H.
  destruct (well_formed ("/resume/" +:+ toString id)) eqn:W; [|discriminate].
  destruct (escape_free ("/resume/" +:+ toString id)) as (_ & _ & F3 & F4).
  assert (Hto : to = "/auth?next=" +:+ escape ("/resume/" +:+ toString id)) by congruence.
  clear H. subst to.
  rewrite (search_of_auth _ F3 F4).
  assert (N : next ("?next=" +:+ escape ("/resume/" +:+ toString id))
              = "/resume/" +:+ toString id).
  { unfold next. rewrite searchParam_next.
    apply String.eqb_eq in W. rewrite W. reflexivity. }
  split; [exact N|].
  intros R L A. unfold redirect. rewrite R, L, A, N. simpl. auto.
Qed.

Lemma sign_in_returns_to_resume_witness :
  resumeRedirect (VStr "u1") (signedOut created) = Ok (Some "/auth?next=%2Fresume%2Fu1")
  /\ next (search_of "/auth?next=%2Fresume%2Fu1") = "/resume/u1"
  /\ redirect (ready (signedIn ann created)) (search_of "/auth?next=%2Fresume%2Fu1")
     = Some "/resume/u1".
Proof.
  split; [reflexivity|].
  destruct (sign_in_returns_to_resume (VStr "u1") (signedOut created)
              (ready (signedIn ann created)) "/auth?next=%2Fresume%2Fu1" eq_refl)
    as (N & R).
  split; [exact N|].
  exact (proj1 (R eq_refl eq_refl eq_refl)).
Defined.

End AuthExtras.


Module CleanFacts.
Import JSON JSONFacts ObjFacts PuterStore Upload.

Lemma assoc_set_unique k x (props : list (string * value)) :
  keys_unique props = true -> keys_unique (assoc_set k x props) = true.
Proof.
  induction props as [|[k' v'] props IH]; [reflexivity|].
  simpl. destruct (assoc k' props) eqn:E; [discriminate|]. intros H.
  destruct (String.eqb_spec k k') as [->|Hne]; simpl.
  - now rewrite E.
  - rewrite assoc_set_other by assumption. rewrite E. auto.
Qed.

Lemma assoc_set_clean k x (props : list (string * value)) :
  json_clean x = true ->
  forallb (fun kv => json_clean (snd kv)) props = true ->
  forallb (fun kv => json_clean (snd kv)) (assoc_set k x props) = true.
Proof.
  intros Hx. induction props as [|[k' v'] props IH]; simpl.
  - now rewrite Hx.
  - intros H. apply andb_prop in H as [H1 H2].
    destruct (String.eqb k k'); simpl.
    + now rewrite Hx, H2.
    + now rewrite H1, IH.
Qed.

Lemma fold_assoc_set_clean (ms acc : list (string * value)) :
  keys_unique acc = true ->
  forallb (fun kv => json_clean (snd kv)) acc = true ->
  forallb (fun kv => json_clean (snd kv)) ms = true ->
  json_clean (VObj (fold_left (fun a kv => assoc_set (fst kv) (snd kv) a) ms acc)) = true.
Proof.
  revert acc. induction ms as [|[k x] ms IH]; intros acc Hu Hc Hm; simpl in Hm |- *.
  - now rewrite Hu, Hc.
  - apply andb_prop in Hm as [Hx Hm].
    apply IH; auto using assoc_set_unique, assoc_set_clean.
Qed.

Lemma set_clean k x o :
  json_clean x = true -> json_clean o = true -> json_clean (set k x o) = true.
Proof.
  intros Hx Ho. destruct o; try exact Ho. simpl in Ho |- *.
  apply andb_prop in Ho as [H1 H2].
  now rewrite assoc_set_unique, assoc_set_clean.
Qed.

(** What [JSON.parse] gives is a value JSON text can denote. *)
Lemma parse_fuel_clean (fuel : nat) :
  (forall s v r, parse_value fuel s = Some (v, r) -> json_clean v = true)
  /\ (forall s vs r, parse_elements fuel s = Some (vs, r) ->
                     forallb json_clean vs = true)
  /\ (forall s ms r, parse_members fuel s = Some (ms, r) ->
                     forallb (fun kv => json_clean (snd kv)) ms = true).
Proof.
  induction fuel as [|fuel (IHv & IHe & IHm)].
  { repeat split; intros; discriminate. }
  repeat split.
  - intros s v r. rewrite parse_value_unfold.
    destruct (skip_ws s) as [|c rest]; [discriminate|].
    destruct (Ascii.eqb c "{").
    { destruct (skip_ws rest) as [|c1 rest1]; [discriminate|].
      destruct (Ascii.eqb c1 "}"); [intros [= <- _]; reflexivity|].
      destruct (parse_members fuel rest) as [[ms r']|] eqn:E; [|discriminate].
      intros [= <- _]. unfold object_of.
      apply fold_assoc_set_clean; try reflexivity. eapply IHm; eauto. }
    destruct (Ascii.eqb c "[").
    { destruct (skip_ws rest) as [|c1 rest1]; [discriminate|].
      destruct (Ascii.eqb c1 "]"); [intros [= <- _]; reflexivity|].
      destruct (parse_elements fuel rest) as [[vs r']|] eqn:E; [|discriminate].
      intros [= <- _]. simpl. eapply IHe; eauto. }
    destruct (Ascii.eqb c dquote).
    { destruct (parse_chars rest) as [[str r']|]; [|discriminate].
      intros [= <- _]. reflexivity. }
    unfold expect.
    destruct (Ascii.eqb c "t").
    { destruct (strip_prefix _ _); [|discriminate]. intros [= <- _]. reflexivity. }
    destruct (Ascii.eqb c "f").
    { destruct (strip_prefix _ _); [|discriminate]. intros [= <- _]. reflexivity. }
    destruct (Ascii.eqb c "n").
    { destruct (strip_prefix _ _); [|discriminate]. intros [= <- _]. reflexivity. }
    unfold parse_number.
    destruct (Ascii.eqb c "-").
    + destruct (read_uint rest) as [u r0].
      destruct (int_literal_ok u && negb (starts_fraction r0)); [|discriminate].
      intros [= <- _]. reflexivity.
    + destruct (read_uint (String c rest)) as [u r0].
      destruct (int_literal_ok u && negb (starts_fraction r0)); [|discriminate].
      intros [= <- _]. reflexivity.
  - intros s vs r. rewrite parse_elements_unfold.
    destruct (parse_value fuel s) as [[v r0]|] eqn:E; [|discriminate].
    apply IHv in E.
    destruct (skip_ws r0) as [|c rest]; [discriminate|].
    destruct (Ascii.eqb c ",").
    { destruct (parse_elements fuel rest) as [[vs' r']|] eqn:E'; [|discriminate].
      intros [= <- _]. simpl. rewrite E. eapply IHe; eauto. }
    destruct (Ascii.eqb c "]"); [|discriminate].
    intros [= <- _]. simpl. now rewrite E.
  - intros s ms r. rewrite parse_members_unfold.
    destruct (skip_ws s) as [|c rest]; [discriminate|].
    destruct (Ascii.eqb c dquote); [|discriminate].
    destruct (parse_chars rest) as [[k r1]|]; [|discriminate].
    destruct (skip_ws r1) as [|c1 r2]; [discriminate|].
    destruct (Ascii.eqb c1 ":"); [|discriminate].
    destruct (parse_value fuel r2) as [[v r3]|] eqn:E; [|discriminate].
    apply IHv in E.
    destruct (skip_ws r3) as [|c3 r4]; [discriminate|].
    destruct (Ascii.eqb c3 ",").
    { destruct (parse_members fuel r4) as [[ms' r']|] eqn:E'; [|discriminate].
      intros [= <- _]. simpl. rewrite E. eapply IHm; eauto. }
    destruct (Ascii.eqb c3 "}"); [|discriminate].
    intros [= <- _]. simpl. now rewrite E.
Qed.

Lemma parse_clean (s : string) (v : value) :
  JSON.parse s = Some v -> json_clean v = true.
Proof.
  unfold parse.
  destruct (parse_value (S (String.length s)) s) as [[v' r]|] eqn:E; [|discriminate].
  destruct (skip_ws r); [|discriminate]. intros [= <-].
  eapply (proj1 (parse_fuel_clean _)); eauto.
Qed.

Lemma assoc_clean k (props : list (string * value)) v :
  forallb (fun kv => json_clean (snd kv)) props = true ->
  assoc k props = Some v -> json_clean v = true.
Proof.
  induction props as [|[k' v'] props IH]; simpl; [discriminate|].
  intros H. apply andb_prop in H as [H1 H2].
  destruct (String.eqb k k'); [intros [= <-]; exact H1|auto].
Qed.

(** A property of a denotable value is denotable, or is not there. *)
Lemma get_clean k o :
  json_clean o = true -> nullish (get k o) = false -> json_clean (get k o) = true.
Proof.
  intros Ho N. destruct o; simpl in N |- *; try discriminate.
  simpl in Ho. apply andb_prop in Ho as [_ Ho].
  destruct (assoc k props) eqn:E; [|discriminate]. eapply assoc_clean; eauto.
Qed.

Lemma coalesce_get_clean k o d :
  json_clean o = true -> json_clean d = true ->
  json_clean (coalesce (get k o) d) = true.
Proof.
  intros Ho Hd. unfold coalesce.
  destruct (nullish (get k o)) eqn:N; [exact Hd|]. now apply get_clean.
Qed.

Lemma index_from_clean (l : list value) :
  forallb json_clean l = true ->
  forall i, forallb (fun kv => json_clean (snd kv)) (index_from i l) = true.
Proof.
  induction l as [|x l IH]; intros H i; [reflexivity|].
  simpl in H |- *. apply andb_prop in H as [H1 H2]. now rewrite H1, IH.
Qed.

Lemma chars_clean (s : string) : forallb json_clean (chars_of s) = true.
Proof. induction s; simpl; auto. Qed.

Lemma spread_props_clean (v : value) :
  json_clean v = true ->
  forallb (fun kv => json_clean (snd kv)) (spread_props v) = true.
Proof.
  destruct v; simpl; auto.
  - intros _. apply index_from_clean, chars_clean.
  - intros H. now apply index_from_clean.
  - intros H. now apply andb_prop in H as [_ H].
Qed.

(** The record of [toAIResponseFromJSON] is denotable when the reply is. *)
Lemma aiResponse_clean (id : string) (parsed : value) :
  json_clean parsed = true -> json_clean (aiResponse id parsed) = true.
Proof.
  intros H. unfold aiResponse, spread_into.
  apply fold_assoc_set_clean.
  - reflexivity.
  - simpl.
    repeat (rewrite coalesce_get_clean;
            [|assumption|try reflexivity; simpl]); try reflexivity.
  - apply spread_props_clean. unfold coalesce. now destruct parsed.
Qed.

Lemma ollamaFeedback_clean (w : World) (prompt : string) (s : State) (r : value) :
  fst (ollamaFeedback w prompt s) = Ok r -> json_clean r = true.
Proof.
  unfold ollamaFeedback, bind, log, modify, next_fetch, toAIResponseFromJSON,
    next_uuid, throw, ret. simpl.
  destruct (fetch w (fetches s)) as [|ok status body]; simpl; [discriminate|].
  destruct ok; simpl; [|discriminate].
  destruct body as [text|]; simpl; [|discriminate].
  destruct (JSON.parse text) as [data|]; simpl; [|discriminate].
  destruct (coalesce (get "response" data) (VStr EmptyString)); simpl;
    try (intros [= <-]; now apply aiResponse_clean).
  destruct (JSON.parse (trim s0)) eqn:E; simpl; intros [= <-];
    apply aiResponse_clean; [eapply parse_clean; eauto|reflexivity].
Qed.

Lemma ollamaBranch_clean (w : World) (path : value) (message : string)
    (s : State) (r : value) :
  fst (ollamaBranch w path message s) = Ok r -> json_clean r = true.
Proof.
  unfold ollamaBranch, try_catch, bind.
  destruct (readFile w path s) as [[b|e0] s1].
  - set (prompt := combined message path _).
    destruct (ollamaFeedback w prompt s1) as [[r1|e1] s2] eqn:E1; simpl.
    + intros [= <-]. eapply ollamaFeedback_clean. now rewrite E1.
    + apply ollamaFeedback_clean.
  - apply ollamaFeedback_clean.
Qed.

(** What [feedback] returns is denotable when the hosted reply is. *)
Lemma feedback_clean (w : World) (path : value) (message : string)
    (s : State) (r : value) :
  (forall fb, ai_chat w = Ok fb -> json_clean fb = true) ->
  fst (PuterStore.feedback w path message s) = Ok r -> json_clean r = true.
Proof.
  intros Hc. unfold PuterStore.feedback.
  destruct (puter w); simpl negb; cbv iota; [|apply ollamaBranch_clean].
  unfold try_catch, bind, log, modify, lift. simpl.
  destruct (ai_chat w) as [v|e] eqn:E; simpl.
  - intros [= <-]. now apply Hc.
  - apply ollamaBranch_clean.
Qed.

End CleanFacts.

Module JourneyFacts.
Import JSON PuterStore Upload Runs Endings Journey.
Import ObjFacts RunFacts FallbackFacts UploadFacts EndingFacts CleanFacts.

Lemma wp_feedback_clean w path message (post : outcome value -> State -> Prop) s :
  (forall fb, ai_chat w = Ok fb -> json_clean fb = true) ->
  (forall r s' evs,
      trace s' = trace s ++ evs -> forallb is_ai_event evs = true -> kv s' = kv s ->
      (forall fb, r = Ok fb -> json_clean fb = true) -> post r s') ->
  wp (PuterStore.feedback w path message) post s.
Proof.
  intros Hc H. destruct (quiet_feedback w path message s) as (evs & T & F & K).
  unfold wp. apply (H _ _ evs); auto. intros fb E. eapply feedback_clean; eauto.
Qed.

(** The analysis stage either calls no [navigate], or ends with the final
    record in the store, a record JSON text can denote. *)
Lemma analyze_saves (w : World) (p : Params) (uploadedPdf data : value) (s : State) :
  puter w = true ->
  (forall fb, ai_chat w = Ok fb -> json_clean fb = true) ->
  json_clean data = true ->
  wp (analyze w p uploadedPdf data)
     (fun r s' =>
        count is_navigate (trace s') = count is_navigate (trace s)
        \/ exists fb,
             json_clean (set "feedback" fb data) = true
             /\ kv s' = <[key_of w := stringify_str (set "feedback" fb data)]> (kv s)
             /\ r = Ok tt) s.
Proof.
  intros P Hc Hd. unfold analyze.
  apply wp_bind, wp_modify, wp_bind, wp_feedback_clean; [exact Hc|].
  intros r s1 ai T F K C; simpl in T, K.
  assert (N : count is_navigate (trace s1) = count is_navigate (trace s)).
  { rewrite T, count_app. destruct (ai_counts ai F) as (_ & _ & _ & ->). lia. }
  destruct r as [fb|e]; [|now left].
  destruct (truthy fb); simpl negb; cbv iota.
  2:{ apply wp_modify. now left. }
  apply wp_bind, wp_lift.
  destruct (extractFeedbackText fb) as [feedbackText|e]; [|now left].
  destruct (truthy feedbackText); simpl negb; cbv iota.
  2:{ apply wp_modify. now left. }
  cbv beta zeta.
  destruct (JSON.parse (toString feedbackText)) as [parsed|] eqn:Pj.
  - apply wp_finish; [exact P|]. right. exists parsed. simpl. rewrite K.
    split; [|auto]. apply set_clean; [|exact Hd]. eapply parse_clean; eauto.
  - destruct (is_object_type fb).
    + apply wp_finish; [exact P|]. right. exists fb. simpl. rewrite K.
      split; [|auto]. apply set_clean; [|exact Hd]. now apply C.
    + apply wp_modify. now left.
Qed.

Lemma placeholder_denotable (w : World) (p : Params) (pdf img : value) :
  json_clean pdf = true -> json_clean img = true ->
  json_clean (placeholder w p pdf img) = true.
Proof. intros H1 H2. unfold placeholder. simpl. now rewrite H1, H2. Qed.

(** A run that calls [navigate] went through both uploads and the
    conversion and left the final record, a denotable one, under the key. *)
Lemma handleAnalyze_saves (w : World) (p : Params) (st : State) :
  wire_data w -> navigated w p st ->
  exists pdf img fb,
    uploaded w st pdf img
    /\ json_clean (finalRecord w p pdf img fb) = true
    /\ kv (snd (handleAnalyze w p st)) !! key_of w
       = Some (stringify_str (finalRecord w p pdf img fb)).
Proof.
  intros [Hpaths Hchat] Hn. unfold navigated in Hn. revert Hn.
  set (post := fun (r : outcome unit) (s' : State) =>
    (count is_navigate (trace st) < count is_navigate (trace s'))%nat ->
    exists pdf img fb,
      uploaded w st pdf img
      /\ json_clean (finalRecord w p pdf img fb) = true
      /\ kv s' !! key_of w = Some (stringify_str (finalRecord w p pdf img fb))).
  change (wp (handleAnalyze w p) post st).
  assert (Hstop : forall r s' evs,
            trace s' = trace st ++ evs -> count is_navigate evs = O -> post r s').
  { intros r s' evs T C Hn. rewrite T, count_app, C in Hn. lia. }
  unfold handleAnalyze.
  apply wp_finally, wp_try_catch.
  apply (wp_mono _ (fun r s' => post r s')).
  { intros [a|e] s' H; [exact H|]. apply wp_modify. exact H. }
  apply wp_bind, wp_modify, wp_bind, wp_modify, wp_bind.
  unfold upload at 1. destruct (puter w) eqn:P; simpl negb; cbv iota.
  2:{ apply wp_bind, wp_modify, wp_ret, wp_modify.
      apply (Hstop _ _ []); [simpl; now rewrite app_nil_r|reflexivity]. }
  apply wp_bind, wp_modify, wp_bind, wp_next_upload, wp_lift.
  simpl uploads.
  destruct (fs_upload w (uploads st)) as [raw1|e1] eqn:U1.
  2:{ apply (Hstop _ _ [EvUpload]); reflexivity. }
  cbv zeta.
  destruct (truthy (get "path" (pickUploaded raw1))) eqn:T1; simpl negb; cbv iota.
  2:{ apply wp_modify. apply (Hstop _ _ [EvUpload]); reflexivity. }
  apply wp_bind, wp_modify, wp_bind, wp_modify, wp_bind, wp_lift.
  destruct (convertPdfToImage w) as [imageResult|e2] eqn:Cv.
  2:{ apply (Hstop _ _ [EvUpload; EvConvert]); [simpl; now rewrite <- app_assoc|reflexivity]. }
  cbv zeta.
  destruct (truthy (coalesce (get "file" imageResult) VNull)) eqn:Tf; simpl negb; cbv iota.
  2:{ apply wp_modify.
      apply (Hstop _ _ [EvUpload; EvConvert]); [simpl; now rewrite <- app_assoc|reflexivity]. }
  apply wp_bind, wp_modify, wp_bind.
  unfold upload. rewrite P. simpl negb. cbv iota.
  apply wp_bind, wp_modify, wp_bind, wp_next_upload, wp_lift.
  simpl uploads.
  destruct (fs_upload w (S (uploads st))) as [raw2|e3] eqn:U2.
  2:{ apply (Hstop _ _ [EvUpload; EvConvert; EvUpload]);
        [simpl; now rewrite <- !app_assoc|reflexivity]. }
  cbv zeta.
  destruct (truthy (get "path" (pickUploaded raw2))) eqn:T2; simpl negb; cbv iota.
  2:{ apply wp_modify.
      apply (Hstop _ _ [EvUpload; EvConvert; EvUpload]);
        [simpl; now rewrite <- !app_assoc|reflexivity]. }
  apply wp_bind, wp_modify, wp_bind.
  unfold setKV. rewrite P. simpl negb. cbv iota.
  apply wp_bind, wp_modify, wp_bind, wp_modify, wp_ret.
  set (pdf := get "path" (pickUploaded raw1)) in *.
  set (img := get "path" (pickUploaded raw2)) in *.
  match goal with |- wp _ _ ?s => set (s4 := s) end.
  assert (Ht : trace s4 = trace st ++ [EvUpload; EvConvert; EvUpload;
                                       saved w (placeholder w p pdf img)]).
  { subst s4. simpl. now rewrite <- !app_assoc. }
  assert (Hd : json_clean (placeholder w p pdf img) = true).
  { apply placeholder_denotable; [apply (Hpaths _ _ U1)|apply (Hpaths _ _ U2)]; assumption. }
  eapply wp_mono; [|apply (analyze_saves w p _ _ s4 P Hchat Hd)].
  intros r s5 [N|(fb & C & K & ->)].
  - intros Hn. rewrite N, Ht, count_app in Hn. cbn in Hn. lia.
  - intros _. exists pdf, img, fb. split; [|split; [exact C|]].
    + unfold uploaded. repeat split; eauto.
    + rewrite K. apply lookup_insert_eq.
Qed.

End JourneyFacts.

Module JourneyPageFacts.
Import JSON Normalizer ObjFacts NormalizerFacts UnwrapFacts.
Import Page StoreReads PageFacts ReadFacts.

Lemma parsed_text_nonempty (text : string) (x : value) :
  JSON.parse text = Some x -> truthy (VStr text) = true.
Proof. destruct text; [discriminate|reflexivity]. Qed.

(** [load] on a stored object. *)
Lemma load_stored_object (w : World) (id : value) (st : State) (v : ResumePageA.View)
    (text : string) (props : list (string * value)) :
  truthy id = true -> puter w = true ->
  kv st !! ("resume:" +:+ toString id) = Some (VStr text) ->
  JSON.parse text = Some (VObj props) ->
  exists fb1 fb2,
    ViewerA.normalizeFeedback (get "feedback" (VObj props)) = Some fb1
    /\ (if is_object_type fb1 && truthy (get "feedback" fb1)
        then ViewerA.normalizeFeedback (get "feedback" fb1)
        else Some fb1) = Some fb2
    /\ ResumePageA.load w id (st, v)
       = Some (Ok tt,
               (st, {| ResumePageA.loading := false;
                       ResumePageA.data :=
                         Some {| ResumePageA.record := VObj props;
                                 ResumePageA.feedback := fb2 |};
                       ResumePageA.error := EmptyString |})).
Proof.
  intros Ti Pw Hk Hp.
  destruct (ends_result _ _ _ (PageAFacts.load_cases w id st v))
    as (r & [st' v'] & E & -> & L & K & T & S & C).
  simpl in L, K, T, S, C. rewrite E. rewrite (S Pw).
  destruct (getKV_reads w ("resume:" +:+ toString id) st) as (_ & _ & _ & G1).
  specialize (G1 Pw). rewrite Hk in G1.
  pose proof (parsed_text_nonempty text _ Hp) as Hne.
  destruct C as [(Ti' & _)|[(_ & Hr & _)|(raw & _ & Gr & _ & C)]]; [congruence| |].
  { rewrite G1 in Hr. specialize (Hr _ eq_refl). congruence. }
  rewrite G1 in Gr. injection Gr as <-. simpl in C. rewrite Hp in C.
  destruct C as (Er & fb1 & fb2 & N1 & N2 & Da).
  exists fb1, fb2. split; [exact N1|]. split; [exact N2|].
  destruct v' as [l d e]. simpl in *. subst. reflexivity.
Qed.

Lemma readFile_reads (w : World) (a : outcome (option blob)) (path : value) (st : State) :
  puter w = true ->
  PuterStore.readFile (answering w a) path st = (a, with_event (EvRead path) st).
Proof.
  intros Pw. unfold PuterStore.readFile, answering. simpl. rewrite Pw. reflexivity.
Qed.

End JourneyPageFacts.

Module JourneyPageBFacts.
Import JSON Normalizer ObjFacts NormalizerFacts UnwrapFacts.
Import Page StoreReads ResumePageB PageFacts ReadFacts PageBFacts JourneyPageFacts.

(** [loadResume] on a stored object whose two files can be read, with no
    cleanup on the way: the two reads it makes and the state it ends in. *)
Lemma loadResume_reads (w : World) (h : Host) (id : value) (st : State) (v : View)
    (text : string) (props : list (string * value)) (pdf img : blob) :
  truthy id = true -> puter w = true ->
  kv st !! ("resume:" +:+ toString id) = Some (VStr text) ->
  JSON.parse text = Some (VObj props) ->
  read h 0 = Ok (Some pdf) -> read h 1 = Ok (Some img) ->
  cancel_at h = None ->
  exists fb v',
    ViewerB.normalizeFeedback (get "feedback" (VObj props)) = Some fb
    /\ loadResume w h id (st, v)
       = Some (Ok tt,
               (with_event (EvRead (get "imagePath" (VObj props)))
                  (with_event (EvRead (get "resumePath" (VObj props))) st), v'))
    /\ resumeData v' = after_normalize (VObj props)
    /\ feedback v' = fb
    /\ resumeUrl v' = createObjectURL h (List.length (created v))
    /\ imageUrl v' = createObjectURL h (S (List.length (created v)))
    /\ created v' = created v ++ [ createObjectURL h (List.length (created v));
                                   createObjectURL h (S (List.length (created v))) ]
    /\ pageLoading v' = false
    /\ error v' = EmptyString.
Proof.
  intros Ti Pw Hk Hp R0 R1 Ca.
  destruct (proj2 (normalizeFeedback_total (get "feedback" (VObj props)))) as [fb Nf].
  exists fb.
  assert (Hc : forall x, cancelled h x = false).
  { intros x. unfold cancelled. now rewrite Ca. }
  destruct (getKV_reads w ("resume:" +:+ toString id) st) as (_ & _ & _ & G1).
  specialize (G1 Pw). rewrite Hk in G1.
  pose proof (parsed_text_nonempty text _ Hp) as Hne.
  set (st2 := with_event (EvRead (get "imagePath" (VObj props)))
                (with_event (EvRead (get "resumePath" (VObj props))) st)).
  assert (E : ends (loadResume w h id)
                (fun r s' =>
                   r = Ok tt /\ fst s' = st2
                   /\ resumeData (snd s') = after_normalize (VObj props)
                   /\ feedback (snd s') = fb
                   /\ resumeUrl (snd s') = createObjectURL h (List.length (created v))
                   /\ imageUrl (snd s') = createObjectURL h (S (List.length (created v)))
                   /\ created (snd s')
                      = created v ++ [ createObjectURL h (List.length (created v));
                                       createObjectURL h (S (List.length (created v))) ]
                   /\ pageLoading (snd s') = false
                   /\ error (snd s') = EmptyString) (st, v)).
  { unfold loadResume.
    apply ends_bind, ends_update, ends_bind, ends_update, ends_bind, ends_update.
    apply ends_finally, ends_try_catch. simpl fst. simpl snd.
    rewrite Ti. simpl negb. cbv iota.
    apply ends_bind, ends_await, ends_store_call. simpl fst. simpl snd.
    rewrite G1. simpl fst. simpl snd. cbv beta iota. rewrite Hne. simpl negb. cbv iota.
    apply ends_bind, ends_parse_json. simpl toString. rewrite Hp.
    apply ends_bind, ends_lift. unfold member. simpl nullish. cbv iota.
    apply ends_bind, ends_await, ends_store_call. simpl fst. simpl snd.
    rewrite (readFile_reads w _ _ _ Pw), R0. simpl fst. simpl snd. cbv beta iota.
    apply ends_bind, ends_newObjectURL. simpl fst. simpl snd.
    apply ends_bind, ends_lift. cbv beta iota.
    apply ends_bind, ends_await, ends_store_call. simpl fst. simpl snd.
    rewrite (readFile_reads w _ _ _ Pw), R1. simpl fst. simpl snd. cbv beta iota.
    apply ends_bind, ends_newObjectURL. simpl fst. simpl snd.
    simpl created. rewrite List.length_app. simpl List.length. rewrite Nat.add_1_r.
    apply ends_bind, ends_lift. cbv beta iota.
    apply ends_bind. eapply ends_fueled; [exact Nf|].
    apply ends_bind, ends_inspect. simpl snd. rewrite Hc.
    apply ends_bind, ends_update, ends_bind, ends_update, ends_bind, ends_update,
      ends_update.
    simpl fst. simpl snd. rewrite Hc. simpl. repeat split.
    now rewrite <- app_assoc. }
  destruct (ends_result _ _ _ E)
    as (r & [st' v'] & E' & -> & S & D & F & U1 & U2 & Cr & L & Er).
  simpl in S, D, F, U1, U2, Cr, L, Er. subst st'.
  exists v'. auto 10.
Qed.

End JourneyPageBFacts.

Module JourneyExtras.
Import JSON Normalizer ObjFacts NormalizerFacts.
Import Upload Runs Endings Journey Scenarios.
Import JourneyFacts JourneyPageFacts.

(** The text of a denotable final record reads back as the record. *)
Lemma stored_text (w : World) (p : Params) (pdf img fb : value) :
  json_clean (finalRecord w p pdf img fb) = true ->
  exists text props,
    stringify_str (finalRecord w p pdf img fb) = VStr text
    /\ JSON.parse text = Some (VObj props)
    /\ VObj props = finalRecord w p pdf img fb.
Proof.
  intros Hc. unfold stringify_str.
  assert (Hd : finalRecord w p pdf img fb <> VUndefined) by discriminate.
  destruct (JSONFacts.stringify_defined _ Hd) as (c & r & Hs).
  rewrite Hs. exists (String c r). eexists. split; [reflexivity|].
  split; [|reflexivity]. now apply JSONFacts.parse_stringify.
Qed.

Lemma finalRecord_feedback (w : World) (p : Params) (pdf img fb : value) :
  get "feedback" (finalRecord w p pdf img fb) = fb.
Proof. unfold finalRecord, placeholder. apply get_set_same. Qed.

Lemma finalRecord_other (w : World) (p : Params) (pdf img fb : value) (k : string) :
  k <> "feedback" ->
  get k (finalRecord w p pdf img fb) = get k (placeholder w p pdf img).
Proof. intros H. unfold finalRecord. apply get_set_other. congruence. Qed.

(** X16.  When what the hosted service gives back is data JSON text can
    denote and the generated id is not empty, a run of [handleAnalyze] that
    calls [navigate] is followed up by the first resume page: [load] for that
    id, from the state the run left, ends with no error and with the record
    the run saved last, which is the placeholder of the two upload paths and
    the submitted fields with [feedback] assigned.  The feedback it shows is
    the assigned one, unwrapped from up to three [feedback] levels and with
    its key variants reconciled. *)
Theorem saved_record_is_shown
    (w : World) (p : Params) (st : State) (v : ResumePageA.View) :
  wire_data w -> str_nonempty (generateUUID w) = true -> navigated w p st ->
  exists pdf img fb shown,
    uploaded w st pdf img
    /\ kv (snd (handleAnalyze w p st)) !! ("resume:" +:+ generateUUID w)
       = Some (stringify_str (finalRecord w p pdf img fb))
    /\ ResumePageA.load w (VStr (generateUUID w)) (snd (handleAnalyze w p st), v)
       = Some (Ok tt,
               (snd (handleAnalyze w p st),
                {| ResumePageA.loading := false;
                   ResumePageA.data :=
                     Some {| ResumePageA.record := finalRecord w p pdf img fb;
                             ResumePageA.feedback := shown |};
                   ResumePageA.error := EmptyString |}))
    /\ (forall n F,
          (n <= 3)%nat -> ResumePageA.nests n fb F ->
          truthy F = true -> is_object_type F = true ->
          truthy (get "feedback" F) = false ->
          shown = fix_score (fix_tone F)).
Proof.
  intros Hw Hu Hn.
  destruct (handleAnalyze_saves w p st Hw Hn) as (pdf & img & fb & U & C & K).
  destruct (stored_text w p pdf img fb C) as (text & props & Es & Ep & Ed).
  destruct (load_stored_object w (VStr (generateUUID w)) (snd (handleAnalyze w p st)) v
              text props Hu (proj1 U)) as (fb1 & fb2 & N1 & N2 & L).
  { rewrite <- Es. exact K. }
  { exact Ep. }
  exists pdf, img, fb, fb2. split; [exact U|]. split; [exact K|].
  rewrite Ed in L, N1. rewrite finalRecord_feedback in N1.
  split; [exact L|].
  intros n F Hn3 Hx Ft Fo Ff.
  exact (PageAFacts.page_unwraps n fb F fb1 fb2 Hn3 Hx Ft Fo Ff N1 N2).
Qed.

Lemma hostedReply_wire (text : string) : wire_data (hostedReply text).
Proof.
  split.
  - intros n raw [= <-] _. now destruct (Nat.eqb n 0).
  - intros fb [= <-]. reflexivity.
Qed.

Lemma hostedReply_navigated :
  navigated (hostedReply scoredText) submission (initial ∅).
Proof. unfold navigated. apply Nat.ltb_lt. vm_compute. reflexivity. Qed.

Lemma saved_record_is_shown_witness :
  exists d shown,
    ResumePageA.load (hostedReply scoredText) (VStr "u1")
      (snd (handleAnalyze (hostedReply scoredText) submission (initial ∅)),
       ResumePageA.mounted)
    = Some (Ok tt,
            (snd (handleAnalyze (hostedReply scoredText) submission (initial ∅)),
             {| ResumePageA.loading := false;
                ResumePageA.data :=
                  Some {| ResumePageA.record := d; ResumePageA.feedback := shown |};
                ResumePageA.error := EmptyString |}))
    /\ get "jobTitle" d = VStr "Dev"
    /\ get "resumePath" d = VStr "/r.pdf".
Proof.
  destruct (saved_record_is_shown (hostedReply scoredText) submission (initial ∅)
              ResumePageA.mounted (hostedReply_wire scoredText) eq_refl
              hostedReply_navigated)
    as (pdf & img & fb & shown & U & _ & L & _).
  exists (finalRecord (hostedReply scoredText) submission pdf img fb), shown.
  split; [exact L|]. split.
  - rewrite finalRecord_other by discriminate. reflexivity.
  - rewrite finalRecord_other by discriminate.
    destruct U as (_ & (raw & E & <-) & _). simpl in E. injection E as <-.
    reflexivity.
Defined.

(** X17.  Under the same conditions the second resume page, when both of
    its reads succeed and its effect is not cleaned up, reads exactly the
    two files the run uploaded, the PDF first, at the paths the upload
    results gave.  It ends with no error and the loading state off, shows
    the normalised form of the feedback the run assigned, and keeps the
    record with every other property as the run saved it. *)
Theorem saved_files_are_read
    (w : World) (p : Params) (st : State)
    (h : ResumePageB.Host) (v : ResumePageB.View) (pdfBlob imgBlob : blob) :
  wire_data w -> str_nonempty (generateUUID w) = true -> navigated w p st ->
  ResumePageB.read h 0 = Ok (Some pdfBlob) ->
  ResumePageB.read h 1 = Ok (Some imgBlob) ->
  ResumePageB.cancel_at h = None ->
  exists pdf img fb st' v',
    uploaded w st pdf img
    /\ ResumePageB.loadResume w h (VStr (generateUUID w))
         (snd (handleAnalyze w p st), v)
       = Some (Ok tt, (st', v'))
    /\ trace st' = trace (snd (handleAnalyze w p st)) ++ [EvRead pdf; EvRead img]
    /\ kv st' = kv (snd (handleAnalyze w p st))
    /\ ViewerB.normalizeFeedback fb = Some (ResumePageB.feedback v')
    /\ (forall k, k <> "feedback" ->
                  get k (ResumePageB.resumeData v') = get k (placeholder w p pdf img))
    /\ ResumePageB.error v' = EmptyString
    /\ ResumePageB.pageLoading v' = false
    /\ ResumePageB.created v'
       = ResumePageB.created v ++ [ResumePageB.resumeUrl v'; ResumePageB.imageUrl v'].
Proof.
  intros Hw Hu Hn R0 R1 Ca.
  destruct (handleAnalyze_saves w p st Hw Hn) as (pdf & img & fb & U & C & K).
  destruct (stored_text w p pdf img fb C) as (text & props & Es & Ep & Ed).
  destruct (JourneyPageBFacts.loadResume_reads w h (VStr (generateUUID w))
              (snd (handleAnalyze w p st)) v text props pdfBlob imgBlob
              Hu (proj1 U)) as (fb' & v' & Nf & L & D & F & U1 & U2 & Cr & Pl & Er);
    try assumption.
  { rewrite <- Es. exact K. }
  rewrite Ed in L, Nf, D. rewrite finalRecord_feedback in Nf.
  rewrite !finalRecord_other in L by discriminate.
  exists pdf, img, fb. eexists _, v'. split; [exact U|]. split; [exact L|].
  split; [simpl; now rewrite <- app_assoc|]. split; [reflexivity|].
  split; [now rewrite F|].
  split; [|split; [exact Er|split; [exact Pl|]]].
  - intros k Hk. rewrite D. unfold ResumePageB.after_normalize.
    destruct (has_key "feedback" (finalRecord w p pdf img fb)).
    + rewrite get_set_other by congruence. now apply finalRecord_other.
    + now apply finalRecord_other.
  - now rewrite Cr, U1, U2.
Qed.

Lemma saved_files_are_read_witness :
  exists st' v',
    ResumePageB.loadResume (hostedReply scoredText) PageScenarios.readable (VStr "u1")
      (snd (handleAnalyze (hostedReply scoredText) submission (initial ∅)),
       ResumePageB.mounted)
    = Some (Ok tt, (st', v'))
    /\ trace st'
       = trace (snd (handleAnalyze (hostedReply scoredText) submission (initial ∅)))
         ++ [EvRead (VStr "/r.pdf"); EvRead (VStr "/r.png")]
    /\ get "companyName" (ResumePageB.resumeData v') = VStr "ACME"
    /\ ResumePageB.error v' = EmptyString.
Proof.
  destruct (saved_files_are_read (hostedReply scoredText) submission (initial ∅)
              PageScenarios.readable ResumePageB.mounted
              (Blob (Some "bytes")) (Blob (Some "bytes"))
              (hostedReply_wire scoredText) eq_refl hostedReply_navigated
              eq_refl eq_refl eq_refl)
    as (pdf & img & fb & st' & v' & U & L & T & _ & _ & G & Er & _).
  exists st', v'. split; [exact L|].
  destruct U as (_ & (raw1 & E1 & <-) & _ & _ & (raw2 & E2 & <-) & _).
  simpl in E1, E2. injection E1 as <-. injection E2 as <-.
  split; [exact T|]. split; [|exact Er].
  rewrite G by discriminate. reflexivity.
Defined.

End JourneyExtras.


(** * End-to-end checks of the model *)

Module Checks.
Import JSON PuterStore Upload Runs Scenarios.

Example parse_nested :
  JSON.parse scoredText
  = Some (VObj [("overallScore", VNum 82);
                ("content", VObj [("score", VNum 80); ("tips", VArr [])])]).
Proof. vm_compute. reflexivity. Qed.

Example parse_rejects_prose : JSON.parse "not json" = None.
Proof. vm_compute. reflexivity. Qed.

Example parse_rejects_trailing_comma : JSON.parse "[1,]" = None.
Proof. vm_compute. reflexivity. Qed.

Example parse_last_duplicate_wins :
  JSON.parse ("{" +:+ dq +:+ "a" +:+ dq +:+ ":1," +:+ dq +:+ "b" +:+ dq +:+ ":2,"
              +:+ dq +:+ "a" +:+ dq +:+ ":3}")
  = Some (VObj [("a", VNum 3); ("b", VNum 2)]).
Proof. vm_compute. reflexivity. Qed.

(** The hosted chat answers with JSON: the final record carries it. *)
Example hosted_reply_is_saved :
  persistedFeedback (hostedReply scoredText)
  = Some (VObj [("overallScore", VNum 82);
                ("content", VObj [("score", VNum 80); ("tips", VArr [])])]).
Proof. vm_compute. reflexivity. Qed.

(** The hosted chat throws and the local model answers with a score only. *)
Example local_reply_gets_defaults :
  persistedFeedback (localReply (fun _ => Response true 200 (body_of scoreOnlyText)))
  = Some (VObj [ ("id", VStr "r1");
                 ("overallScore", VNum 77);
                 ("content", VObj [("score", VNum 70); ("tips", VArr [])]);
                 ("skills", VObj [("score", VNum 70); ("tips", VArr []);
                                  ("missing", VArr [])]);
                 ("structure", VObj [("score", VNum 70); ("tips", VArr [])]);
                 ("toneAndStyle", VObj [("score", VNum 70); ("tips", VArr [])]);
                 ("tips", VArr []) ]).
Proof. vm_compute. reflexivity. Qed.

(** The hosted chat throws and the local model answers with prose. *)
Example local_prose_gets_safe_default :
  persistedFeedback (localReply (fun _ => Response true 200 (body_of "not json")))
  = Some (safeDefault "r1").
Proof. vm_compute. reflexivity. Qed.

(** The first request to the local model fails, the retry with the bare
    message goes through. *)
Example local_retry_is_used :
  persistedFeedback
    (localReply (fun n => if Nat.eqb n 0 then FetchRejected
                          else Response true 200 (body_of scoreOnlyText)))
  = persistedFeedback (localReply (fun _ => Response true 200 (body_of scoreOnlyText))).
Proof. vm_compute. reflexivity. Qed.

(** Both providers fail: the run reports it and the placeholder stays. *)
Example both_providers_down :
  statusText (snd (handleAnalyze (localReply (fun _ => FetchRejected)) submission (initial ∅)))
  = VStr "Error: Something went wrong during analysis."
  /\ persistedFeedback (localReply (fun _ => FetchRejected)) = Some (VStr EmptyString).
Proof. split; vm_compute; reflexivity. Qed.

(** The placeholder, read back by either viewer, counts as no feedback. *)
Example placeholder_reads_as_absent :
  ViewerA.normalizeFeedback (VStr EmptyString) = Some (VStr EmptyString)
  /\ ViewerB.normalizeFeedback (VStr EmptyString) = Some VNull.
Proof. split; reflexivity. Qed.

End Checks.
